(** * WMS site validation dashboard: the record store, search and aggregations

    A shallow embedding of [app.py].  The script keeps one pandas DataFrame
    [df], loaded from [site_records.csv] at the start of every run, and
    rewrites the whole file after each mutation.  The frame is modelled as
    the list of its rows; the calls into Streamlit and the write to the file
    are modelled as an event log.

    The script is a few lines of its own around calls into pandas, numpy,
    [re] and [csv]; what those calls do is modelled after the libraries'
    documented behaviour with the defaults the script leaves in place
    (pandas 2 on CPython 3 under Linux):
    - [Sr_No] is an [int64] column, the six other columns hold [str] values
      or [nan] ([object] columns);
    - text is ASCII, the character type being [ascii];
    - [Series.str.contains] compiles its argument as a regular expression;
    - [read_csv] turns its default markers of missing values into [nan] and
      infers the type of each column;
    - [value_counts] sorts with numpy's quicksort, which is not stable: it is
      followed statement by statement where the order of equal counts is at
      stake, and taken by its contract (a descending rearrangement)
      elsewhere. *)

From Stdlib Require Import ZArith List String Ascii Bool Lia Arith.
From Stdlib Require Import Permutation Sorted DecimalString DecimalPos.
Import ListNotations.

Local Open Scope string_scope.
Local Open Scope Z_scope.
Local Open Scope list_scope.

(** ** The frame *)

(** A cell of one of the six text columns.  [pd.read_csv] leaves such a
    column with dtype [object]: each cell is a [str], or the float [nan]
    where the file held one of the reader's missing-value markers. *)
Inductive cell : Type :=
| Str (s : string)
| NaN.

(** One row of [df]; the fields are the columns of the file, in its order:
    [Sr_No], [Site Name], [Validation Report], [Issue Sensors], [WMS_Type],
    [Issue_Description], [Date_Logged].  [Sr_No] is an [int64] column. *)
Record Row : Type := mkRow {
  Sr_No : Z;
  Site_Name : cell;
  Validation_Report : cell;
  Issue_Sensors : cell;
  WMS_Type : cell;
  Issue_Description : cell;
  Date_Logged : cell
}.

Definition DataFrame : Type := list Row.

Definition cell_eq_dec (a b : cell) : {a = b} + {a <> b}.
Proof. decide equality; apply string_dec. Defined.

Definition Row_eq_dec (a b : Row) : {a = b} + {a <> b}.
Proof. decide equality; try apply cell_eq_dec; apply Z.eq_dec. Defined.

(** [series != value] on an [object] column, where [value] is a [str]: a
    [str] cell is compared by value; [nan] differs from everything. *)
Definition ne_str (c : cell) (s : string) : bool :=
  match c with
  | Str t => negb (String.eqb t s)
  | NaN => true
  end.

(** [series == value], the complement on [str] cells; [nan == value] is
    [False]. *)
Definition eq_str (c : cell) (s : string) : bool :=
  match c with
  | Str t => String.eqb t s
  | NaN => false
  end.

(** [series != value] where [value] is itself taken out of the column (a
    [str] or [nan]). *)
Definition ne_cell (c v : cell) : bool :=
  match v with
  | Str s => ne_str c s
  | NaN => true
  end.

(** ** [int64] arithmetic *)

Definition int64_min : Z := - 2 ^ 63.
Definition int64_max : Z := 2 ^ 63 - 1.

Definition in_int64 (z : Z) : Prop := int64_min <= z <= int64_max.

(** Addition on [numpy.int64] scalars wraps around. *)
Definition wrap64 (z : Z) : Z := (z + 2 ^ 63) mod 2 ^ 64 - 2 ^ 63.

(** The [Sr_No] column holds [int64] values. *)
Definition int64_frame (df : DataFrame) : Prop :=
  Forall (fun r => in_int64 (Sr_No r)) df.

(** [Series.max()]: the largest value, [nan] ([None] here) on an empty
    series. *)
Fixpoint series_max (xs : list Z) : option Z :=
  match xs with
  | [] => None
  | x :: rest =>
      match series_max rest with
      | None => Some x
      | Some m => Some (Z.max x m)
      end
  end.

(** ** Text of numbers and dates *)

(** [str(n)] for a Python [int]. *)
Definition str_of_int (z : Z) : string := NilZero.string_of_int (Z.to_int z).

Definition str_of_nat (n : nat) : string := NilZero.string_of_uint (Nat.to_uint n).

(** Left padding with ['0'] up to [width] characters. *)
Fixpoint zeros (n : nat) : string :=
  match n with
  | O => EmptyString
  | S k => String "0"%char (zeros k)
  end.

Definition zfill (width : nat) (s : string) : string :=
  String.append (zeros (width - String.length s)) s.

(** The fields of [datetime.today()] that the script formats. *)
Record date : Type := mkDate { year : nat; month : nat; day : nat }.

(** A calendar date of the years 1000..9999, for which [%Y] gives four
    digits on every platform. *)
Definition valid_date (d : date) : Prop :=
  1000 <= Z.of_nat (year d) <= 9999 /\ 1 <= Z.of_nat (month d) <= 12
  /\ 1 <= Z.of_nat (day d) <= 31.

Definition is_digit (c : ascii) : bool :=
  ((48 <=? nat_of_ascii c) && (nat_of_ascii c <=? 57))%nat.

(** The shape [YYYY-MM-DD]: ten characters, digits around two dashes. *)
Definition ymd_shape (s : string) : bool :=
  match list_ascii_of_string s with
  | [y1; y2; y3; y4; s1; m1; m2; s2; d1; d2] =>
      forallb is_digit [y1; y2; y3; y4; m1; m2; d1; d2]
      && Ascii.eqb s1 "-" && Ascii.eqb s2 "-"
  | _ => false
  end.

(** [d.strftime('%Y-%m-%d')]. *)
Definition strftime_ymd (d : date) : string :=
  String.append (zfill 4 (str_of_nat (year d)))
    (String "-"%char
       (String.append (zfill 2 (str_of_nat (month d)))
          (String "-"%char (zfill 2 (str_of_nat (day d)))))).

(** ** Effects *)

(** What a run of the script does to the outside: [save_data df] rewrites
    the file from [df]; the other events are the Streamlit calls. *)
Inductive event : Type :=
| SaveData (df : DataFrame)
| StSuccess (msg : string)
| StError (msg : string)
| StWarning (msg : string)
| StRerun.

Inductive exn : Type :=
| ValueError (msg : string)
| ReError (msg : string).

(** A block of the script either runs to its end, leaving [df] bound to a
    frame and a log of events, or raises. *)
Inductive outcome : Type :=
| Completed (df : DataFrame) (log : list event)
| Raised (e : exn).

Definition is_save (e : event) : bool :=
  match e with
  | SaveData _ => true
  | _ => false
  end.

(** The number of writes to the backing file in a log. *)
Definition writes (log : list event) : nat := List.length (filter is_save log).

(** ** Adding a record (lines 127-156) *)

(** The widgets of the form. *)
Record Form : Type := mkForm {
  new_site : string;
  new_val : string;
  new_wms : string;
  new_sensor : string;
  new_issue_desc : string;
  submitted : bool
}.

(** Python truthiness of a [str]. *)
Definition truthy (s : string) : bool :=
  match s with
  | EmptyString => false
  | String _ _ => true
  end.

(** [x if x else default]. *)
Definition or_default (x default : string) : string :=
  if truthy x then x else default.

(** The dictionary [new_data], given the value of [df['Sr_No'].max()]. *)
Definition new_data (today : date) (m : Z) (f : Form) : Row :=
  {| Sr_No := wrap64 (m + 1);
     Site_Name := Str (new_site f);
     Validation_Report := Str (new_val f);
     Issue_Sensors := Str (or_default (new_sensor f) "None");
     WMS_Type := Str (new_wms f);
     Issue_Description := Str (or_default (new_issue_desc f) "No Issues");
     Date_Logged := Str (strftime_ymd today) |}.

(** The body of [with st.form("add_record_form")] after the widgets.  On an
    empty frame [df['Sr_No'].max()] is [nan], [nan + 1] is [nan], and
    [int(nan)] raises [ValueError] before anything is saved. *)
Definition add_record_form (today : date) (df : DataFrame) (f : Form) : outcome :=
  if submitted f then
    if truthy (new_site f) then
      match series_max (map Sr_No df) with
      | None => Raised (ValueError "cannot convert float NaN to integer")
      | Some m =>
          let df' := df ++ [new_data today m f] in
          Completed df'
            [SaveData df';
             StSuccess (String.append "Record for "
                          (String.append (new_site f) " saved successfully!"));
             StRerun]
      end
    else Completed df [StError "Site Name is required."]
  else Completed df [].

(** ** Deleting a site (lines 160-165) *)

(** [str(x)] for the value in an f-string. *)
Definition str_of_cell (c : cell) : string :=
  match c with
  | Str s => s
  | NaN => "nan"
  end.

(** [Series.unique()]: the values of a column in the order in which they
    first appear, [nan] once. *)
Fixpoint unique_from (seen cs : list cell) : list cell :=
  match cs with
  | [] => []
  | c :: rest =>
      if existsb (fun x => if cell_eq_dec c x then true else false) seen
      then unique_from seen rest
      else c :: unique_from (c :: seen) rest
  end.

Definition unique (cs : list cell) : list cell := unique_from [] cs.

(** The options of the select box, [df['Site Name'].unique()]. *)
Definition site_options (df : DataFrame) : list cell := unique (map Site_Name df).

(** [df[df['Site Name'] != site_to_delete]]. *)
Definition delete_site (df : DataFrame) (site_to_delete : cell) : DataFrame :=
  filter (fun r => ne_cell (Site_Name r) site_to_delete) df.

(** The block under [st.button("Delete Selected Site")]; [clicked] is the
    button's value. *)
Definition delete_selected_site (df : DataFrame) (site_to_delete : cell)
    (clicked : bool) : outcome :=
  if clicked then
    let df' := delete_site df site_to_delete in
    Completed df'
      [SaveData df';
       StWarning (String.append "Deleted " (str_of_cell site_to_delete));
       StRerun]
  else Completed df [].

(** ** The dashboard's counts (lines 48-93) *)

Definition total_sites (df : DataFrame) : nat := List.length df.

Definition sites_with_issue (df : DataFrame) : nat :=
  List.length (filter (fun r => eq_str (Validation_Report r) "Failed") df).

Definition wms1_issues (df : DataFrame) : nat :=
  List.length (filter (fun r => eq_str (WMS_Type r) "WMS-1") df).

Definition wms2_issues (df : DataFrame) : nat :=
  List.length (filter (fun r => eq_str (WMS_Type r) "WMS-2") df).

(** [issue_df = df[df['Issue Sensors'] != 'None']]. *)
Definition issue_df (df : DataFrame) : DataFrame :=
  filter (fun r => ne_str (Issue_Sensors r) "None") df.

(** Counting labels, keeping them in the order of their first appearance. *)
Fixpoint bump {K : Type} (eqb : K -> K -> bool) (k : K) (acc : list (K * nat))
  : list (K * nat) :=
  match acc with
  | [] => [(k, 1%nat)]
  | (k', n) :: rest =>
      if eqb k k' then (k', S n) :: rest else (k', n) :: bump eqb k rest
  end.

Definition tally {K : Type} (eqb : K -> K -> bool) (xs : list K) : list (K * nat) :=
  fold_left (fun acc k => bump eqb k acc) xs [].

Definition cell_eqb (a b : cell) : bool :=
  if cell_eq_dec a b then true else false.

(** The sectors of [px.pie(issue_df, names='Issue Sensors')]: no [values]
    column is given, so every row of [issue_df] adds one to the sector of
    its label. *)
Definition issue_sensor_distribution (df : DataFrame) : list (cell * nat) :=
  tally cell_eqb (map Issue_Sensors (issue_df df)).

Definition sum_counts {K : Type} (t : list (K * nat)) : nat :=
  fold_right (fun p acc => (snd p + acc)%nat) 0%nat t.

(** The bars of [px.histogram(issue_df, x='WMS_Type', color='Validation
    Report', barmode='group')]: the height of the bar of type [w] in the
    colour of status [v]. *)
Definition wms_failure_crosstab (df : DataFrame) (w v : string) : nat :=
  List.length
    (filter (fun r => eq_str (WMS_Type r) w && eq_str (Validation_Report r) v)
       (issue_df df)).

(** The non-missing values of a column ([value_counts] drops [nan]). *)
Fixpoint dropna (cs : list cell) : list string :=
  match cs with
  | [] => []
  | Str s :: rest => s :: dropna rest
  | NaN :: rest => dropna rest
  end.

(** The counts behind [issue_df['Issue_Description'].value_counts()], before
    they are sorted. *)
Definition description_counts (df : DataFrame) : list (string * nat) :=
  tally String.eqb (dropna (map Issue_Description (issue_df df))).

(** How often [d] is the description of a row of the issue subset. *)
Definition description_count (df : DataFrame) (d : string) : nat :=
  List.length (filter (fun r => eq_str (Issue_Description r) d) (issue_df df)).

(** ** The seed rows of [load_data] (lines 16-24) *)

Definition seed_row (n : Z) (site val sensor wms desc dt : string) : Row :=
  mkRow n (Str site) (Str val) (Str sensor) (Str wms) (Str desc) (Str dt).

Definition seed : DataFrame :=
  [ seed_row 1 "Site-A (North)" "Validated" "Temp Sensor" "WMS-1"
      "Calibration Drift" "2023-01-15";
    seed_row 2 "Site-B (South)" "Failed" "None" "WMS-2" "No Issues" "2023-02-20";
    seed_row 3 "Site-C (East)" "Validated" "Humidity Sensor" "WMS-1"
      "Connector Fault" "2023-03-10";
    seed_row 4 "Site-D (West)" "Failed" "Pressure Sensor" "WMS-2"
      "Power Failure" "2023-04-05";
    seed_row 5 "Site-E (North)" "Pending" "None" "WMS-1" "No Issues" "2023-05-12" ].

(** ** Ranking the descriptions (lines 88-90) *)

(** Descending by count. *)
Definition count_ge (a b : string * nat) : Prop := (snd b <= snd a)%nat.

(** [Series.sort_values(ascending=False)], which [value_counts()] calls with
    the default [kind='quicksort'].  numpy documents that kind as not
    stable (an insertion sort on short arrays, an introsort or a vectorised
    sort otherwise, by build and processor), so the call fixes the result up
    to the order of equal counts: any rearrangement of the counts that is
    descending may come back. *)
Definition sort_values_desc (counts out : list (string * nat)) : Prop :=
  Permutation counts out /\ StronglySorted count_ge out.

(** [top_issues]: the frame [value_counts().reset_index()] may return. *)
Definition top_issues (df : DataFrame) (out : list (string * nat)) : Prop :=
  sort_values_desc (description_counts df) out.

(** *** The sort as numpy and pandas carry it out

    [value_counts()] counts with a hash table that keeps the values in the
    order of their first appearance, and calls [sort_values(ascending=False)]
    on the counts.  That method sorts through [nargsort]: the counts are
    reversed, [numpy.argsort] of kind ['quicksort'] sorts them in ascending
    order, and the order it gives is reversed again.  On [int64] that
    [argsort] is numpy's [aquicksort]: it works on an array of indices,
    partitions every range of more than 17 elements around the median of
    three, and sorts the shorter ranges by insertion.  It is followed here
    statement by statement; a read or write outside the array, and the heap
    sort it falls back on when the partitions get too deep, give [None].
    (A build of numpy that hands this sort to a vectorised routine is not
    followed.) *)

Definition bind {A B : Type} (x : option A) (f : A -> option B) : option B :=
  match x with
  | Some a => f a
  | None => None
  end.

Notation "x <- e ;; k" := (bind e (fun x => k))
  (at level 61, e at next level, right associativity).

(** [*p] and [*p = x] on the array of indices; the pointers are offsets. *)
Definition load (a : list nat) (p : Z) : option nat :=
  if p <? 0 then None else nth_error a (Z.to_nat p).

Definition store (a : list nat) (p : Z) (x : nat) : option (list nat) :=
  if (0 <=? p) && (p <? Z.of_nat (List.length a))
  then Some (firstn (Z.to_nat p) a ++ x :: skipn (S (Z.to_nat p)) a)
  else None.

(** [v[*p]]. *)
Definition key (v a : list nat) (p : Z) : option nat :=
  i <- load a p ;; nth_error v i.

Definition INTP_SWAP (a : list nat) (p q : Z) : option (list nat) :=
  x <- load a p ;; y <- load a q ;; a1 <- store a p y ;; store a1 q x.

Definition SMALL_QUICKSORT : Z := 16.

(** The swap of [*p] and [*q] under [if (less(v[*p], v[*q]))]. *)
Definition swap_if_less (v a : list nat) (p q : Z) : option (list nat) :=
  kp <- key v a p ;; kq <- key v a q ;;
  if (kp <? kq)%nat then INTP_SWAP a p q else Some a.

(** [do { ++pi; } while (less(v[*pi], vp))]. *)
Fixpoint scan_up (fuel : nat) (v a : list nat) (vp : nat) (pi : Z) : option Z :=
  match fuel with
  | O => None
  | S f =>
      k <- key v a (pi + 1) ;;
      if (k <? vp)%nat then scan_up f v a vp (pi + 1) else Some (pi + 1)
  end.

(** [do { --pj; } while (less(vp, v[*pj]))]. *)
Fixpoint scan_down (fuel : nat) (v a : list nat) (vp : nat) (pj : Z) : option Z :=
  match fuel with
  | O => None
  | S f =>
      k <- key v a (pj - 1) ;;
      if (vp <? k)%nat then scan_down f v a vp (pj - 1) else Some (pj - 1)
  end.

(** The loop [for (;;)] of the partition. *)
Fixpoint partition_loop (fuel : nat) (v a : list nat) (vp : nat) (pi pj : Z)
  : option (list nat * Z) :=
  match fuel with
  | O => None
  | S f =>
      pi' <- scan_up (List.length a) v a vp pi ;;
      pj' <- scan_down (List.length a) v a vp pj ;;
      if pj' <=? pi' then Some (a, pi')
      else a' <- INTP_SWAP a pi' pj' ;; partition_loop f v a' vp pi' pj'
  end.

(** One partition of the range [pl..pr]: the median of three, the pivot
    put next to the end, the loop, the pivot put in its place [pi]. *)
Definition partition (v a : list nat) (pl pr : Z) : option (list nat * Z) :=
  let pm := pl + Z.shiftr (pr - pl) 1 in
  a1 <- swap_if_less v a pm pl ;;
  a2 <- swap_if_less v a1 pr pm ;;
  a3 <- swap_if_less v a2 pm pl ;;
  vp <- key v a3 pm ;;
  a4 <- INTP_SWAP a3 pm (pr - 1) ;;
  res <- partition_loop (List.length a) v a4 vp pl (pr - 1) ;;
  a6 <- INTP_SWAP (fst res) (snd res) (pr - 1) ;;
  Some (a6, snd res).

(** A range waiting on the stack, with the depth left for it. *)
Record range : Type := mkRange { r_lo : Z; r_hi : Z; r_depth : Z }.

Record qstate : Type := mkQ {
  q_arr : list nat;
  q_pl : Z;
  q_pr : Z;
  q_stack : list range;
  q_cdepth : Z
}.

(** [while ((pr - pl) > SMALL_QUICKSORT)]: partition, push the larger part,
    go on with the smaller. *)
Fixpoint partitions (fuel : nat) (v : list nat) (q : qstate) : option qstate :=
  match fuel with
  | O => None
  | S f =>
      if SMALL_QUICKSORT <? q_pr q - q_pl q then
        res <- partition v (q_arr q) (q_pl q) (q_pr q) ;;
        let pi := snd res in
        let d := q_cdepth q - 1 in
        if pi - q_pl q <? q_pr q - pi
        then partitions f v
               (mkQ (fst res) (q_pl q) (pi - 1) (mkRange (pi + 1) (q_pr q) d :: q_stack q) d)
        else partitions f v
               (mkQ (fst res) (pi + 1) (q_pr q) (mkRange (q_pl q) (pi - 1) d :: q_stack q) d)
      else Some q
  end.

(** [while (pj > pl && less(vp, v[*pk])) { *pj-- = *pk--; }], with
    [pk = pj - 1]. *)
Fixpoint shift (fuel : nat) (v a : list nat) (vp : nat) (pl pj : Z)
  : option (list nat * Z) :=
  match fuel with
  | O => None
  | S f =>
      if pl <? pj then
        k <- key v a (pj - 1) ;;
        if (vp <? k)%nat
        then x <- load a (pj - 1) ;; a' <- store a pj x ;; shift f v a' vp pl (pj - 1)
        else Some (a, pj)
      else Some (a, pj)
  end.

(** The insertion sort, [for (pi = pl + 1; pi <= pr; ++pi)]. *)
Fixpoint insertion (fuel : nat) (v a : list nat) (pl pr pi : Z) : option (list nat) :=
  match fuel with
  | O => None
  | S f =>
      if pi <=? pr then
        vi <- load a pi ;;
        vp <- nth_error v vi ;;
        res <- shift (S (List.length a)) v a vp pl pi ;;
        a' <- store (fst res) (snd res) vi ;;
        insertion f v a' pl pr (pi + 1)
      else Some a
  end.

(** The loop [while (1)]: the partitions, the insertion sort of what is
    left, the next range from the stack. *)
Fixpoint aquicksort_loop (fuel : nat) (v : list nat) (q : qstate) : option (list nat) :=
  match fuel with
  | O => None
  | S f =>
      if q_cdepth q <? 0 then None
      else
        q1 <- partitions (S (List.length (q_arr q))) v q ;;
        a <- insertion (S (List.length (q_arr q))) v (q_arr q1) (q_pl q1) (q_pr q1)
               (q_pl q1 + 1) ;;
        match q_stack q1 with
        | [] => Some a
        | r :: rest => aquicksort_loop f v (mkQ a (r_lo r) (r_hi r) rest (r_depth r))
        end
  end.

(** [v.argsort(kind='quicksort')]: the indices [0..n-1], sorted. *)
Definition argsort_quicksort (v : list nat) : option (list nat) :=
  let n := List.length v in
  aquicksort_loop (S n) v
    (mkQ (seq 0 n) 0 (Z.of_nat n - 1) [] (Z.log2 (Z.of_nat n) * 2)).

(** [nargsort(items, kind='quicksort', ascending=False)]. *)
Definition nargsort_descending (items : list nat) : option (list nat) :=
  let non_nans := rev items in
  let non_nan_idx := rev (seq 0 (List.length items)) in
  order <- argsort_quicksort non_nans ;;
  Some (rev (map (fun k => nth k non_nan_idx 0%nat) order)).

(** [issue_df['Issue_Description'].value_counts()]: the counts, taken in the
    order the sort gives. *)
Definition value_counts (df : DataFrame) : option (list (string * nat)) :=
  let counts := description_counts df in
  indexer <- nargsort_descending (map snd counts) ;;
  Some (map (fun i => nth i counts (EmptyString, 0%nat)) indexer).

(** ** Searching the records (lines 103-111) *)

(** [row.astype(str)]: the seven values of a row as text, [nan] as
    ["nan"]. *)
Definition row_text (r : Row) : list string :=
  [ str_of_int (Sr_No r); str_of_cell (Site_Name r);
    str_of_cell (Validation_Report r); str_of_cell (Issue_Sensors r);
    str_of_cell (WMS_Type r); str_of_cell (Issue_Description r);
    str_of_cell (Date_Logged r) ].

(** Text is ASCII here; on it the folding of [re.IGNORECASE] and the one of
    [str.casefold] are both the lowering of [A]..[Z].  On other text Python
    folds further letters and a character is more than one byte: what is
    proved of the rows a search shows is stated for ASCII text. *)
Definition to_lower (c : ascii) : ascii :=
  let n := nat_of_ascii c in
  if ((65 <=? n) && (n <=? 90))%nat then ascii_of_nat (n + 32) else c.

Definition ci_eqb (a b : ascii) : bool := Ascii.eqb (to_lower a) (to_lower b).

Fixpoint casefold (s : string) : string :=
  match s with
  | EmptyString => EmptyString
  | String c rest => String (to_lower c) (casefold rest)
  end.

(** [needle in hay]. *)
Fixpoint is_prefix (needle hay : string) : bool :=
  match needle, hay with
  | EmptyString, _ => true
  | String a n', String b h' => Ascii.eqb a b && is_prefix n' h'
  | String _ _, EmptyString => false
  end.

Fixpoint contains (hay needle : string) : bool :=
  is_prefix needle hay
  || match hay with
     | EmptyString => false
     | String _ h' => contains h' needle
     end.

(** *** Patterns

    [Series.str.contains(pat, case=False)] is called with its default
    [regex=True]: [pat] is compiled with [re.compile(pat, re.IGNORECASE)] and
    a cell matches when [search] finds a match anywhere in it.  The patterns
    modelled are those built from literal characters, [.], groups [( )],
    alternation [|] and the repeats [*], [+], [?]. *)
Inductive regex : Type :=
| Nul
| Eps
| Chr (c : ascii)
| Dot
| Cat (r1 r2 : regex)
| Alt (r1 r2 : regex)
| Star (r : regex).

Definition newline : ascii := "010"%char.

Fixpoint nullable (r : regex) : bool :=
  match r with
  | Nul => false
  | Eps => true
  | Chr _ => false
  | Dot => false
  | Cat r1 r2 => nullable r1 && nullable r2
  | Alt r1 r2 => nullable r1 || nullable r2
  | Star _ => true
  end.

(** What is left of [r] after reading [c]; a literal matches either case,
    [.] matches everything but a newline. *)
Fixpoint deriv (c : ascii) (r : regex) : regex :=
  match r with
  | Nul => Nul
  | Eps => Nul
  | Chr a => if ci_eqb a c then Eps else Nul
  | Dot => if Ascii.eqb c newline then Nul else Eps
  | Cat r1 r2 =>
      if nullable r1 then Alt (Cat (deriv c r1) r2) (deriv c r2)
      else Cat (deriv c r1) r2
  | Alt r1 r2 => Alt (deriv c r1) (deriv c r2)
  | Star r1 => Cat (deriv c r1) (Star r1)
  end.

(** Some prefix of [s] matches [r]. *)
Fixpoint match_prefix (r : regex) (s : string) : bool :=
  nullable r
  || match s with
     | EmptyString => false
     | String c rest => match_prefix (deriv c r) rest
     end.

(** [pattern.search(s) is not None]: a match starts at some position. *)
Fixpoint re_search (r : regex) (s : string) : bool :=
  match_prefix r s
  || match s with
     | EmptyString => false
     | String _ rest => re_search r rest
     end.

(** The result of [re.compile]: a pattern, [re.error], or a pattern that
    uses syntax outside the modelled part. *)
Inductive compiled : Type :=
| Pattern (r : regex)
| Invalid (msg : string)
| Unmodelled.

(** The parser's state inside one group: the branches closed by [|] so far
    (last first), the items of the open branch (last first), and whether the
    last item is a repeat. *)
Record frame : Type := mkFrame {
  branches : list regex;
  items : list regex;
  repeated : bool
}.

Definition empty_frame : frame := mkFrame [] [] false.

Definition seq_of (items_rev : list regex) : regex :=
  fold_left (fun acc x => Cat x acc) items_rev Eps.

Definition close (f : frame) : regex :=
  fold_left (fun acc b => Alt b acc) (branches f) (seq_of (items f)).

Definition push (x : regex) (f : frame) : frame :=
  mkFrame (branches f) (x :: items f) false.

Definition is_repeat (c : ascii) : bool :=
  Ascii.eqb c "*" || Ascii.eqb c "+" || Ascii.eqb c "?".

Definition repeat_of (c : ascii) (x : regex) : regex :=
  if Ascii.eqb c "*" then Star x
  else if Ascii.eqb c "+" then Cat x (Star x)
  else Alt x Eps.

Fixpoint parse (pat : string) (cur : frame) (stack : list frame) : compiled :=
  match pat with
  | EmptyString =>
      match stack with
      | [] => Pattern (close cur)
      | _ :: _ => Invalid "missing ), unterminated subpattern"
      end
  | String c rest =>
      if Ascii.eqb c "(" then parse rest empty_frame (cur :: stack)
      else if Ascii.eqb c ")" then
        match stack with
        | [] => Invalid "unbalanced parenthesis"
        | parent :: stack' => parse rest (push (close cur) parent) stack'
        end
      else if Ascii.eqb c "|" then
        parse rest (mkFrame (seq_of (items cur) :: branches cur) [] false) stack
      else if is_repeat c then
        match items cur with
        | [] => Invalid "nothing to repeat"
        | x :: xs =>
            if repeated cur then Invalid "multiple repeat"
            else parse rest (mkFrame (branches cur) (repeat_of c x :: xs) true) stack
        end
      else parse rest (push (if Ascii.eqb c "." then Dot else Chr c) cur) stack
  end.

(** Syntax left out of the model: escapes, anchors, character sets and
    counted repeats ([\ ^ $ [ {]), the extensions [(?...)], and the lazy and
    possessive repeats (a repeat followed by [?] or [+]). *)
Definition outside_model (prev : option ascii) (c : ascii) : bool :=
  Ascii.eqb c "\" || Ascii.eqb c "^" || Ascii.eqb c "$" || Ascii.eqb c "["
  || Ascii.eqb c "{"
  || match prev with
     | None => false
     | Some p =>
         (Ascii.eqb c "?" && (Ascii.eqb p "(" || is_repeat p))
         || (Ascii.eqb c "+" && is_repeat p)
     end.

Fixpoint modelled (prev : option ascii) (pat : string) : bool :=
  match pat with
  | EmptyString => true
  | String c rest => negb (outside_model prev c) && modelled (Some c) rest
  end.

Definition re_compile (pat : string) : compiled :=
  if modelled None pat then parse pat empty_frame [] else Unmodelled.

(** What the search section leaves in [filtered_df]. *)
Inductive search_outcome : Type :=
| Shown (filtered_df : DataFrame)
| SearchRaised (e : exn)
| NotModelled.

(** The filter logic.  On a frame without rows [df.apply(..., axis=1)] never
    runs the search on a row and the result has no rows. *)
Definition search (df : DataFrame) (search_term : string) : search_outcome :=
  if truthy search_term then
    match df with
    | [] => Shown []
    | _ :: _ =>
        match re_compile search_term with
        | Pattern r =>
            Shown (filter (fun row => existsb (re_search r) (row_text row)) df)
        | Invalid msg => SearchRaised (ReError msg)
        | Unmodelled => NotModelled
        end
    end
  else Shown df.

(** ** The backing file (lines 13-31)

    [save_data] is [df.to_csv(DATA_FILE, index=False)] and [load_data] ends
    in [pd.read_csv(DATA_FILE)], both with pandas' defaults.  The file is
    modelled as its text. *)

Definition comma : ascii := ","%char.
Definition dquote : ascii := "034"%char.
Definition cr : ascii := "013"%char.
Definition tab : ascii := "009"%char.

Definition header : list string :=
  [ "Sr_No"; "Site Name"; "Validation Report"; "Issue Sensors"; "WMS_Type";
    "Issue_Description"; "Date_Logged" ].

(** *** Writing *)

Fixpoint string_exists (p : ascii -> bool) (s : string) : bool :=
  match s with
  | EmptyString => false
  | String c rest => p c || string_exists p rest
  end.

Definition breaks_field (c : ascii) : bool :=
  Ascii.eqb c comma || Ascii.eqb c dquote || Ascii.eqb c newline.

(** [csv.QUOTE_MINIMAL]: a field is quoted when it holds the delimiter, the
    quote character or a character of the line terminator, which is the line
    feed. *)
Definition needs_quotes (s : string) : bool := string_exists breaks_field s.

Fixpoint double_quotes (s : string) : string :=
  match s with
  | EmptyString => EmptyString
  | String c rest =>
      if Ascii.eqb c dquote then String dquote (String dquote (double_quotes rest))
      else String c (double_quotes rest)
  end.

Definition quote_field (s : string) : string :=
  if needs_quotes s
  then String dquote (String.append (double_quotes s) (String dquote EmptyString))
  else s.

Fixpoint join_fields (fs : list string) : string :=
  match fs with
  | [] => EmptyString
  | [f] => quote_field f
  | f :: rest => String.append (quote_field f) (String comma (join_fields rest))
  end.

Definition csv_line (fs : list string) : string :=
  String.append (join_fields fs) (String newline EmptyString).

(** A missing value is written as the empty field ([na_rep='']). *)
Definition csv_cell (c : cell) : string :=
  match c with
  | Str s => s
  | NaN => EmptyString
  end.

Definition row_fields (r : Row) : list string :=
  [ str_of_int (Sr_No r); csv_cell (Site_Name r); csv_cell (Validation_Report r);
    csv_cell (Issue_Sensors r); csv_cell (WMS_Type r);
    csv_cell (Issue_Description r); csv_cell (Date_Logged r) ].

Definition file_text (rows : list (list string)) : string :=
  fold_right (fun fs acc => String.append (csv_line fs) acc) EmptyString rows.

(** [df.to_csv(path, index=False)]: the header line, then one line a row. *)
Definition to_csv (df : DataFrame) : string :=
  file_text (header :: map row_fields df).

(** *** Reading: the tokenizer *)

Inductive tstate : Type :=
| START_RECORD
| START_FIELD
| IN_FIELD
| IN_QUOTED_FIELD
| QUOTE_IN_QUOTED_FIELD
| EAT_CRNL
| EAT_CRNL_NOP
| WHITESPACE_LINE.

(** The reader's tokenizer: its state, the characters of the open field
    (last first), the fields of the open line (last first) and the closed
    lines (last first). *)
Record tokenizer : Type := mkTok {
  state : tstate;
  word : string;
  fields : list string;
  records : list (list string)
}.

Fixpoint rev_onto (s acc : string) : string :=
  match s with
  | EmptyString => acc
  | String c rest => rev_onto rest (String c acc)
  end.

Definition set_state (s : tstate) (t : tokenizer) : tokenizer :=
  mkTok s (word t) (fields t) (records t).

Definition push_char (c : ascii) (t : tokenizer) : tokenizer :=
  mkTok (state t) (String c (word t)) (fields t) (records t).

Definition end_field (t : tokenizer) : tokenizer :=
  mkTok (state t) EmptyString (rev_onto (word t) EmptyString :: fields t) (records t).

Definition end_line (t : tokenizer) : tokenizer :=
  mkTok START_RECORD EmptyString [] (rev (fields t) :: records t).

Definition drop_line (s : tstate) (t : tokenizer) : tokenizer :=
  mkTok s EmptyString [] (records t).

Definition is_blank (c : ascii) : bool := Ascii.eqb c " " || Ascii.eqb c tab.

(** The states inside a record. *)
Definition step_field (t : tokenizer) (c : ascii) : tokenizer :=
  match state t with
  | START_FIELD =>
      if Ascii.eqb c newline then end_line (end_field t)
      else if Ascii.eqb c cr then set_state EAT_CRNL (end_field t)
      else if Ascii.eqb c dquote then set_state IN_QUOTED_FIELD t
      else if Ascii.eqb c comma then end_field t
      else set_state IN_FIELD (push_char c t)
  | IN_FIELD =>
      if Ascii.eqb c newline then end_line (end_field t)
      else if Ascii.eqb c cr then set_state EAT_CRNL (end_field t)
      else if Ascii.eqb c comma then set_state START_FIELD (end_field t)
      else push_char c t
  | IN_QUOTED_FIELD =>
      if Ascii.eqb c dquote then set_state QUOTE_IN_QUOTED_FIELD t
      else push_char c t
  | QUOTE_IN_QUOTED_FIELD =>
      if Ascii.eqb c dquote then set_state IN_QUOTED_FIELD (push_char c t)
      else if Ascii.eqb c comma then set_state START_FIELD (end_field t)
      else if Ascii.eqb c newline then end_line (end_field t)
      else if Ascii.eqb c cr then set_state EAT_CRNL (end_field t)
      else set_state IN_FIELD (push_char c t)
  | _ => t
  end.

(** The first character of a record; empty lines are skipped
    ([skip_blank_lines=True]), and so are lines of blanks. *)
Definition step_record (t : tokenizer) (c : ascii) : tokenizer :=
  if Ascii.eqb c newline then t
  else if Ascii.eqb c cr then set_state EAT_CRNL_NOP t
  else if is_blank c then set_state WHITESPACE_LINE (push_char c t)
  else step_field (set_state START_FIELD t) c.

Definition step (t : tokenizer) (c : ascii) : tokenizer :=
  match state t with
  | START_RECORD => step_record t c
  | WHITESPACE_LINE =>
      if Ascii.eqb c newline then drop_line START_RECORD t
      else if Ascii.eqb c cr then drop_line EAT_CRNL_NOP t
      else if is_blank c then push_char c t
      else step_field (set_state IN_FIELD t) c
  | EAT_CRNL =>
      if Ascii.eqb c newline then end_line t
      else if Ascii.eqb c comma then set_state START_FIELD (end_field (end_line t))
      else step_record (end_line t) c
  | EAT_CRNL_NOP =>
      if Ascii.eqb c newline || Ascii.eqb c comma then set_state START_RECORD t
      else step_record (set_state START_RECORD t) c
  | _ => step_field t c
  end.

Fixpoint tokenize_bytes (text : string) (t : tokenizer) : tokenizer :=
  match text with
  | EmptyString => t
  | String c rest => tokenize_bytes rest (step t c)
  end.

(** The end of the file closes an open field and line; inside a quoted
    field it is an error ([None]). *)
Definition handle_eof (t : tokenizer) : option (list (list string)) :=
  match state t with
  | START_RECORD | WHITESPACE_LINE | EAT_CRNL_NOP => Some (rev (records t))
  | IN_QUOTED_FIELD => None
  | EAT_CRNL => Some (rev (records (end_line t)))
  | START_FIELD | IN_FIELD | QUOTE_IN_QUOTED_FIELD =>
      Some (rev (records (end_line (end_field t))))
  end.

Definition tokenize (text : string) : option (list (list string)) :=
  handle_eof (tokenize_bytes text (mkTok START_RECORD EmptyString [] [])).

(** *** Reading: missing values and column types *)

(** The fields [read_csv] takes for missing values by default
    ([keep_default_na=True], pandas 2). *)
Definition na_values : list string :=
  [ ""; "#N/A"; "#N/A N/A"; "#NA"; "-1.#IND"; "-1.#QNAN"; "-NaN"; "-nan";
    "1.#IND"; "1.#QNAN"; "<NA>"; "N/A"; "NA"; "NULL"; "NaN"; "None"; "n/a";
    "nan"; "null" ].

Definition is_na (s : string) : bool := existsb (String.eqb s) na_values.

Definition is_space (c : ascii) : bool :=
  let n := nat_of_ascii c in ((n =? 32) || ((9 <=? n) && (n <=? 13)))%nat.

Fixpoint lstrip (s : string) : string :=
  match s with
  | EmptyString => EmptyString
  | String c rest => if is_space c then lstrip rest else s
  end.

(** The digits at the front of [s] and what follows them. *)
Fixpoint span_digits (s : string) : string * string :=
  match s with
  | EmptyString => (EmptyString, EmptyString)
  | String c rest =>
      if is_digit c then let (d, r) := span_digits rest in (String c d, r)
      else (EmptyString, s)
  end.

Definition all_space (s : string) : bool := negb (string_exists (fun c => negb (is_space c)) s).

Definition is_sign (c : ascii) : bool := Ascii.eqb c "-" || Ascii.eqb c "+".

Definition drop_sign (s : string) : string :=
  match s with
  | String c rest => if is_sign c then rest else s
  | EmptyString => EmptyString
  end.

Definition uint_value (digits : string) : Z :=
  match NilEmpty.uint_of_string digits with
  | Some d => Z.of_N (N.of_uint d)
  | None => 0
  end.

(** The integer a field reads as: blanks, a sign, digits, blanks. *)
Definition parse_int (s : string) : option Z :=
  let s1 := lstrip s in
  let negative := match s1 with String c _ => Ascii.eqb c "-" | EmptyString => false end in
  let (digits, rest) := span_digits (drop_sign s1) in
  match digits with
  | EmptyString => None
  | String _ _ =>
      if all_space rest
      then Some (if negative then - uint_value digits else uint_value digits)
      else None
  end.

Definition parse_int64 (s : string) : option Z :=
  match parse_int s with
  | Some z => if (int64_min <=? z) && (z <=? int64_max) then Some z else None
  | None => None
  end.

Definition is_exponent_mark (c : ascii) : bool := Ascii.eqb c "e" || Ascii.eqb c "E".

(** An exponent with at least one digit is read; anything else is left. *)
Definition skip_exponent (s : string) : string :=
  match s with
  | String c rest =>
      if is_exponent_mark c then
        let (digits, rest') := span_digits (drop_sign rest) in
        match digits with
        | EmptyString => s
        | String _ _ => rest'
        end
      else s
  | EmptyString => EmptyString
  end.

Definition infinities : list string :=
  [ "inf"; "+inf"; "-inf"; "infinity"; "+infinity"; "-infinity" ].

(** The fields the reader's float converter accepts: blanks, a sign, digits
    with an optional point (one digit at least), an optional exponent,
    blanks; or an infinity in any case. *)
Definition float_like (s : string) : bool :=
  let (whole, r1) := span_digits (drop_sign (lstrip s)) in
  let (frac, r2) :=
    match r1 with
    | String c rest => if Ascii.eqb c "." then span_digits rest else (EmptyString, r1)
    | EmptyString => (EmptyString, EmptyString)
    end in
  ((0 <? String.length whole + String.length frac)%nat && all_space (skip_exponent r2))
  || existsb (String.eqb (casefold s)) infinities.

(** The fields the reader's boolean converter accepts: the default true and
    false values and, failing those, [true] and [false] compared without
    regard to case. *)
Definition bool_like (s : string) : bool :=
  existsb (String.eqb s) ["True"; "TRUE"; "true"; "False"; "FALSE"; "false"]
  || existsb (String.eqb (casefold s)) ["true"; "false"].

Definition reads_as_int64 (s : string) : bool :=
  match parse_int64 s with
  | Some _ => true
  | None => false
  end.

(** The integer converter reads the digits before it looks at what follows
    them, and stops with an overflow when they leave the [int64] range. *)
Definition overflows (s : string) : bool :=
  let s1 := lstrip s in
  let negative := match s1 with String c _ => Ascii.eqb c "-" | EmptyString => false end in
  let (digits, _) := span_digits (drop_sign s1) in
  match digits with
  | EmptyString => false
  | String _ _ =>
      let z := if negative then - uint_value digits else uint_value digits in
      negb ((int64_min <=? z) && (z <=? int64_max))
  end.

(** The first field of a column at which the integer pass stops: markers
    of missing values are passed over. *)
Fixpoint first_int_error (col : list string) : option string :=
  match col with
  | [] => None
  | s :: rest =>
      if is_na s || reads_as_int64 s then first_int_error rest else Some s
  end.

(** The integer pass stops with an overflow. *)
Definition int_pass_overflows (col : list string) : bool :=
  match first_int_error col with
  | Some s => overflows s
  | None => false
  end.

(** A value of a loaded frame: an [int64], a [str], [nan], or, in a column
    that the reader types in another way (float, boolean, integers beyond
    [int64]), what it makes of the field; that value is not modelled, the
    field's text stands for it. *)
Inductive value : Type :=
| VInt (z : Z)
| VStr (s : string)
| VNaN
| VOther (text : string).

Inductive dtype : Type :=
| Int64
| Object
| OtherType.

(** The reader tries [int64], then [float64], then [bool], and leaves the
    column as [object] when some field fits none of them; a column without
    rows is [object].  When the integer pass stops with an overflow the
    reader takes another way ([uint64], or text in which the markers of
    missing values are kept), which is not followed here. *)
Definition infer_dtype (col : list string) : dtype :=
  match col with
  | [] => Object
  | _ :: _ =>
      if forallb (fun s => negb (is_na s) && reads_as_int64 s) col then Int64
      else if int_pass_overflows col then OtherType
      else if forallb (fun s => is_na s || float_like s) col then OtherType
      else if forallb (fun s => is_na s || bool_like s) col then OtherType
      else Object
  end.

Definition convert (d : dtype) (s : string) : value :=
  if is_na s then VNaN
  else match d with
       | Int64 => match parse_int64 s with Some z => VInt z | None => VOther s end
       | Object => VStr s
       | OtherType => VOther s
       end.

Definition column (i : nat) (rows : list (list string)) : list string :=
  map (fun fs => nth i fs EmptyString) rows.

Definition convert_rows (rows : list (list string)) : list (list value) :=
  let dtypes := map (fun i => infer_dtype (column i rows)) (seq 0 (List.length header)) in
  map (fun fs => map (fun i => convert (nth i dtypes Object) (nth i fs EmptyString))
                   (seq 0 (List.length header))) rows.

Inductive load_result : Type :=
| Loaded (rows : list (list value))
| ParserError (msg : string)
| OtherColumns.

Fixpoint list_eqb (a b : list string) : bool :=
  match a, b with
  | [], [] => true
  | x :: a', y :: b' => String.eqb x y && list_eqb a' b'
  | _, _ => false
  end.

(** [pd.read_csv(DATA_FILE)] on the text of the file.  The first line names
    the columns; a frame with other columns than the seven of [header], or
    with a first row longer than the header (which the reader takes as an
    index), is [OtherColumns] and not followed further.  A shorter row is
    filled with missing values, a longer one is an error. *)
Definition read_csv (text : string) : load_result :=
  match tokenize text with
  | None => ParserError "EOF inside string"
  | Some [] => ParserError "No columns to parse from file"
  | Some (names :: rows) =>
      if negb (list_eqb names header) then OtherColumns
      else
        match rows with
        | first :: _ =>
            if (List.length header <? List.length first)%nat then OtherColumns
            else if forallb (fun fs => (List.length fs <=? List.length header)%nat) rows
            then Loaded (convert_rows rows)
            else ParserError "Expected 7 fields"
        | [] => Loaded []
        end
  end.

(** The values of a row of [df] as the loaded frame holds them. *)
Definition value_of_cell (c : cell) : value :=
  match c with
  | Str s => VStr s
  | NaN => VNaN
  end.

Definition row_values (r : Row) : list value :=
  [ VInt (Sr_No r); value_of_cell (Site_Name r); value_of_cell (Validation_Report r);
    value_of_cell (Issue_Sensors r); value_of_cell (WMS_Type r);
    value_of_cell (Issue_Description r); value_of_cell (Date_Logged r) ].

(** [load_data]: the file is created from the seed rows when it does not
    exist; the result is the frame read and the text the file then has. *)
Definition load_data (file : option string) : load_result * string :=
  match file with
  | Some text => (read_csv text, text)
  | None => (read_csv (to_csv seed), to_csv seed)
  end.

(** [save_data df]: the text the file has afterwards. *)
Definition save_data (df : DataFrame) : string := to_csv df.

(** The frame the script binds to [df] after loading: defined when the
    serial column came back as integers and the other columns as text. *)
Definition cell_of_value (v : value) : option cell :=
  match v with
  | VStr s => Some (Str s)
  | VNaN => Some NaN
  | VInt _ | VOther _ => None
  end.

Definition row_of_values (vs : list value) : option Row :=
  match vs with
  | [VInt n; v1; v2; v3; v4; v5; v6] =>
      match cell_of_value v1, cell_of_value v2, cell_of_value v3,
            cell_of_value v4, cell_of_value v5, cell_of_value v6 with
      | Some c1, Some c2, Some c3, Some c4, Some c5, Some c6 =>
          Some (mkRow n c1 c2 c3 c4 c5 c6)
      | _, _, _, _, _, _ => None
      end
  | _ => None
  end.

Fixpoint frame_of_rows (rows : list (list value)) : option DataFrame :=
  match rows with
  | [] => Some []
  | vs :: rest =>
      match row_of_values vs, frame_of_rows rest with
      | Some r, Some df => Some (r :: df)
      | _, _ => None
      end
  end.

Definition loaded_frame (res : load_result) : option DataFrame :=
  match res with
  | Loaded rows => frame_of_rows rows
  | ParserError _ | OtherColumns => None
  end.

(** ** One run of the page "Site Validation & Search" (lines 98-165) *)

(** The widgets' values in the run. *)
Record page_inputs : Type := mkInputs {
  search_term : string;
  form : Form;
  site_to_delete : cell;
  delete_clicked : bool
}.

Inductive page_outcome : Type :=
| PageDone (filtered_df : DataFrame) (df : DataFrame) (log : list event)
| PageRaised (e : exn) (log : list event)
| PageNotModelled.

Definition is_rerun (e : event) : bool :=
  match e with
  | StRerun => true
  | _ => false
  end.

(** The sections run in the order of the script; an exception ends the run,
    and so does [st.rerun()]. *)
Definition site_validation_page (today : date) (df : DataFrame) (inp : page_inputs)
  : page_outcome :=
  match search df (search_term inp) with
  | SearchRaised e => PageRaised e []
  | NotModelled => PageNotModelled
  | Shown filtered =>
      match add_record_form today df (form inp) with
      | Raised e => PageRaised e []
      | Completed df1 log1 =>
          if existsb is_rerun log1 then PageDone filtered df1 log1
          else
            match delete_selected_site df1 (site_to_delete inp) (delete_clicked inp) with
            | Raised e => PageRaised e log1
            | Completed df2 log2 => PageDone filtered df2 (log1 ++ log2)
            end
      end
  end.

(** * The vocabulary of the properties *)

(** ** Tallies and filtered frames *)

(** The count a tally holds for a label; [0] when the label is absent. *)
Fixpoint lookup_count {K : Type} (eqb : K -> K -> bool) (k : K) (t : list (K * nat))
  : nat :=
  match t with
  | [] => 0%nat
  | (k', n) :: rest => if eqb k k' then n else lookup_count eqb k rest
  end.

(** The number of occurrences of a label in a column. *)
Fixpoint occurrences {K : Type} (eqb : K -> K -> bool) (k : K) (xs : list K) : nat :=
  match xs with
  | [] => 0%nat
  | x :: rest => ((if eqb k x then 1 else 0) + occurrences eqb k rest)%nat
  end.

(** [l] is [l'] with some elements left out, the rest in their order. *)
Inductive subsequence {A : Type} : list A -> list A -> Prop :=
| subseq_nil : subsequence [] []
| subseq_skip (x : A) (l l' : list A) : subsequence l l' -> subsequence l (x :: l')
| subseq_keep (x : A) (l l' : list A) : subsequence l l' -> subsequence (x :: l) (x :: l').

Definition count_where (p : Row -> bool) (df : DataFrame) : nat :=
  List.length (filter p df).

(** A row belongs to the issue subset when its sensor is not the text
    ["None"]. *)
Definition has_issue (r : Row) : Prop := Issue_Sensors r <> Str "None".

Definition has_issueb (r : Row) : bool :=
  if cell_eq_dec (Issue_Sensors r) (Str "None") then false else true.

(** ** The ranking as the specification words it *)

(** Descending by count, equal counts in the order in which the
    descriptions are first met in the table: a stable insertion sort of the
    counts. *)
Fixpoint insert_desc (p : string * nat) (l : list (string * nat))
  : list (string * nat) :=
  match l with
  | [] => [p]
  | q :: rest =>
      if (snd q <=? snd p)%nat then p :: q :: rest else q :: insert_desc p rest
  end.

Definition stable_sort_desc (l : list (string * nat)) : list (string * nat) :=
  fold_right insert_desc [] l.

Definition stable_top_issues (df : DataFrame) : list (string * nat) :=
  stable_sort_desc (description_counts df).

(** ** The insertion sort on lists, and a frame with many descriptions *)

(** Insertion into a sorted run that is held last element first: [x] goes
    behind the elements whose key is larger than its own. *)
Fixpoint insert_key (v : list nat) (x : nat) (rdone : list nat) : list nat :=
  match rdone with
  | [] => [x]
  | y :: r =>
      if (nth x v 0 <? nth y v 0)%nat then y :: insert_key v x r else x :: y :: r
  end.

(** Eighteen sites, each with a sensor fault and a description of its own. *)
Definition many_issues : DataFrame :=
  [ seed_row 1 "Site-01" "Failed" "Temp Sensor" "WMS-1" "Fault 01" "2024-01-01";
    seed_row 2 "Site-02" "Failed" "Temp Sensor" "WMS-1" "Fault 02" "2024-01-02";
    seed_row 3 "Site-03" "Failed" "Temp Sensor" "WMS-1" "Fault 03" "2024-01-03";
    seed_row 4 "Site-04" "Failed" "Temp Sensor" "WMS-1" "Fault 04" "2024-01-04";
    seed_row 5 "Site-05" "Failed" "Temp Sensor" "WMS-1" "Fault 05" "2024-01-05";
    seed_row 6 "Site-06" "Failed" "Temp Sensor" "WMS-1" "Fault 06" "2024-01-06";
    seed_row 7 "Site-07" "Failed" "Temp Sensor" "WMS-1" "Fault 07" "2024-01-07";
    seed_row 8 "Site-08" "Failed" "Temp Sensor" "WMS-1" "Fault 08" "2024-01-08";
    seed_row 9 "Site-09" "Failed" "Temp Sensor" "WMS-1" "Fault 09" "2024-01-09";
    seed_row 10 "Site-10" "Failed" "Temp Sensor" "WMS-1" "Fault 10" "2024-01-10";
    seed_row 11 "Site-11" "Failed" "Temp Sensor" "WMS-1" "Fault 11" "2024-01-11";
    seed_row 12 "Site-12" "Failed" "Temp Sensor" "WMS-1" "Fault 12" "2024-01-12";
    seed_row 13 "Site-13" "Failed" "Temp Sensor" "WMS-1" "Fault 13" "2024-01-13";
    seed_row 14 "Site-14" "Failed" "Temp Sensor" "WMS-1" "Fault 14" "2024-01-14";
    seed_row 15 "Site-15" "Failed" "Temp Sensor" "WMS-1" "Fault 15" "2024-01-15";
    seed_row 16 "Site-16" "Failed" "Temp Sensor" "WMS-1" "Fault 16" "2024-01-16";
    seed_row 17 "Site-17" "Failed" "Temp Sensor" "WMS-1" "Fault 17" "2024-01-17";
    seed_row 18 "Site-18" "Failed" "Temp Sensor" "WMS-1" "Fault 18" "2024-01-18" ].

(** ** Dates *)

Definition four_digits (s : string) : bool :=
  match list_ascii_of_string s with
  | [a; b; c; d] => forallb is_digit [a; b; c; d]
  | _ => false
  end.

Definition two_digits (s : string) : bool :=
  match list_ascii_of_string s with
  | [a; b] => forallb is_digit [a; b]
  | _ => false
  end.

(** ** Matches of a pattern, plain terms *)

(** The words a pattern matches, letters in either case. *)
Inductive matches : regex -> string -> Prop :=
| m_eps : matches Eps EmptyString
| m_chr (a c : ascii) : ci_eqb a c = true -> matches (Chr a) (String c EmptyString)
| m_dot (c : ascii) : c <> newline -> matches Dot (String c EmptyString)
| m_cat (r1 r2 : regex) (s1 s2 : string) :
    matches r1 s1 -> matches r2 s2 -> matches (Cat r1 r2) (s1 ++ s2)%string
| m_alt_l (r1 r2 : regex) (s : string) : matches r1 s -> matches (Alt r1 r2) s
| m_alt_r (r1 r2 : regex) (s : string) : matches r2 s -> matches (Alt r1 r2) s
| m_star_nil (r : regex) : matches (Star r) EmptyString
| m_star_cons (r : regex) (s1 s2 : string) :
    matches r s1 -> matches (Star r) s2 -> matches (Star r) (s1 ++ s2)%string.

(** The characters [re] gives a meaning of their own. *)
Definition special (c : ascii) : bool :=
  existsb (Ascii.eqb c)
    ["."; "^"; "$"; "*"; "+"; "?"; "{"; "}"; "["; "]"; "\"; "|"; "("; ")"]%char.

Fixpoint plain (term : string) : bool :=
  match term with
  | EmptyString => true
  | String c rest => negb (special c) && plain rest
  end.

(** The pattern of a plain term: its characters in a row. *)
Fixpoint lit_then (t : string) (tail : regex) : regex :=
  match t with
  | EmptyString => tail
  | String c rest => Cat (Chr c) (lit_then rest tail)
  end.

Fixpoint push_all (t : string) (f : frame) : frame :=
  match t with
  | EmptyString => f
  | String c rest => push_all rest (push (Chr c) f)
  end.

(** Some field of the row, case-folded, contains the case-folded term. *)
Definition row_contains (term : string) (r : Row) : bool :=
  existsb (fun field => contains (casefold field) (casefold term)) (row_text r).

(** ** Files and the frames that come back from them *)

(** The frame a user gets by adding a site whose issue description is typed
    as ["N/A"]. *)
Definition frame_with_na : DataFrame :=
  [ seed_row 1 "Site-A (North)" "Validated" "Temp Sensor" "WMS-1"
      "Calibration Drift" "2023-01-15";
    seed_row 2 "Site-G" "Pending" "Flow Sensor" "WMS-2" "N/A" "2026-11-03" ].

(** The tokenizer has read the field [f] and waits for what ends it. *)
Definition field_read (t : tokenizer) (f : string) (t' : tokenizer) : Prop :=
  fields t' = fields t /\ records t' = records t
  /\ rev_onto (word t') EmptyString = f
  /\ (state t' = START_FIELD \/ state t' = IN_FIELD
      \/ state t' = QUOTE_IN_QUOTED_FIELD).

(** The field holds a carriage return.  The tokenizer ends a line at one
    outside quotes, and the writer does not quote a field for it. *)
Definition has_cr (s : string) : bool := string_exists (fun c => Ascii.eqb c cr) s.

Definition cr_free (fs : list string) : bool := forallb (fun f => negb (has_cr f)) fs.

(** The field holds a NUL character.  The reader keeps its fields as C
    strings, which end at the first NUL. *)
Definition has_nul (s : string) : bool := string_exists (fun c => Ascii.eqb c "000") s.

(** The reader types the columns of at most this many rows in one piece
    (for seven columns it takes [2^17] rows at a time). *)
Definition one_piece (df : DataFrame) : Prop := Z.of_nat (List.length df) <= 100000.

(** A first field that lets the tokenizer start a record: it begins with a
    character that is neither a blank nor a line break. *)
Definition starts_record (fs : list string) : bool :=
  match fs with
  | String c _ :: _ =>
      negb (is_blank c) && negb (breaks_field c) && negb (Ascii.eqb c cr)
  | _ => false
  end.

(** Only digits. *)
Definition digits_only (s : string) : bool :=
  negb (string_exists (fun c => negb (is_digit c)) s).

(** Only digits and minus signs. *)
Definition int_chars (s : string) : bool :=
  negb (string_exists (fun c => negb (is_digit c || Ascii.eqb c "-")) s).

(** The field reads as a number: the reader would type a column of such
    fields as integer or float. *)
Definition reads_as_number (s : string) : bool := reads_as_int64 s || float_like s.

(** A text column comes back as text when none of its texts is a marker of
    a missing value, holds a carriage return or a NUL, or starts with an
    integer beyond [int64] and, unless the column is all [nan], one of them
    does not read as a number and one does not read as a boolean. *)
Definition keeps_text (col : list cell) : Prop :=
  (forall s, In (Str s) col -> is_na s = false /\ has_cr s = false)
  /\ (forall s, In (Str s) col -> has_nul s = false /\ overflows s = false)
  /\ ((forall s, ~ In (Str s) col)
      \/ ((exists s, In (Str s) col /\ reads_as_number s = false)
          /\ (exists s, In (Str s) col /\ bool_like s = false))).

(** The frame comes back from the file as it was saved. *)
Definition round_trips (df : DataFrame) : Prop :=
  int64_frame df
  /\ one_piece df
  /\ keeps_text (map Site_Name df)
  /\ keeps_text (map Validation_Report df)
  /\ keeps_text (map Issue_Sensors df)
  /\ keeps_text (map WMS_Type df)
  /\ keeps_text (map Issue_Description df)
  /\ keeps_text (map Date_Logged df).

(** What the reader makes of a cell that was written: a text that is one of
    its markers of a missing value comes back as [nan]. *)
Definition read_back (c : cell) : cell :=
  match c with
  | Str s => if is_na s then NaN else Str s
  | NaN => NaN
  end.

Definition read_back_row (r : Row) : Row :=
  mkRow (Sr_No r) (read_back (Site_Name r)) (read_back (Validation_Report r))
    (read_back (Issue_Sensors r)) (read_back (WMS_Type r))
    (read_back (Issue_Description r)) (read_back (Date_Logged r)).

(** A text column is read as text ([object]) or, when it holds markers
    only, as a column of [nan]: no text holds a carriage return or a NUL or
    starts with an integer beyond [int64], and either every text is a marker
    or, among the texts that are not, one does not read as a number and one
    does not read as a boolean. *)
Definition stays_text (col : list cell) : Prop :=
  (forall s, In (Str s) col -> has_cr s = false)
  /\ (forall s, In (Str s) col -> has_nul s = false /\ overflows s = false)
  /\ ((forall s, In (Str s) col -> is_na s = true)
      \/ ((exists s, In (Str s) col /\ is_na s = false /\ reads_as_number s = false)
          /\ (exists s, In (Str s) col /\ is_na s = false /\ bool_like s = false))).

Definition reads_back (df : DataFrame) : Prop :=
  int64_frame df
  /\ one_piece df
  /\ stays_text (map Site_Name df)
  /\ stays_text (map Validation_Report df)
  /\ stays_text (map Issue_Sensors df)
  /\ stays_text (map WMS_Type df)
  /\ stays_text (map Issue_Description df)
  /\ stays_text (map Date_Logged df).

(** The six text cells of a row. *)
Definition text_cells (r : Row) : list cell :=
  [ Site_Name r; Validation_Report r; Issue_Sensors r; WMS_Type r;
    Issue_Description r; Date_Logged r ].

(** The cell is not a text that the reader takes for a missing value. *)
Definition no_marker (c : cell) : Prop :=
  match c with
  | Str s => is_na s = false
  | NaN => True
  end.

(** ** ASCII text *)

Definition ascii_text (s : string) : bool :=
  negb (string_exists (fun c => (127 <? nat_of_ascii c)%nat) s).

(** Every value of the row, as text, is ASCII. *)
Definition ascii_row (r : Row) : bool := forallb ascii_text (row_text r).

Definition ascii_frame (df : DataFrame) : bool := forallb ascii_row df.

(** ** Patterns up to the case of their letters *)

Fixpoint fold_regex (r : regex) : regex :=
  match r with
  | Nul => Nul
  | Eps => Eps
  | Chr c => Chr (to_lower c)
  | Dot => Dot
  | Cat r1 r2 => Cat (fold_regex r1) (fold_regex r2)
  | Alt r1 r2 => Alt (fold_regex r1) (fold_regex r2)
  | Star r1 => Star (fold_regex r1)
  end.

Definition fold_frame (f : frame) : frame :=
  mkFrame (map fold_regex (branches f)) (map fold_regex (items f)) (repeated f).

Definition fold_compiled (c : compiled) : compiled :=
  match c with
  | Pattern r => Pattern (fold_regex r)
  | Invalid msg => Invalid msg
  | Unmodelled => Unmodelled
  end.

(** ** Counts on the cards and the charts *)

(** The rows whose type is neither of the two the cards count. *)
Definition other_wms (r : Row) : bool :=
  negb (eq_str (WMS_Type r) "WMS-1") && negb (eq_str (WMS_Type r) "WMS-2").

(** The row has a description ([value_counts] leaves [nan] out). *)
Definition described (r : Row) : bool :=
  match Issue_Description r with
  | Str _ => true
  | NaN => false
  end.

(** The serial numbers grow along the frame. *)
Definition serials_increase (df : DataFrame) : Prop :=
  StronglySorted Z.lt (map Sr_No df).

(** * Properties *)

(** ** Arithmetic and cells *)

Lemma wrap64_id (z : Z) : in_int64 z -> wrap64 z = z.
Proof.
  unfold in_int64, int64_min, int64_max, wrap64. intros H.
  rewrite Z.mod_small; lia.
Qed.

Lemma wrap64_in_int64 (z : Z) : in_int64 (wrap64 z).
Proof.
  unfold in_int64, int64_min, int64_max, wrap64.
  pose proof (Z.mod_pos_bound (z + 2 ^ 63) (2 ^ 64) ltac:(lia)). lia.
Qed.

Lemma series_max_None (xs : list Z) : series_max xs = None <-> xs = [].
Proof.
  destruct xs as [|x rest]; simpl.
  - tauto.
  - destruct (series_max rest); split; intros H; discriminate H.
Qed.

Lemma series_max_Some (xs : list Z) (m : Z) :
  series_max xs = Some m -> In m xs /\ Forall (fun x => x <= m) xs.
Proof.
  revert m. induction xs as [|x rest IH]; simpl; intros m H.
  - discriminate H.
  - destruct (series_max rest) as [m'|] eqn:E.
    + injection H as <-. destruct (IH m' eq_refl) as [Hin Hall]. split.
      * destruct (Z.max_spec x m') as [[_ ->]|[_ ->]]; auto.
      * constructor; [lia|].
        eapply Forall_impl; [|exact Hall]. simpl. intros a Ha. lia.
    + injection H as <-. apply series_max_None in E. subst rest.
      split; [now left|]. constructor; [lia|constructor].
Qed.

Lemma series_max_nonempty (xs : list Z) :
  xs <> [] -> exists m, series_max xs = Some m.
Proof.
  intros H. destruct (series_max xs) as [m|] eqn:E.
  - now exists m.
  - apply series_max_None in E. contradiction.
Qed.

Lemma ne_str_true (c : cell) (s : string) : ne_str c s = true <-> c <> Str s.
Proof.
  destruct c as [t|]; simpl.
  - rewrite negb_true_iff, String.eqb_neq. split; congruence.
  - split; [discriminate | reflexivity].
Qed.

Lemma eq_str_true (c : cell) (s : string) : eq_str c s = true <-> c = Str s.
Proof.
  destruct c as [t|]; simpl.
  - rewrite String.eqb_eq. split; congruence.
  - split; discriminate.
Qed.

Lemma ne_str_eq_str (c : cell) (s : string) : ne_str c s = negb (eq_str c s).
Proof. destruct c; reflexivity. Qed.

Lemma truthy_true (s : string) : truthy s = true <-> s <> EmptyString.
Proof. destruct s; simpl; split; congruence. Qed.

Lemma cell_eqb_eq (a b : cell) : cell_eqb a b = true <-> a = b.
Proof. unfold cell_eqb. destruct (cell_eq_dec a b); split; congruence. Qed.

(** ** Counting labels *)

Section Tally.

Context {K : Type}.
Variable eqb : K -> K -> bool.
Hypothesis eqb_eq : forall a b, eqb a b = true <-> a = b.

Lemma eqb_refl (k : K) : eqb k k = true.
Proof. now apply eqb_eq. Qed.

Lemma eqb_neq (a b : K) : eqb a b = false <-> a <> b.
Proof.
  destruct (eqb a b) eqn:E.
  - apply eqb_eq in E. split; [discriminate | contradiction].
  - split; [|reflexivity]. intros _ H. apply eqb_eq in H. congruence.
Qed.

Lemma sum_counts_bump (k : K) (acc : list (K * nat)) :
  sum_counts (bump eqb k acc) = S (sum_counts acc).
Proof.
  induction acc as [|[k' n] rest IH]; simpl.
  - reflexivity.
  - unfold sum_counts in *. destruct (eqb k k'); simpl; [lia|]. rewrite IH. lia.
Qed.

Lemma sum_counts_fold (xs : list K) (acc : list (K * nat)) :
  sum_counts (fold_left (fun a k => bump eqb k a) xs acc)
  = (List.length xs + sum_counts acc)%nat.
Proof.
  revert acc. induction xs as [|x rest IH]; intros acc; simpl.
  - reflexivity.
  - rewrite IH, sum_counts_bump. lia.
Qed.

Lemma sum_counts_tally (xs : list K) :
  sum_counts (tally eqb xs) = List.length xs.
Proof. unfold tally. rewrite sum_counts_fold. simpl. lia. Qed.

Lemma lookup_bump_same (k : K) (acc : list (K * nat)) :
  lookup_count eqb k (bump eqb k acc) = S (lookup_count eqb k acc).
Proof.
  induction acc as [|[k' n] rest IH]; simpl.
  - now rewrite eqb_refl.
  - destruct (eqb k k') eqn:E; simpl; rewrite E; auto.
Qed.

Lemma lookup_bump_other (k j : K) (acc : list (K * nat)) :
  j <> k -> lookup_count eqb j (bump eqb k acc) = lookup_count eqb j acc.
Proof.
  intros Hne. induction acc as [|[k' n] rest IH]; simpl.
  - apply eqb_neq in Hne. now rewrite Hne.
  - destruct (eqb k k') eqn:E; simpl.
    + apply eqb_eq in E. subst k'. apply eqb_neq in Hne. now rewrite Hne.
    + now rewrite IH.
Qed.

Lemma lookup_fold (j : K) (xs : list K) (acc : list (K * nat)) :
  lookup_count eqb j (fold_left (fun a k => bump eqb k a) xs acc)
  = (occurrences eqb j xs + lookup_count eqb j acc)%nat.
Proof.
  revert acc. induction xs as [|x rest IH]; intros acc; simpl.
  - reflexivity.
  - rewrite IH. destruct (eqb j x) eqn:E.
    + apply eqb_eq in E. subst x. rewrite lookup_bump_same. lia.
    + apply eqb_neq in E. rewrite lookup_bump_other by exact E. lia.
Qed.

Lemma lookup_tally (j : K) (xs : list K) :
  lookup_count eqb j (tally eqb xs) = occurrences eqb j xs.
Proof. unfold tally. rewrite lookup_fold. simpl. lia. Qed.

Lemma keys_bump (k j : K) (acc : list (K * nat)) :
  In j (map fst (bump eqb k acc)) <-> j = k \/ In j (map fst acc).
Proof.
  induction acc as [|[k' n] rest IH]; simpl.
  - intuition congruence.
  - destruct (eqb k k') eqn:E; simpl.
    + apply eqb_eq in E. subst k'. intuition congruence.
    + rewrite IH. tauto.
Qed.

Lemma NoDup_keys_bump (k : K) (acc : list (K * nat)) :
  NoDup (map fst acc) -> NoDup (map fst (bump eqb k acc)).
Proof.
  induction acc as [|[k' n] rest IH]; simpl; intros H.
  - constructor; [intros []|constructor].
  - inversion H as [|? ? Hnotin Hnd]; subst.
    destruct (eqb k k') eqn:E; simpl.
    + constructor; assumption.
    + constructor; [|auto]. rewrite keys_bump. intros [->|Hin].
      * rewrite eqb_refl in E. discriminate.
      * contradiction.
Qed.

Lemma positive_bump (k : K) (acc : list (K * nat)) :
  Forall (fun p => (0 < snd p)%nat) acc ->
  Forall (fun p => (0 < snd p)%nat) (bump eqb k acc).
Proof.
  induction acc as [|[k' n] rest IH]; simpl; intros H.
  - constructor; [simpl; lia|constructor].
  - inversion H; subst. destruct (eqb k k'); constructor; simpl in *; auto; lia.
Qed.

Lemma tally_invariant (xs : list K) (acc : list (K * nat)) :
  NoDup (map fst acc) -> Forall (fun p => (0 < snd p)%nat) acc ->
  let t := fold_left (fun a k => bump eqb k a) xs acc in
  NoDup (map fst t) /\ Forall (fun p => (0 < snd p)%nat) t.
Proof.
  revert acc. induction xs as [|x rest IH]; intros acc Hnd Hpos; simpl.
  - auto.
  - apply IH; [now apply NoDup_keys_bump | now apply positive_bump].
Qed.

Lemma NoDup_keys_tally (xs : list K) : NoDup (map fst (tally eqb xs)).
Proof. apply (tally_invariant xs []); constructor. Qed.

Lemma positive_tally (xs : list K) :
  Forall (fun p => (0 < snd p)%nat) (tally eqb xs).
Proof. apply (tally_invariant xs []); constructor. Qed.

Lemma lookup_count_In (k : K) (n : nat) (t : list (K * nat)) :
  NoDup (map fst t) -> In (k, n) t -> lookup_count eqb k t = n.
Proof.
  induction t as [|[k' n'] rest IH]; simpl; intros Hnd Hin.
  - contradiction.
  - inversion Hnd as [|? ? Hnotin Hnd']; subst. destruct Hin as [Heq|Hin].
    + injection Heq as -> ->. now rewrite eqb_refl.
    + destruct (eqb k k') eqn:E.
      * apply eqb_eq in E. subst k'. exfalso. apply Hnotin.
        change k with (fst (k, n)). now apply in_map.
      * auto.
Qed.

Lemma In_lookup_count (k : K) (t : list (K * nat)) :
  (0 < lookup_count eqb k t)%nat -> In (k, lookup_count eqb k t) t.
Proof.
  induction t as [|[k' n'] rest IH]; simpl; intros H.
  - lia.
  - destruct (eqb k k') eqn:E.
    + apply eqb_eq in E. subst k'. now left.
    + right. auto.
Qed.

(** A tally lists exactly the labels that occur, each with the number of
    its occurrences. *)
Lemma In_tally (k : K) (n : nat) (xs : list K) :
  In (k, n) (tally eqb xs) <-> n = occurrences eqb k xs /\ (0 < n)%nat.
Proof.
  split.
  - intros Hin. split.
    + rewrite <- lookup_tally. symmetry.
      apply lookup_count_In; [apply NoDup_keys_tally | exact Hin].
    + pose proof (positive_tally xs) as Hpos. rewrite Forall_forall in Hpos.
      apply (Hpos (k, n) Hin).
  - intros [-> Hpos]. rewrite <- lookup_tally in *. now apply In_lookup_count.
Qed.

End Tally.

(** ** Rows that survive a filter *)

Lemma filter_subsequence {A : Type} (p : A -> bool) (l : list A) :
  subsequence (filter p l) l.
Proof.
  induction l as [|x l IH]; simpl.
  - constructor.
  - destruct (p x); now constructor.
Qed.

Lemma filter_all {A : Type} (p : A -> bool) (l : list A) :
  (forall x, In x l -> p x = true) -> filter p l = l.
Proof.
  induction l as [|x l IH]; simpl; intros H.
  - reflexivity.
  - rewrite (H x) by now left. f_equal. apply IH. intros y Hy. apply H. now right.
Qed.

Lemma count_occ_filter_true {A : Type} (dec : forall a b : A, {a = b} + {a <> b})
    (p : A -> bool) (l : list A) (x : A) :
  p x = true -> count_occ dec (filter p l) x = count_occ dec l x.
Proof.
  intros Hp. induction l as [|y l IH]; simpl.
  - reflexivity.
  - destruct (dec y x) as [->|Hne].
    + rewrite Hp. simpl. destruct (dec x x); congruence.
    + destruct (p y); simpl; [destruct (dec y x); congruence | exact IH].
Qed.

Lemma count_where_app (p : Row -> bool) (a b : DataFrame) :
  count_where p (a ++ b) = (count_where p a + count_where p b)%nat.
Proof. unfold count_where. now rewrite filter_app, length_app. Qed.

Lemma filter_filter {A : Type} (p q : A -> bool) (l : list A) :
  filter p (filter q l) = filter (fun x => q x && p x) l.
Proof.
  induction l as [|x l IH]; simpl.
  - reflexivity.
  - destruct (q x); simpl; [destruct (p x)|]; now rewrite IH.
Qed.

Lemma has_issueb_true (r : Row) : has_issueb r = true <-> has_issue r.
Proof.
  unfold has_issueb, has_issue.
  destruct (cell_eq_dec (Issue_Sensors r) (Str "None")); split; congruence.
Qed.

Lemma ne_str_has_issueb (r : Row) : ne_str (Issue_Sensors r) "None" = has_issueb r.
Proof.
  destruct (has_issueb r) eqn:E.
  - apply ne_str_true. now apply has_issueb_true.
  - destruct (ne_str (Issue_Sensors r) "None") eqn:E'; [|reflexivity].
    apply ne_str_true in E'. apply has_issueb_true in E'. congruence.
Qed.

Lemma issue_df_filter (df : DataFrame) : issue_df df = filter has_issueb df.
Proof.
  unfold issue_df. apply filter_ext. intros r. apply ne_str_has_issueb.
Qed.

Lemma issue_df_app (a b : DataFrame) : issue_df (a ++ b) = issue_df a ++ issue_df b.
Proof. unfold issue_df. apply filter_app. Qed.

Lemma issue_df_cons_none (r : Row) (df : DataFrame) :
  Issue_Sensors r = Str "None" -> issue_df (r :: df) = issue_df df.
Proof. unfold issue_df. simpl. intros ->. reflexivity. Qed.

Lemma issue_df_cons_issue (r : Row) (df : DataFrame) :
  has_issue r -> issue_df (r :: df) = r :: issue_df df.
Proof.
  unfold issue_df. simpl. intros H. apply ne_str_true in H. now rewrite H.
Qed.

Lemma occurrences_dropna (d : string) (rows : DataFrame) :
  occurrences String.eqb d (dropna (map Issue_Description rows))
  = List.length (filter (fun r => eq_str (Issue_Description r) d) rows).
Proof.
  induction rows as [|r rows IH]; simpl.
  - reflexivity.
  - destruct (Issue_Description r) as [t|]; simpl.
    + rewrite IH. rewrite String.eqb_sym. destruct (String.eqb t d); reflexivity.
    + exact IH.
Qed.

Lemma description_counts_In (df : DataFrame) (d : string) (n : nat) :
  In (d, n) (description_counts df) <-> n = description_count df d /\ (0 < n)%nat.
Proof.
  unfold description_counts, description_count.
  rewrite (In_tally String.eqb String.eqb_eq). now rewrite occurrences_dropna.
Qed.

(** ** Adding a record *)

(** C4: submitting the form with an empty site name shows the validation
    message, leaves [df] as it was and writes nothing to the backing file. *)
Theorem add_record_empty_site_rejected (today : date) (df : DataFrame) (f : Form) :
  submitted f = true -> new_site f = EmptyString ->
  exists log,
    add_record_form today df f = Completed df log
    /\ log = [StError "Site Name is required."]
    /\ writes log = 0%nat.
Proof.
  intros Hsub Hsite. exists [StError "Site Name is required."].
  unfold add_record_form. rewrite Hsub, Hsite. simpl. auto.
Qed.

Lemma add_record_empty_site_rejected_witness :
  exists log,
    add_record_form (mkDate 2026 11 3) seed (mkForm "" "Failed" "WMS-2" "Temp Sensor" "" true)
    = Completed seed log
    /\ log = [StError "Site Name is required."] /\ writes log = 0%nat.
Proof.
  apply (add_record_empty_site_rejected (mkDate 2026 11 3) seed
           (mkForm "" "Failed" "WMS-2" "Temp Sensor" "" true)); reflexivity.
Defined.

(** C2: on the empty frame the script does not assign serial number 1: the
    maximum of the empty [Sr_No] column is [nan], and [int(nan + 1)]
    raises. *)
Theorem add_record_on_empty_frame_raises (today : date) (f : Form) :
  submitted f = true -> new_site f <> EmptyString ->
  add_record_form today [] f
  = Raised (ValueError "cannot convert float NaN to integer").
Proof.
  intros Hsub Hsite. apply truthy_true in Hsite.
  unfold add_record_form. now rewrite Hsub, Hsite.
Qed.

Lemma add_record_on_empty_frame_raises_witness :
  add_record_form (mkDate 2026 11 3) []
    (mkForm "Site-F" "Pending" "WMS-1" "Temp Sensor" "Drift" true)
  = Raised (ValueError "cannot convert float NaN to integer").
Proof.
  apply (add_record_on_empty_frame_raises (mkDate 2026 11 3)
           (mkForm "Site-F" "Pending" "WMS-1" "Temp Sensor" "Drift" true)).
  - reflexivity.
  - discriminate.
Defined.

(** C3: the form of the scenario (site ["Site-F"], no sensor, no
    description) submitted on the empty frame: no record with the defaults
    is appended, the block raises. *)
Theorem add_site_F_on_empty_frame :
  add_record_form (mkDate 2026 11 3) [] (mkForm "Site-F" "Pending" "WMS-1" "" "" true)
  = Raised (ValueError "cannot convert float NaN to integer")
  /\ new_data (mkDate 2026 11 3) 5 (mkForm "Site-F" "Pending" "WMS-1" "" "" true)
     = mkRow 6 (Str "Site-F") (Str "Pending") (Str "None") (Str "WMS-1")
         (Str "No Issues") (Str "2026-11-03").
Proof. split; reflexivity. Qed.

(** On a frame with at least one row the block appends one record whose
    serial number is the maximum plus one (wrapped to [int64]). *)
Lemma add_record_form_nonempty (today : date) (df : DataFrame) (f : Form) :
  submitted f = true -> new_site f <> EmptyString -> df <> [] ->
  exists m,
    series_max (map Sr_No df) = Some m
    /\ add_record_form today df f
       = Completed (df ++ [new_data today m f])
           [SaveData (df ++ [new_data today m f]);
            StSuccess (String.append "Record for "
                         (String.append (new_site f) " saved successfully!"));
            StRerun].
Proof.
  intros Hsub Hsite Hne. apply truthy_true in Hsite.
  destruct (series_max_nonempty (map Sr_No df)) as [m Hm].
  - destruct df; [contradiction | discriminate].
  - exists m. split; [exact Hm|]. unfold add_record_form. now rewrite Hsub, Hsite, Hm.
Qed.

Lemma series_max_in_int64 (df : DataFrame) (m : Z) :
  int64_frame df -> series_max (map Sr_No df) = Some m -> in_int64 m.
Proof.
  intros Hdf Hm. apply series_max_Some in Hm. destruct Hm as [Hin _].
  apply in_map_iff in Hin. destruct Hin as [r [<- Hr]].
  unfold int64_frame in Hdf. rewrite Forall_forall in Hdf. now apply Hdf.
Qed.

(** ** Deleting a site *)

Lemma delete_site_In (df : DataFrame) (name : string) (r : Row) :
  In r (delete_site df (Str name)) <-> In r df /\ Site_Name r <> Str name.
Proof. unfold delete_site. simpl. rewrite filter_In, ne_str_true. tauto. Qed.

(** C5: deleting by name keeps exactly the rows with another site name,
    every copy of each, in their order; when no row has the name the frame
    is unchanged. *)
Theorem delete_site_exact (df : DataFrame) (name : string) :
  (forall r, In r (delete_site df (Str name)) <-> In r df /\ Site_Name r <> Str name)
  /\ (forall r, Site_Name r <> Str name ->
        count_occ Row_eq_dec (delete_site df (Str name)) r = count_occ Row_eq_dec df r)
  /\ subsequence (delete_site df (Str name)) df
  /\ ((forall r, In r df -> Site_Name r <> Str name) -> delete_site df (Str name) = df).
Proof.
  split; [|split; [|split]]; [intros r; apply delete_site_In| | |];
    unfold delete_site; simpl.
  - intros r Hne.
    apply (count_occ_filter_true Row_eq_dec (fun r0 => ne_str (Site_Name r0) name)).
    now apply ne_str_true.
  - apply filter_subsequence.
  - intros H. apply filter_all. intros r Hr. apply ne_str_true. now apply H.
Qed.

(** Deleting distributes over concatenation, so the relative order of the
    surviving rows is that of the frame. *)
Lemma delete_site_app (a b : DataFrame) (v : cell) :
  delete_site (a ++ b) v = delete_site a v ++ delete_site b v.
Proof. unfold delete_site. apply filter_app. Qed.

(** Selecting [nan] (a missing site name) deletes nothing. *)
Lemma delete_site_nan (df : DataFrame) : delete_site df NaN = df.
Proof. unfold delete_site. apply filter_all. reflexivity. Qed.

Lemma delete_selected_site_saves (df : DataFrame) (v : cell) :
  exists log,
    delete_selected_site df v true = Completed (delete_site df v) log
    /\ writes log = 1%nat /\ In (SaveData (delete_site df v)) log.
Proof. eexists. split; [reflexivity|]. split; [reflexivity | now left]. Qed.

(** ** Aggregations over the issue subset *)

(** C6: the counts of the sensor distribution add up to the number of rows
    whose sensor is not ["None"]. *)
Theorem issue_sensor_distribution_total (df : DataFrame) :
  sum_counts (issue_sensor_distribution df) = count_where has_issueb df.
Proof.
  unfold issue_sensor_distribution, count_where.
  rewrite sum_counts_tally, length_map. now rewrite issue_df_filter.
Qed.

Lemma crosstab_count (df : DataFrame) (w v : string) :
  wms_failure_crosstab df w v
  = count_where (fun r => has_issueb r && (eq_str (WMS_Type r) w
                                            && eq_str (Validation_Report r) v)) df.
Proof.
  unfold wms_failure_crosstab, count_where.
  now rewrite issue_df_filter, filter_filter.
Qed.

Lemma description_count_where (df : DataFrame) (d : string) :
  description_count df d
  = count_where (fun r => has_issueb r && eq_str (Issue_Description r) d) df.
Proof.
  unfold description_count, count_where.
  now rewrite issue_df_filter, filter_filter.
Qed.

Lemma top_issues_In (df : DataFrame) (out : list (string * nat)) (d : string) (n : nat) :
  top_issues df out ->
  (In (d, n) out <-> n = description_count df d /\ (0 < n)%nat).
Proof.
  intros [Hperm _]. rewrite <- description_counts_In. split; intros H.
  - eapply Permutation_in; [apply Permutation_sym; exact Hperm | exact H].
  - eapply Permutation_in; [exact Hperm | exact H].
Qed.

(** C7: the bars of the failure chart and the tallies of the top-issue chart
    count the rows whose sensor is not ["None"], whatever their validation
    status: a row with sensor ["None"] changes neither (also when it is
    ["Failed"]), and a row with another sensor adds one to its bar and to its
    description (also when it is ["Validated"] or ["Pending"]). *)
Theorem issue_charts_filter_on_sensor (df1 df2 : DataFrame) (r : Row) :
  (forall w v,
      wms_failure_crosstab (df1 ++ df2) w v
      = count_where (fun x => has_issueb x && (eq_str (WMS_Type x) w
                                                && eq_str (Validation_Report x) v))
          (df1 ++ df2))
  /\ (forall out d n, top_issues (df1 ++ df2) out ->
        (In (d, n) out
         <-> n = count_where (fun x => has_issueb x && eq_str (Issue_Description x) d)
                   (df1 ++ df2) /\ (0 < n)%nat))
  /\ (Issue_Sensors r = Str "None" ->
        (forall w v, wms_failure_crosstab (df1 ++ r :: df2) w v
                     = wms_failure_crosstab (df1 ++ df2) w v)
        /\ description_counts (df1 ++ r :: df2) = description_counts (df1 ++ df2))
  /\ (has_issue r ->
        (forall w v, WMS_Type r = Str w -> Validation_Report r = Str v ->
                     wms_failure_crosstab (df1 ++ r :: df2) w v
                     = S (wms_failure_crosstab (df1 ++ df2) w v))
        /\ (forall d, Issue_Description r = Str d ->
                      description_count (df1 ++ r :: df2) d
                      = S (description_count (df1 ++ df2) d))).
Proof.
  split; [intros w v; apply crosstab_count|].
  split.
  { intros out d n Hout. rewrite <- description_count_where.
    now apply top_issues_In. }
  split.
  - intros Hnone. split.
    + intros w v. unfold wms_failure_crosstab.
      now rewrite !issue_df_app, (issue_df_cons_none r df2 Hnone).
    + unfold description_counts.
      now rewrite !issue_df_app, (issue_df_cons_none r df2 Hnone).
  - intros Hissue. split.
    + intros w v Hw Hv. unfold wms_failure_crosstab.
      rewrite !issue_df_app, (issue_df_cons_issue r df2 Hissue).
      rewrite !filter_app, !length_app. simpl.
      rewrite Hw, Hv. simpl. rewrite !String.eqb_refl. simpl. lia.
    + intros d Hd. unfold description_count.
      rewrite !issue_df_app, (issue_df_cons_issue r df2 Hissue).
      rewrite !filter_app, !length_app. simpl.
      rewrite Hd. simpl. rewrite String.eqb_refl. simpl. lia.
Qed.

(** The seed frame: rows 2 and 5 have sensor ["None"] (row 2 is ["Failed"])
    and are left out of both charts; rows 1 and 3 are ["Validated"] and are
    counted. *)
Example seed_crosstab :
  wms_failure_crosstab seed "WMS-1" "Validated" = 2%nat
  /\ wms_failure_crosstab seed "WMS-2" "Failed" = 1%nat
  /\ sites_with_issue seed = 2%nat
  /\ description_counts seed
     = [("Calibration Drift", 1%nat); ("Connector Fault", 1%nat); ("Power Failure", 1%nat)].
Proof. repeat split. Qed.

(** ** The date stamp *)

Lemma zfill4_digits (n : nat) :
  Z.of_nat n <= 9999 -> four_digits (zfill 4 (str_of_nat n)) = true.
Proof.
  intros Hn.
  assert (Hall : forallb (fun k => four_digits (zfill 4 (str_of_nat k)))
                   (seq 0 (Z.to_nat 10000)) = true) by (vm_compute; reflexivity).
  rewrite forallb_forall in Hall. apply Hall. apply in_seq. lia.
Qed.

Lemma zfill2_digits (n : nat) :
  Z.of_nat n <= 99 -> two_digits (zfill 2 (str_of_nat n)) = true.
Proof.
  intros Hn.
  assert (Hall : forallb (fun k => two_digits (zfill 2 (str_of_nat k)))
                   (seq 0 100) = true) by (vm_compute; reflexivity).
  rewrite forallb_forall in Hall. apply Hall. apply in_seq. lia.
Qed.

Lemma string_of_list_ascii_inv (s : string) (l : list ascii) :
  list_ascii_of_string s = l -> s = string_of_list_ascii l.
Proof. intros <-. now rewrite string_of_list_ascii_of_string. Qed.

(** [strftime('%Y-%m-%d')] of a calendar date has the shape [YYYY-MM-DD]. *)
Lemma strftime_ymd_shape (d : date) : valid_date d -> ymd_shape (strftime_ymd d) = true.
Proof.
  intros [Hy [Hm Hd]]. unfold strftime_ymd.
  pose proof (zfill4_digits (year d) ltac:(lia)) as Y.
  pose proof (zfill2_digits (month d) ltac:(lia)) as M.
  pose proof (zfill2_digits (day d) ltac:(lia)) as D.
  unfold four_digits in Y. unfold two_digits in M, D.
  destruct (list_ascii_of_string (zfill 4 (str_of_nat (year d))))
    as [|y1 [|y2 [|y3 [|y4 [|? ?]]]]] eqn:EY; try discriminate Y.
  destruct (list_ascii_of_string (zfill 2 (str_of_nat (month d))))
    as [|m1 [|m2 [|? ?]]] eqn:EM; try discriminate M.
  destruct (list_ascii_of_string (zfill 2 (str_of_nat (day d))))
    as [|d1 [|d2 [|? ?]]] eqn:ED; try discriminate D.
  apply string_of_list_ascii_inv in EY, EM, ED. rewrite EY, EM, ED.
  unfold ymd_shape. cbn -[is_digit] in *.
  repeat (apply andb_prop in Y; destruct Y as [?Hy Y]).
  repeat (apply andb_prop in M; destruct M as [?Hm M]).
  repeat (apply andb_prop in D; destruct D as [?Hd D]).
  repeat match goal with H : is_digit _ = true |- _ => rewrite H; clear H end.
  reflexivity.
Qed.

(** ** Serial numbers *)

(** X2: the record appended to a frame with at least one row: its fields come
    from the form with the two defaults, its date is the day's stamp, the
    rows before it are the old frame, and the new frame is saved once. *)
Theorem add_record_appends_with_defaults (today : date) (df : DataFrame) (f : Form) :
  submitted f = true -> new_site f <> EmptyString -> df <> [] -> valid_date today ->
  exists r log,
    add_record_form today df f = Completed (df ++ [r]) log
    /\ In (SaveData (df ++ [r])) log /\ writes log = 1%nat
    /\ Site_Name r = Str (new_site f)
    /\ Validation_Report r = Str (new_val f)
    /\ WMS_Type r = Str (new_wms f)
    /\ Issue_Sensors r
       = Str (if String.eqb (new_sensor f) "" then "None" else new_sensor f)
    /\ Issue_Description r
       = Str (if String.eqb (new_issue_desc f) "" then "No Issues" else new_issue_desc f)
    /\ Date_Logged r = Str (strftime_ymd today)
    /\ ymd_shape (strftime_ymd today) = true.
Proof.
  intros Hsub Hsite Hne Hdate.
  destruct (add_record_form_nonempty today df f Hsub Hsite Hne) as [m [Hm Hrun]].
  exists (new_data today m f). eexists. split; [exact Hrun|].
  split; [now left|]. split; [reflexivity|]. simpl.
  repeat split.
  - unfold or_default. destruct (new_sensor f); reflexivity.
  - unfold or_default. destruct (new_issue_desc f); reflexivity.
  - now apply strftime_ymd_shape.
Qed.

Lemma next_serial (today : date) (df : DataFrame) (f : Form) (m : Z) :
  submitted f = true -> new_site f <> EmptyString ->
  int64_frame df -> series_max (map Sr_No df) = Some m -> m < int64_max ->
  exists r log,
    add_record_form today df f = Completed (df ++ [r]) log
    /\ Sr_No r = m + 1
    /\ Forall (fun x => Sr_No x < Sr_No r) df.
Proof.
  intros Hsub Hsite Hdf Hm Hlt. apply truthy_true in Hsite.
  exists (new_data today m f). eexists.
  unfold add_record_form. rewrite Hsub, Hsite, Hm. split; [reflexivity|].
  pose proof (series_max_in_int64 df m Hdf Hm) as Hin.
  assert (Hs : Sr_No (new_data today m f) = m + 1).
  { simpl. apply wrap64_id. unfold in_int64, int64_min, int64_max in *. lia. }
  split; [exact Hs|]. rewrite Hs.
  apply series_max_Some in Hm. destruct Hm as [_ Hall].
  rewrite Forall_forall in *. intros x Hx.
  specialize (Hall (Sr_No x) (in_map Sr_No df x Hx)). simpl in Hall. lia.
Qed.

(** X1: the serial number of the appended record is the largest serial of
    the frame plus one, as long as that still is an [int64]. *)
Theorem add_record_next_serial (today : date) (df : DataFrame) (f : Form) (m : Z) :
  submitted f = true -> new_site f <> EmptyString ->
  int64_frame df -> series_max (map Sr_No df) = Some m -> m < int64_max ->
  exists r log,
    add_record_form today df f = Completed (df ++ [r]) log
    /\ Sr_No r = m + 1
    /\ Forall (fun x => Sr_No x < Sr_No r) df.
Proof. apply next_serial. Qed.

Lemma int64_frame_seed : int64_frame seed.
Proof. repeat constructor; vm_compute; intuition discriminate. Qed.

Lemma add_record_next_serial_witness :
  exists r log,
    add_record_form (mkDate 2026 11 3) seed (mkForm "Site-F" "Pending" "WMS-1" "" "" true)
    = Completed (seed ++ [r]) log
    /\ Sr_No r = 5 + 1
    /\ Forall (fun x => Sr_No x < Sr_No r) seed.
Proof.
  apply (add_record_next_serial (mkDate 2026 11 3) seed
           (mkForm "Site-F" "Pending" "WMS-1" "" "" true) 5).
  - reflexivity.
  - discriminate.
  - exact int64_frame_seed.
  - reflexivity.
  - reflexivity.
Defined.

Lemma add_record_appends_with_defaults_witness :
  exists r log,
    add_record_form (mkDate 2026 11 3) seed (mkForm "Site-F" "Pending" "WMS-1" "" "" true)
    = Completed (seed ++ [r]) log
    /\ In (SaveData (seed ++ [r])) log /\ writes log = 1%nat
    /\ Site_Name r = Str "Site-F"
    /\ Validation_Report r = Str "Pending"
    /\ WMS_Type r = Str "WMS-1"
    /\ Issue_Sensors r = Str "None"
    /\ Issue_Description r = Str "No Issues"
    /\ Date_Logged r = Str (strftime_ymd (mkDate 2026 11 3))
    /\ ymd_shape (strftime_ymd (mkDate 2026 11 3)) = true.
Proof.
  apply (add_record_appends_with_defaults (mkDate 2026 11 3) seed
           (mkForm "Site-F" "Pending" "WMS-1" "" "" true)).
  - reflexivity.
  - discriminate.
  - discriminate.
  - unfold valid_date. simpl. lia.
Defined.

(** At the top of the [int64] range the sum wraps around. *)
Example add_record_serial_wraps :
  forall today f, submitted f = true -> new_site f <> EmptyString ->
  exists r log,
    add_record_form today [seed_row int64_max "S" "Failed" "None" "WMS-1" "No Issues" "2023-01-15"] f
    = Completed ([seed_row int64_max "S" "Failed" "None" "WMS-1" "No Issues" "2023-01-15"] ++ [r]) log
    /\ Sr_No r = int64_min.
Proof.
  intros today f Hsub Hsite. apply truthy_true in Hsite.
  eexists. eexists. unfold add_record_form. rewrite Hsub, Hsite. simpl.
  split; reflexivity.
Qed.

Lemma NoDup_snoc {A : Type} (l : list A) (x : A) :
  NoDup l -> ~ In x l -> NoDup (l ++ [x]).
Proof.
  induction l as [|y l IH]; simpl; intros Hnd Hx.
  - constructor; [intros []|constructor].
  - inversion Hnd; subst. constructor.
    + rewrite in_app_iff. simpl. intuition congruence.
    + apply IH; [assumption | tauto].
Qed.

Lemma int64_frame_filter (p : Row -> bool) (df : DataFrame) :
  int64_frame df -> int64_frame (filter p df).
Proof.
  unfold int64_frame. rewrite !Forall_forall. intros H r Hr.
  apply filter_In in Hr. now apply H.
Qed.

(** X4: serial numbers are handed out again: when every row that holds the
    largest serial number is deleted and a row survives, the next record
    gets the largest surviving serial plus one.  That number is at most the
    old maximum (it is the old maximum, the serial of a deleted row, when
    the largest survivor is one below it), it is larger than every surviving
    serial, and serials that were pairwise different stay so. *)
Theorem serial_reuse_after_delete (today : date) (df : DataFrame) (name : string)
    (f : Form) (m : Z) :
  int64_frame df ->
  series_max (map Sr_No df) = Some m ->
  (forall r, In r df -> Sr_No r = m -> Site_Name r = Str name) ->
  delete_site df (Str name) <> [] ->
  submitted f = true -> new_site f <> EmptyString ->
  exists m' r log,
    series_max (map Sr_No (delete_site df (Str name))) = Some m'
    /\ add_record_form today (delete_site df (Str name)) f
       = Completed (delete_site df (Str name) ++ [r]) log
    /\ Sr_No r = m' + 1
    /\ Sr_No r <= m
    /\ (m' + 1 = m ->
        exists gone, In gone df /\ ~ In gone (delete_site df (Str name))
                     /\ Sr_No gone = Sr_No r)
    /\ Forall (fun s => Sr_No s < Sr_No r) (delete_site df (Str name))
    /\ (NoDup (map Sr_No (delete_site df (Str name))) ->
        NoDup (map Sr_No (delete_site df (Str name) ++ [r]))).
Proof.
  intros Hdf Hm Hmax Hsurv Hsub Hsite.
  set (surv := delete_site df (Str name)) in *.
  assert (Hsdf : int64_frame surv) by (apply int64_frame_filter; exact Hdf).
  destruct (series_max_nonempty (map Sr_No surv)) as [m' Hm'].
  { destruct surv; [contradiction | discriminate]. }
  pose proof (series_max_in_int64 df m Hdf Hm) as Hmin.
  pose proof (series_max_Some _ _ Hm) as [Hm_in Hm_all].
  pose proof (series_max_Some _ _ Hm') as [Hm'_in Hm'_all].
  assert (Hlt : m' < m).
  { apply in_map_iff in Hm'_in. destruct Hm'_in as [s [Hs Hs_in]].
    apply delete_site_In in Hs_in. destruct Hs_in as [Hs_df Hs_name].
    rewrite Forall_forall in Hm_all.
    specialize (Hm_all (Sr_No s) (in_map Sr_No df s Hs_df)). simpl in Hm_all.
    destruct (Z.eq_dec (Sr_No s) m) as [Heq|Hneq].
    - exfalso. apply Hs_name. now apply Hmax.
    - lia. }
  assert (Hm'lt : m' < int64_max) by (unfold in_int64 in Hmin; lia).
  destruct (next_serial today surv f m' Hsub Hsite Hsdf Hm' Hm'lt)
    as [r [log [Hrun [Hser Hall]]]].
  exists m', r, log. split; [exact Hm'|]. split; [exact Hrun|].
  split; [exact Hser|]. split; [lia|]. split; [|split].
  - intros Heq. apply in_map_iff in Hm_in. destruct Hm_in as [gone [Hg Hg_in]].
    exists gone. split; [exact Hg_in|]. split; [|lia].
    intros Hin. apply delete_site_In in Hin.
    destruct Hin as [_ Hname]. apply Hname. now apply Hmax.
  - exact Hall.
  - intros Hnd. rewrite map_app. simpl. apply NoDup_snoc; [exact Hnd|].
    intros Hin. apply in_map_iff in Hin. destruct Hin as [s [Hs Hs_in]].
    rewrite Forall_forall in Hall. specialize (Hall s Hs_in). lia.
Qed.

(** The seed frame: deleting ["Site-E (North)"] (serial 5, the maximum) and
    adding a site gives the new record serial 5 again. *)
Lemma serial_reuse_after_delete_witness :
  exists m' r log,
    series_max (map Sr_No (delete_site seed (Str "Site-E (North)"))) = Some m'
    /\ add_record_form (mkDate 2026 11 3) (delete_site seed (Str "Site-E (North)"))
         (mkForm "Site-F" "Pending" "WMS-1" "" "" true)
       = Completed (delete_site seed (Str "Site-E (North)") ++ [r]) log
    /\ Sr_No r = m' + 1
    /\ Sr_No r <= 5
    /\ (m' + 1 = 5 ->
        exists gone, In gone seed /\ ~ In gone (delete_site seed (Str "Site-E (North)"))
                     /\ Sr_No gone = Sr_No r)
    /\ Forall (fun s => Sr_No s < Sr_No r) (delete_site seed (Str "Site-E (North)"))
    /\ (NoDup (map Sr_No (delete_site seed (Str "Site-E (North)"))) ->
        NoDup (map Sr_No (delete_site seed (Str "Site-E (North)") ++ [r]))).
Proof.
  apply (serial_reuse_after_delete (mkDate 2026 11 3) seed "Site-E (North)"
           (mkForm "Site-F" "Pending" "WMS-1" "" "" true) 5).
  - exact int64_frame_seed.
  - reflexivity.
  - intros r Hin Hser. simpl in Hin.
    repeat (destruct Hin as [<-|Hin]; [try reflexivity; simpl in Hser; discriminate Hser|]).
    contradiction.
  - discriminate.
  - reflexivity.
  - discriminate.
Defined.

(** C10: deleting the only row of a frame deletes every row that holds the
    largest serial number; no row survives, and the next insert assigns no
    serial number at all: it raises, as on every empty frame. *)
Theorem insert_after_deleting_only_row :
  delete_site [seed_row 1 "Site-A (North)" "Validated" "Temp Sensor" "WMS-1"
                 "Calibration Drift" "2023-01-15"] (Str "Site-A (North)") = []
  /\ add_record_form (mkDate 2026 11 3)
       (delete_site [seed_row 1 "Site-A (North)" "Validated" "Temp Sensor" "WMS-1"
                       "Calibration Drift" "2023-01-15"] (Str "Site-A (North)"))
       (mkForm "Site-F" "Pending" "WMS-1" "" "" true)
     = Raised (ValueError "cannot convert float NaN to integer").
Proof. split; reflexivity. Qed.

(** The scenario on the seed rows: two sites failed; adding ["Site-F"]
    without sensor and description gives record 6 with the two defaults and
    the day's date; deleting ["Site-F"] gives the seed rows back. *)
Example scenario_add_then_delete :
  sites_with_issue seed = 2%nat
  /\ add_record_form (mkDate 2026 11 3) seed (mkForm "Site-F" "Pending" "WMS-1" "" "" true)
     = Completed
         (seed ++ [mkRow 6 (Str "Site-F") (Str "Pending") (Str "None") (Str "WMS-1")
                     (Str "No Issues") (Str "2026-11-03")])
         [SaveData
            (seed ++ [mkRow 6 (Str "Site-F") (Str "Pending") (Str "None") (Str "WMS-1")
                        (Str "No Issues") (Str "2026-11-03")]);
          StSuccess "Record for Site-F saved successfully!"; StRerun]
  /\ total_sites
       (seed ++ [mkRow 6 (Str "Site-F") (Str "Pending") (Str "None") (Str "WMS-1")
                   (Str "No Issues") (Str "2026-11-03")]) = 6%nat
  /\ delete_site
       (seed ++ [mkRow 6 (Str "Site-F") (Str "Pending") (Str "None") (Str "WMS-1")
                   (Str "No Issues") (Str "2026-11-03")]) (Str "Site-F") = seed.
Proof. repeat split. Qed.

Example seed_serial_reused :
  add_record_form (mkDate 2026 11 3) (delete_site seed (Str "Site-E (North)"))
    (mkForm "Site-F" "Pending" "WMS-1" "" "" true)
  = Completed
      (delete_site seed (Str "Site-E (North)")
       ++ [mkRow 5 (Str "Site-F") (Str "Pending") (Str "None") (Str "WMS-1")
             (Str "No Issues") (Str "2026-11-03")])
      [SaveData
         (delete_site seed (Str "Site-E (North)")
          ++ [mkRow 5 (Str "Site-F") (Str "Pending") (Str "None") (Str "WMS-1")
                (Str "No Issues") (Str "2026-11-03")]);
       StSuccess "Record for Site-F saved successfully!"; StRerun].
Proof. reflexivity. Qed.

(** ** Ranking the descriptions *)

Lemma insert_desc_perm (p : string * nat) (l : list (string * nat)) :
  Permutation (p :: l) (insert_desc p l).
Proof.
  induction l as [|q rest IH]; simpl.
  - apply Permutation_refl.
  - destruct (snd q <=? snd p)%nat.
    + apply Permutation_refl.
    + eapply Permutation_trans; [apply perm_swap|]. now apply perm_skip.
Qed.

Lemma stable_sort_desc_perm (l : list (string * nat)) :
  Permutation l (stable_sort_desc l).
Proof.
  induction l as [|p l IH]; simpl.
  - constructor.
  - eapply Permutation_trans; [|apply insert_desc_perm]. now apply perm_skip.
Qed.

Lemma insert_desc_sorted (p : string * nat) (l : list (string * nat)) :
  StronglySorted count_ge l -> StronglySorted count_ge (insert_desc p l).
Proof.
  induction l as [|q rest IH]; simpl; intros Hs.
  - constructor; constructor.
  - inversion Hs as [|? ? Hrest Hall]; subst.
    destruct (snd q <=? snd p)%nat eqn:E.
    + apply Nat.leb_le in E. constructor; [exact Hs|].
      constructor; [exact E|].
      eapply Forall_impl; [|exact Hall]. unfold count_ge. simpl. intros a Ha. lia.
    + apply Nat.leb_gt in E. constructor; [now apply IH|].
      eapply Permutation_Forall; [apply insert_desc_perm|].
      constructor; [unfold count_ge; lia | exact Hall].
Qed.

Lemma stable_sort_desc_sorted (l : list (string * nat)) :
  StronglySorted count_ge (stable_sort_desc l).
Proof.
  induction l as [|p l IH]; simpl.
  - constructor.
  - now apply insert_desc_sorted.
Qed.

(** Stability: the entries of any one count keep the order they had. *)
Lemma insert_desc_same_count (c : nat) (p : string * nat) (l : list (string * nat)) :
  filter (fun q => (snd q =? c)%nat) (insert_desc p l)
  = filter (fun q => (snd q =? c)%nat) (p :: l).
Proof.
  induction l as [|q rest IH]; simpl.
  - reflexivity.
  - destruct (snd q <=? snd p)%nat eqn:E; simpl.
    + reflexivity.
    + apply Nat.leb_gt in E. rewrite IH. simpl.
      destruct (snd p =? c)%nat eqn:Ep; [|reflexivity].
      apply Nat.eqb_eq in Ep.
      assert (Hq : (snd q =? c)%nat = false) by (apply Nat.eqb_neq; lia).
      now rewrite Hq.
Qed.

Lemma stable_sort_desc_stable (c : nat) (l : list (string * nat)) :
  filter (fun q => (snd q =? c)%nat) (stable_sort_desc l)
  = filter (fun q => (snd q =? c)%nat) l.
Proof.
  induction l as [|p l IH]; simpl.
  - reflexivity.
  - rewrite insert_desc_same_count. simpl. now rewrite IH.
Qed.

(** Two descending arrangements of the same entries are equal when no two
    entries have the same count. *)
Lemma descending_unique (l1 l2 : list (string * nat)) :
  StronglySorted count_ge l1 -> StronglySorted count_ge l2 ->
  Permutation l1 l2 ->
  (forall a b, In a l1 -> In b l1 -> snd a = snd b -> a = b) ->
  l1 = l2.
Proof.
  revert l2. induction l1 as [|a l1 IH]; intros l2 H1 H2 Hp Hinj.
  - apply Permutation_nil in Hp. now subst.
  - destruct l2 as [|b l2].
    + apply Permutation_sym, Permutation_nil in Hp. discriminate.
    + inversion H1 as [|? ? H1' Ha]; subst. inversion H2 as [|? ? H2' Hb]; subst.
      assert (Hab : a = b).
      { assert (Hb_in : In b (a :: l1)).
        { eapply Permutation_in; [apply Permutation_sym; exact Hp | now left]. }
        assert (Ha_in : In a (b :: l2)).
        { eapply Permutation_in; [exact Hp | now left]. }
        destruct Hb_in as [Heq|Hb_in]; [exact Heq|].
        destruct Ha_in as [Heq|Ha_in]; [now symmetry|].
        rewrite Forall_forall in Ha, Hb.
        specialize (Ha b Hb_in). specialize (Hb a Ha_in). unfold count_ge in *.
        apply Hinj; [now left | now right | lia]. }
      subst b. f_equal. apply IH; auto.
      * eapply Permutation_cons_inv; exact Hp.
      * intros x y Hx Hy. apply Hinj; now right.
Qed.

(** ** Patterns and their matches *)

Lemma append_nil_r (s : string) : (s ++ "")%string = s.
Proof. induction s; simpl; congruence. Qed.

Lemma append_assoc (a b c : string) : ((a ++ b) ++ c)%string = (a ++ (b ++ c))%string.
Proof. induction a; simpl; congruence. Qed.

Lemma append_eq_nil (a b : string) :
  (a ++ b)%string = EmptyString -> a = EmptyString /\ b = EmptyString.
Proof. destruct a; simpl; intros H; [auto | discriminate]. Qed.

Lemma cat_inv (r1 r2 : regex) (s : string) :
  matches (Cat r1 r2) s ->
  exists s1 s2, s = (s1 ++ s2)%string /\ matches r1 s1 /\ matches r2 s2.
Proof. intros H. inversion H; subst. eauto. Qed.

Lemma nullable_matches (r : regex) : nullable r = true <-> matches r EmptyString.
Proof.
  induction r; simpl.
  - split; [discriminate | intros H; inversion H].
  - split; [constructor | reflexivity].
  - split; [discriminate | intros H; inversion H].
  - split; [discriminate | intros H; inversion H].
  - rewrite andb_true_iff, IHr1, IHr2. split.
    + intros [H1 H2]. change EmptyString with ("" ++ "")%string. now constructor.
    + intros H. apply cat_inv in H. destruct H as [s1 [s2 [E [H1 H2]]]].
      symmetry in E. apply append_eq_nil in E. destruct E; subst. auto.
  - rewrite orb_true_iff, IHr1, IHr2. split.
    + intros [H|H]; [now apply m_alt_l | now apply m_alt_r].
    + intros H. inversion H; subst; auto.
  - split; [constructor | reflexivity].
Qed.

Lemma star_cons_inv (r : regex) (c : ascii) (s : string) :
  matches (Star r) (String c s) ->
  exists s1 s2, s = (s1 ++ s2)%string /\ matches r (String c s1) /\ matches (Star r) s2.
Proof.
  intros H. remember (Star r) as e eqn:Ee. remember (String c s) as w eqn:Ew.
  revert s Ew. induction H as [| | | | | | |r' s1 s2 H1 _ H2 IH2]; intros t Ew;
    try discriminate Ee; try discriminate Ew.
  injection Ee as ->. destruct s1 as [|c1 s1']; simpl in Ew.
  - now apply IH2.
  - injection Ew as -> <-. exists s1', s2. auto.
Qed.

Lemma deriv_matches (c : ascii) (r : regex) (s : string) :
  matches (deriv c r) s <-> matches r (String c s).
Proof.
  revert s. induction r as [| |a| |r1 IH1 r2 IH2|r1 IH1 r2 IH2|r1 IH1]; intros s; simpl.
  - split; intros H; inversion H.
  - split; intros H; inversion H.
  - destruct (ci_eqb a c) eqn:E; split; intros H; inversion H; subst.
    + now constructor.
    + constructor.
    + congruence.
  - destruct (Ascii.eqb c newline) eqn:E; split; intros H; inversion H; subst.
    + apply Ascii.eqb_eq in E. contradiction.
    + constructor. intros ->. rewrite Ascii.eqb_refl in E. discriminate.
    + constructor.
  - assert (Hcat : matches (Cat (deriv c r1) r2) s
                   <-> exists s1 s2, s = (s1 ++ s2)%string
                                     /\ matches r1 (String c s1) /\ matches r2 s2).
    { split.
      - intros H. apply cat_inv in H. destruct H as [s1 [s2 [-> [H1 H2]]]].
        exists s1, s2. rewrite <- IH1. auto.
      - intros [s1 [s2 [-> [H1 H2]]]]. constructor; [now apply IH1 | exact H2]. }
    assert (Hsplit : matches (Cat r1 r2) (String c s)
                     <-> (exists s1 s2, s = (s1 ++ s2)%string
                                        /\ matches r1 (String c s1) /\ matches r2 s2)
                         \/ (matches r1 EmptyString /\ matches r2 (String c s))).
    { split.
      - intros H. apply cat_inv in H. destruct H as [s1 [s2 [E [H1 H2]]]].
        destruct s1 as [|c1 s1']; simpl in E.
        + subst s2. right. auto.
        + injection E as <- ->. left. exists s1', s2. auto.
      - intros [[s1 [s2 [-> [H1 H2]]]]|[H1 H2]].
        + change (String c (s1 ++ s2)) with (String c s1 ++ s2)%string. now constructor.
        + change (String c s) with ("" ++ String c s)%string. now constructor. }
    rewrite Hsplit. destruct (nullable r1) eqn:En.
    + apply nullable_matches in En. split.
      * intros H. inversion H; subst.
        -- left. now apply Hcat.
        -- right. split; [exact En | now apply IH2].
      * intros [H|[_ H]].
        -- apply m_alt_l. now apply Hcat.
        -- apply m_alt_r. now apply IH2.
    + rewrite Hcat. split; [auto|]. intros [H|[H _]]; [exact H|].
      apply nullable_matches in H. congruence.
  - split; intros H; inversion H; subst.
    + apply m_alt_l. now apply IH1.
    + apply m_alt_r. now apply IH2.
    + apply m_alt_l. now apply IH1.
    + apply m_alt_r. now apply IH2.
  - split.
    + intros H. apply cat_inv in H. destruct H as [s1 [s2 [-> [H1 H2]]]].
      change (String c (s1 ++ s2)) with (String c s1 ++ s2)%string.
      constructor; [now apply IH1 | exact H2].
    + intros H. apply star_cons_inv in H. destruct H as [s1 [s2 [-> [H1 H2]]]].
      constructor; [now apply IH1 | exact H2].
Qed.

Lemma match_prefix_spec (r : regex) (s : string) :
  match_prefix r s = true
  <-> exists pre post, s = (pre ++ post)%string /\ matches r pre.
Proof.
  revert r. induction s as [|c s IH]; intros r; simpl.
  - rewrite orb_false_r, nullable_matches. split.
    + intros H. exists EmptyString, EmptyString. auto.
    + intros [pre [post [E H]]]. symmetry in E. apply append_eq_nil in E.
      destruct E; now subst.
  - rewrite orb_true_iff, nullable_matches, IH. split.
    + intros [H|[pre [post [-> H]]]].
      * exists EmptyString, (String c s). auto.
      * exists (String c pre), post. split; [reflexivity | now apply deriv_matches].
    + intros [pre [post [E H]]]. destruct pre as [|c' pre]; simpl in E.
      * now left.
      * injection E as <- ->. right. exists pre, post.
        split; [reflexivity | now apply deriv_matches].
Qed.

(** [re_search] finds exactly the cells with a piece that the pattern
    matches. *)
Lemma re_search_spec (r : regex) (s : string) :
  re_search r s = true
  <-> exists before mid after,
        s = (before ++ mid ++ after)%string /\ matches r mid.
Proof.
  induction s as [|c s IH]; cbn [re_search].
  - rewrite orb_false_r, match_prefix_spec. split.
    + intros [pre [post [E H]]]. exists EmptyString, pre, post. auto.
    + intros [b [m [a [E H]]]]. symmetry in E. apply append_eq_nil in E.
      destruct E as [-> E]. exists m, a. auto.
  - rewrite orb_true_iff, match_prefix_spec, IH. split.
    + intros [[pre [post [E H]]]|[b [m [a [-> H]]]]].
      * exists EmptyString, pre, post. auto.
      * exists (String c b), m, a. auto.
    + intros [b [m [a [E H]]]]. destruct b as [|c' b]; simpl in E.
      * left. exists m, a. auto.
      * injection E as <- ->. right. exists b, m, a. auto.
Qed.

(** ** Search terms without special characters *)

Lemma special_cases (c : ascii) :
  special c = false ->
  Ascii.eqb c "(" = false /\ Ascii.eqb c ")" = false /\ Ascii.eqb c "|" = false
  /\ is_repeat c = false /\ Ascii.eqb c "." = false
  /\ forall prev, outside_model prev c = false.
Proof.
  unfold special, is_repeat, outside_model. simpl. intros H.
  repeat (apply orb_false_elim in H; destruct H as [?E H]).
  rewrite E, E0, E1, E2, E3, E4, E5, E7, E9, E10, E11, E12. simpl.
  repeat split; auto. intros [p|]; reflexivity.
Qed.

Lemma parse_plain (t : string) (cur : frame) (stack : list frame) :
  plain t = true -> parse t cur stack = parse EmptyString (push_all t cur) stack.
Proof.
  revert cur. induction t as [|c t IH]; intros cur Hp.
  - reflexivity.
  - simpl in Hp. apply andb_prop in Hp. destruct Hp as [Hc Hp].
    apply negb_true_iff in Hc.
    destruct (special_cases c Hc) as [E1 [E2 [E3 [E4 [E5 _]]]]].
    cbn [parse push_all]. rewrite E1, E2, E3, E4, E5. now apply IH.
Qed.

Lemma modelled_plain (t : string) (prev : option ascii) :
  plain t = true -> modelled prev t = true.
Proof.
  revert prev. induction t as [|c t IH]; intros prev Hp.
  - reflexivity.
  - simpl in Hp. apply andb_prop in Hp. destruct Hp as [Hc Hp].
    apply negb_true_iff in Hc.
    destruct (special_cases c Hc) as [_ [_ [_ [_ [_ E]]]]].
    cbn [modelled]. rewrite E. simpl. now apply IH.
Qed.

Lemma push_all_branches (t : string) (f : frame) :
  branches (push_all t f) = branches f.
Proof. revert f. induction t as [|c t IH]; intros f; simpl; [|rewrite IH]; reflexivity. Qed.

Lemma push_all_items (t : string) (f : frame) (acc : regex) :
  fold_left (fun a x => Cat x a) (items (push_all t f)) acc
  = fold_left (fun a x => Cat x a) (items f) (lit_then t acc).
Proof.
  revert f acc. induction t as [|c t IH]; intros f acc; simpl.
  - reflexivity.
  - now rewrite IH.
Qed.

Lemma re_compile_plain (t : string) :
  plain t = true -> re_compile t = Pattern (lit_then t Eps).
Proof.
  intros Hp. unfold re_compile. rewrite (modelled_plain t None Hp).
  rewrite (parse_plain t empty_frame [] Hp). simpl. f_equal.
  unfold close. rewrite push_all_branches. simpl.
  unfold seq_of. now rewrite push_all_items.
Qed.

Lemma ci_eqb_true (a b : ascii) : ci_eqb a b = true <-> to_lower a = to_lower b.
Proof. unfold ci_eqb. apply Ascii.eqb_eq. Qed.

Lemma casefold_app (a b : string) :
  casefold (a ++ b)%string = (casefold a ++ casefold b)%string.
Proof. induction a; simpl; congruence. Qed.

Lemma casefold_split (s x y : string) :
  casefold s = (x ++ y)%string ->
  exists s1 s2, s = (s1 ++ s2)%string /\ casefold s1 = x /\ casefold s2 = y.
Proof.
  revert s. induction x as [|c x IH]; intros s H.
  - exists EmptyString, s. auto.
  - destruct s as [|d s]; simpl in H; [discriminate|].
    injection H as Hc H. destruct (IH s H) as [s1 [s2 [-> [H1 H2]]]].
    exists (String d s1), s2. simpl. rewrite Hc, H1. auto.
Qed.

Lemma matches_lit (t m : string) :
  matches (lit_then t Eps) m <-> casefold m = casefold t.
Proof.
  revert m. induction t as [|c t IH]; intros m; simpl.
  - split.
    + intros H. inversion H. reflexivity.
    + destruct m; [constructor | discriminate].
  - split.
    + intros H. apply cat_inv in H. destruct H as [s1 [s2 [-> [H1 H2]]]].
      inversion H1 as [|? c' Hci| | | | | |]; subst. simpl.
      apply ci_eqb_true in Hci. apply IH in H2. congruence.
    + destruct m as [|d m]; simpl; intros H; [discriminate|].
      injection H as Hd Hm.
      change (String d m) with (String d EmptyString ++ m)%string.
      constructor; [|now apply IH]. constructor. now apply ci_eqb_true.
Qed.

Lemma is_prefix_spec (needle hay : string) :
  is_prefix needle hay = true <-> exists rest, hay = (needle ++ rest)%string.
Proof.
  revert hay. induction needle as [|a n IH]; intros hay; simpl.
  - split; [intros _; now exists hay | reflexivity].
  - destruct hay as [|b h].
    + split; [discriminate | intros [rest H]; discriminate H].
    + rewrite andb_true_iff, Ascii.eqb_eq, IH. split.
      * intros [-> [rest ->]]. now exists rest.
      * intros [rest H]. injection H as -> ->. split; [reflexivity | now exists rest].
Qed.

Lemma contains_spec (hay needle : string) :
  contains hay needle = true
  <-> exists before after, hay = (before ++ needle ++ after)%string.
Proof.
  induction hay as [|c h IH]; cbn [contains].
  - rewrite orb_false_r, is_prefix_spec. split.
    + intros [rest H]. now exists EmptyString, rest.
    + intros [b [a H]]. symmetry in H. apply append_eq_nil in H.
      destruct H as [-> H]. now exists a.
  - rewrite orb_true_iff, is_prefix_spec, IH. split.
    + intros [[rest H]|[b [a ->]]].
      * now exists EmptyString, rest.
      * now exists (String c b), a.
    + intros [b [a H]]. destruct b as [|c' b]; simpl in H.
      * left. now exists a.
      * injection H as <- ->. right. now exists b, a.
Qed.

(** For a plain term the compiled pattern finds the cells that contain the
    term when both are case-folded. *)
Lemma re_search_plain (t field : string) :
  re_search (lit_then t Eps) field = contains (casefold field) (casefold t).
Proof.
  apply eq_true_iff_eq. rewrite re_search_spec, contains_spec. split.
  - intros [b [m [a [-> H]]]]. apply matches_lit in H.
    exists (casefold b), (casefold a). now rewrite !casefold_app, H.
  - intros [b [a H]]. apply casefold_split in H.
    destruct H as [s1 [s2 [-> [H1 H2]]]]. apply casefold_split in H2.
    destruct H2 as [m [s3 [-> [Hm H3]]]]. exists s1, m, s3.
    split; [reflexivity | now apply matches_lit].
Qed.

Lemma existsb_pointwise {A : Type} (f g : A -> bool) (l : list A) :
  (forall x, f x = g x) -> existsb f l = existsb g l.
Proof. intros H. induction l as [|x l IH]; simpl; [|rewrite H, IH]; reflexivity. Qed.

(** X3: the search, for the terms it treats as plain text, on ASCII text: the
    rows with a field that contains the term, case-folded, in the order of
    the frame; and for the empty term the frame as it is. *)
Theorem search_plain_term (df : DataFrame) (term : string) :
  term <> EmptyString -> plain term = true ->
  ascii_text term = true -> ascii_frame df = true ->
  exists rows,
    search df term = Shown rows
    /\ (forall r, In r rows <-> In r df /\ row_contains term r = true)
    /\ (forall r, row_contains term r = true ->
                  count_occ Row_eq_dec rows r = count_occ Row_eq_dec df r)
    /\ subsequence rows df
    /\ search df EmptyString = Shown df.
Proof.
  intros Hne Hp _ _. exists (filter (row_contains term) df).
  assert (Hs : search df term = Shown (filter (row_contains term) df)).
  { unfold search. apply truthy_true in Hne. rewrite Hne.
    destruct df as [|r0 df0]; [reflexivity|].
    rewrite (re_compile_plain term Hp). f_equal. apply filter_ext. intros r.
    unfold row_contains. apply existsb_pointwise. intros field. apply re_search_plain. }
  split; [exact Hs|]. split; [|split; [|split]].
  - intros r. apply filter_In.
  - intros r Hr. now apply count_occ_filter_true.
  - apply filter_subsequence.
  - reflexivity.
Qed.

Lemma search_plain_term_witness :
  exists rows,
    search seed "wms-2" = Shown rows
    /\ (forall r, In r rows <-> In r seed /\ row_contains "wms-2" r = true)
    /\ (forall r, row_contains "wms-2" r = true ->
                  count_occ Row_eq_dec rows r = count_occ Row_eq_dec seed r)
    /\ subsequence rows seed
    /\ search seed EmptyString = Shown seed.
Proof.
  apply (search_plain_term seed "wms-2");
    [discriminate | reflexivity | reflexivity | reflexivity].
Defined.

(** C1: the term is compiled as a pattern.  Searching the seed rows for the
    site name ["Site-A (North)"], as the table shows it, finds nothing,
    although the first row's site name contains it: the brackets form a
    group, so the pattern asks for ["Site-A North"].  And the term ["."]
    brings back every row, although no field has a full stop. *)
Theorem search_term_is_a_pattern :
  search seed "Site-A (North)" = Shown []
  /\ existsb (row_contains "Site-A (North)") seed = true
  /\ search seed "." = Shown seed
  /\ existsb (row_contains ".") seed = false
  /\ search seed "(North" = SearchRaised (ReError "missing ), unterminated subpattern").
Proof. vm_compute. repeat split. Qed.

(** ** Saving and loading *)

(** C8: saving a frame and loading it again does not always give the frame
    back.  The reader takes the text ["None"] for a missing value, so the
    seed rows come back with [nan] as the sensor of rows 2 and 5, and a
    description typed as ["N/A"] comes back as [nan] as well. *)
Theorem save_then_load_loses_fields :
  read_csv (save_data seed)
  = Loaded
      [ [VInt 1; VStr "Site-A (North)"; VStr "Validated"; VStr "Temp Sensor";
         VStr "WMS-1"; VStr "Calibration Drift"; VStr "2023-01-15"];
        [VInt 2; VStr "Site-B (South)"; VStr "Failed"; VNaN;
         VStr "WMS-2"; VStr "No Issues"; VStr "2023-02-20"];
        [VInt 3; VStr "Site-C (East)"; VStr "Validated"; VStr "Humidity Sensor";
         VStr "WMS-1"; VStr "Connector Fault"; VStr "2023-03-10"];
        [VInt 4; VStr "Site-D (West)"; VStr "Failed"; VStr "Pressure Sensor";
         VStr "WMS-2"; VStr "Power Failure"; VStr "2023-04-05"];
        [VInt 5; VStr "Site-E (North)"; VStr "Pending"; VNaN;
         VStr "WMS-1"; VStr "No Issues"; VStr "2023-05-12"] ]
  /\ read_csv (save_data seed) <> Loaded (map row_values seed)
  /\ read_csv (save_data frame_with_na)
     = Loaded
         [ [VInt 1; VStr "Site-A (North)"; VStr "Validated"; VStr "Temp Sensor";
            VStr "WMS-1"; VStr "Calibration Drift"; VStr "2023-01-15"];
           [VInt 2; VStr "Site-G"; VStr "Pending"; VStr "Flow Sensor";
            VStr "WMS-2"; VNaN; VStr "2026-11-03"] ]
  /\ read_csv (save_data frame_with_na) <> Loaded (map row_values frame_with_na).
Proof.
  split; [vm_compute; reflexivity|]. split; [vm_compute; discriminate|].
  split; [vm_compute; reflexivity|]. vm_compute. discriminate.
Qed.

(** After the first load every seed row passes the filter of the issue
    charts: the two sensors that were ["None"] are [nan] in the frame the
    script works with. *)
Example seed_reloaded_issue_subset :
  exists df,
    loaded_frame (fst (load_data None)) = Some df
    /\ List.length df = 5%nat
    /\ issue_df df = df
    /\ sum_counts (issue_sensor_distribution df) = 5%nat
    /\ issue_df seed <> seed.
Proof.
  eexists. split; [vm_compute; reflexivity|].
  split; [reflexivity|]. split; [reflexivity|]. split; [reflexivity|].
  vm_compute. discriminate.
Qed.

(** ** The tokenizer reads back what the writer wrote *)

Lemma tokenize_bytes_app (a b : string) (t : tokenizer) :
  tokenize_bytes (a ++ b)%string t = tokenize_bytes b (tokenize_bytes a t).
Proof. revert t. induction a as [|c a IH]; intros t; simpl; [|rewrite IH]; reflexivity. Qed.

Lemma rev_onto_rev_onto (s w acc : string) :
  rev_onto (rev_onto s w) acc = rev_onto w (s ++ acc)%string.
Proof.
  revert w acc. induction s as [|c s IH]; intros w acc; simpl.
  - reflexivity.
  - rewrite IH. reflexivity.
Qed.

Lemma breaks_field_false (c : ascii) :
  breaks_field c = false ->
  Ascii.eqb c comma = false /\ Ascii.eqb c dquote = false
  /\ Ascii.eqb c newline = false.
Proof.
  unfold breaks_field. intros H.
  repeat (apply orb_false_elim in H; destruct H as [H ?]). auto.
Qed.

Lemma tok_in_field (f : string) (t : tokenizer) :
  needs_quotes f = false -> has_cr f = false -> state t = IN_FIELD ->
  tokenize_bytes f t = mkTok IN_FIELD (rev_onto f (word t)) (fields t) (records t).
Proof.
  revert t. induction f as [|c f IH]; intros t Hq Hr Hs.
  - simpl. destruct t; simpl in *; now subst.
  - unfold needs_quotes in Hq. simpl in Hq. apply orb_false_elim in Hq.
    destruct Hq as [Hc Hq]. apply breaks_field_false in Hc.
    destruct Hc as [E1 [_ E3]].
    unfold has_cr in Hr. simpl in Hr. apply orb_false_elim in Hr.
    destruct Hr as [E4 Hr].
    cbn [tokenize_bytes]. unfold step, step_field. rewrite Hs, E1, E3, E4.
    rewrite IH; [reflexivity | exact Hq | exact Hr | exact Hs].
Qed.

Lemma tok_in_quoted (f : string) (t : tokenizer) :
  state t = IN_QUOTED_FIELD ->
  tokenize_bytes (double_quotes f) t
  = mkTok IN_QUOTED_FIELD (rev_onto f (word t)) (fields t) (records t).
Proof.
  revert t. induction f as [|c f IH]; intros t Hs.
  - simpl. destruct t; simpl in *; now subst.
  - cbn [double_quotes]. destruct (Ascii.eqb c dquote) eqn:E.
    + apply Ascii.eqb_eq in E. subst c.
      cbn [tokenize_bytes]. unfold step at 2, step_field. rewrite Hs.
      rewrite Ascii.eqb_refl. unfold step, step_field. cbn [state set_state].
      rewrite Ascii.eqb_refl. rewrite IH; reflexivity.
    + cbn [tokenize_bytes]. unfold step, step_field. rewrite Hs, E.
      rewrite IH; [reflexivity | exact Hs].
Qed.

Lemma tok_quote_field (f : string) (t : tokenizer) :
  has_cr f = false -> state t = START_FIELD -> word t = EmptyString ->
  field_read t f (tokenize_bytes (quote_field f) t).
Proof.
  intros Hr Hs Hw. unfold quote_field. destruct (needs_quotes f) eqn:Hq.
  - cbn [tokenize_bytes]. rewrite tokenize_bytes_app.
    assert (E : step t dquote = set_state IN_QUOTED_FIELD t).
    { unfold step, step_field. rewrite Hs. reflexivity. }
    rewrite E, tok_in_quoted by reflexivity.
    unfold field_read. cbn. rewrite Hw, rev_onto_rev_onto. simpl.
    rewrite append_nil_r. auto 8.
  - destruct f as [|c f].
    + simpl. unfold field_read. rewrite Hw. auto 8.
    + pose proof Hq as Hq'. unfold needs_quotes in Hq'. simpl in Hq'.
      apply orb_false_elim in Hq'. destruct Hq' as [Hc Hf].
      apply breaks_field_false in Hc. destruct Hc as [E1 [E2 E3]].
      unfold has_cr in Hr. simpl in Hr. apply orb_false_elim in Hr.
      destruct Hr as [E4 Hr].
      cbn [tokenize_bytes].
      assert (E : step t c = set_state IN_FIELD (push_char c t)).
      { unfold step, step_field. rewrite Hs, E1, E2, E3, E4. reflexivity. }
      rewrite E, tok_in_field; [|exact Hf|exact Hr|reflexivity].
      unfold field_read. cbn. rewrite Hw, rev_onto_rev_onto. simpl.
      rewrite append_nil_r. auto 8.
Qed.

Lemma step_comma_after_field (t : tokenizer) (f : string) (t' : tokenizer) :
  field_read t f t' ->
  step t' comma = mkTok START_FIELD EmptyString (f :: fields t) (records t).
Proof.
  intros [Hf [Hr [Hw Hs]]]. destruct t' as [s w fs rs]. simpl in *. subst.
  destruct Hs as [-> | [-> | ->]]; reflexivity.
Qed.

Lemma step_newline_after_field (t : tokenizer) (f : string) (t' : tokenizer) :
  field_read t f t' ->
  step t' newline
  = mkTok START_RECORD EmptyString [] (rev (f :: fields t) :: records t).
Proof.
  intros [Hf [Hr [Hw Hs]]]. destruct t' as [s w fs rs]. simpl in *. subst.
  destruct Hs as [-> | [-> | ->]]; reflexivity.
Qed.

Lemma tok_line (fs : list string) (t : tokenizer) :
  fs <> [] -> cr_free fs = true -> state t = START_FIELD -> word t = EmptyString ->
  tokenize_bytes (csv_line fs) t
  = mkTok START_RECORD EmptyString [] (rev (rev fs ++ fields t) :: records t).
Proof.
  unfold csv_line. revert t. induction fs as [|f fs IH]; intros t Hne Hcr Hs Hw.
  - contradiction.
  - unfold cr_free in Hcr. cbn [forallb] in Hcr. apply andb_prop in Hcr.
    destruct Hcr as [Hf Hcr]. apply negb_true_iff in Hf. destruct fs as [|g fs].
    + cbn [join_fields]. rewrite tokenize_bytes_app. cbn [tokenize_bytes].
      rewrite (step_newline_after_field t f) by now apply tok_quote_field.
      reflexivity.
    + change (join_fields (f :: g :: fs))
        with (quote_field f ++ String comma (join_fields (g :: fs)))%string.
      rewrite append_assoc, tokenize_bytes_app.
      change (String comma (join_fields (g :: fs)) ++ String newline "")%string
        with (String comma (join_fields (g :: fs) ++ String newline ""))%string.
      cbn [tokenize_bytes].
      rewrite (step_comma_after_field t f) by now apply tok_quote_field.
      rewrite IH; [|discriminate|exact Hcr|reflexivity|reflexivity].
      cbn [fields records]. f_equal. f_equal.
      change (rev (f :: g :: fs)) with (rev (g :: fs) ++ [f]).
      now rewrite <- app_assoc.
Qed.

Lemma tok_record (fs : list string) (t : tokenizer) :
  starts_record fs = true -> cr_free fs = true ->
  state t = START_RECORD -> word t = EmptyString -> fields t = [] ->
  tokenize_bytes (csv_line fs) t
  = mkTok START_RECORD EmptyString [] (fs :: records t).
Proof.
  intros Hst Hcr Hs Hw Hf.
  assert (Hne : fs <> []) by (destruct fs; discriminate).
  assert (H1 : tokenize_bytes (csv_line fs) t
               = tokenize_bytes (csv_line fs) (set_state START_FIELD t)).
  { destruct fs as [|[|c f] fs]; try discriminate Hst.
    simpl in Hst. apply andb_prop in Hst. destruct Hst as [Hst E4].
    apply andb_prop in Hst. destruct Hst as [Hb Hc].
    apply negb_true_iff in Hb. apply negb_true_iff in Hc.
    apply negb_true_iff in E4.
    assert (Hfirst : exists d rest, csv_line (String c f :: fs) = String d rest
                                    /\ Ascii.eqb d newline = false
                                    /\ Ascii.eqb d cr = false /\ is_blank d = false).
    { apply breaks_field_false in Hc. destruct Hc as [_ [_ E3]].
      unfold csv_line. destruct fs as [|g fs]; cbn [join_fields]; unfold quote_field;
        destruct (needs_quotes (String c f)); simpl; eexists; eexists;
        (split; [reflexivity|]); auto. }
    destruct Hfirst as [d [rest [-> [E1 [E2 E3]]]]].
    cbn [tokenize_bytes]. f_equal.
    unfold step. rewrite Hs. cbn [state set_state]. unfold step_record.
    now rewrite E1, E2, E3. }
  rewrite H1, (tok_line fs (set_state START_FIELD t) Hne Hcr eq_refl Hw).
  cbn [fields records set_state]. now rewrite Hf, app_nil_r, rev_involutive.
Qed.

Lemma tok_file (rows : list (list string)) (t : tokenizer) :
  Forall (fun fs => starts_record fs = true /\ cr_free fs = true) rows ->
  state t = START_RECORD -> word t = EmptyString -> fields t = [] ->
  tokenize_bytes (file_text rows) t
  = mkTok START_RECORD EmptyString [] (rev rows ++ records t).
Proof.
  revert t. induction rows as [|fs rows IH]; intros t Hall Hs Hw Hf.
  - simpl. destruct t; simpl in *; now subst.
  - inversion Hall as [|? ? [Hst Hcr] Hall']; subst. cbn [file_text fold_right].
    rewrite tokenize_bytes_app, tok_record by assumption.
    fold (file_text rows). rewrite IH by (auto; reflexivity).
    cbn [records]. simpl. now rewrite <- app_assoc.
Qed.

Lemma tokenize_file (rows : list (list string)) :
  Forall (fun fs => starts_record fs = true /\ cr_free fs = true) rows ->
  tokenize (file_text rows) = Some rows.
Proof.
  intros Hall. unfold tokenize.
  rewrite tok_file by (auto; reflexivity).
  unfold handle_eof. cbn [state records].
  now rewrite app_nil_r, rev_involutive.
Qed.

(** ** The text of a serial number *)

Lemma digits_only_cons (c : ascii) (s : string) :
  digits_only (String c s) = is_digit c && digits_only s.
Proof. unfold digits_only. simpl. now rewrite negb_orb, negb_involutive. Qed.

Lemma string_of_uint_digits (d : Decimal.uint) :
  digits_only (NilEmpty.string_of_uint d) = true.
Proof. induction d; simpl; try reflexivity; now rewrite digits_only_cons, IHd. Qed.

Lemma string_of_uint_nonempty (d : Decimal.uint) :
  d <> Decimal.Nil -> NilEmpty.string_of_uint d <> EmptyString.
Proof. destruct d; simpl; intros H; [contradiction | discriminate ..]. Qed.

(** [str(z)] is an optional minus sign and a non-empty row of digits that
    reads back as [z]. *)
Lemma str_of_int_shape (z : Z) :
  exists digits,
    digits <> EmptyString /\ digits_only digits = true
    /\ uint_value digits = Z.abs z
    /\ str_of_int z = (if z <? 0 then String "-" digits else digits).
Proof.
  unfold str_of_int, uint_value. destruct z as [|p|p]; simpl.
  - exists "0"%string. repeat split; discriminate.
  - exists (NilEmpty.string_of_uint (Pos.to_uint p)).
    pose proof (DecimalPos.Unsigned.to_uint_nonnil p) as Hn.
    split; [now apply string_of_uint_nonempty|].
    split; [apply string_of_uint_digits|]. split.
    + rewrite NilEmpty.usu. unfold N.of_uint.
      now rewrite DecimalPos.Unsigned.of_to.
    + unfold NilZero.string_of_uint. destruct (Pos.to_uint p); congruence.
  - exists (NilEmpty.string_of_uint (Pos.to_uint p)).
    pose proof (DecimalPos.Unsigned.to_uint_nonnil p) as Hn.
    split; [now apply string_of_uint_nonempty|].
    split; [apply string_of_uint_digits|]. split.
    + rewrite NilEmpty.usu. unfold N.of_uint.
      now rewrite DecimalPos.Unsigned.of_to.
    + unfold NilZero.string_of_uint. destruct (Pos.to_uint p); congruence.
Qed.

Lemma span_digits_all (s : string) :
  digits_only s = true -> span_digits s = (s, EmptyString).
Proof.
  induction s as [|c s IH]; simpl; intros H.
  - reflexivity.
  - rewrite digits_only_cons in H. apply andb_prop in H. destruct H as [Hc Hs].
    now rewrite Hc, IH.
Qed.

Lemma digit_facts (c : ascii) :
  is_digit c = true ->
  is_space c = false /\ is_sign c = false /\ is_blank c = false
  /\ breaks_field c = false /\ Ascii.eqb c cr = false.
Proof.
  destruct c as [[|] [|] [|] [|] [|] [|] [|] [|]]; intros H;
    try discriminate H; repeat split.
Qed.

Lemma digits_no_break (s : string) : digits_only s = true -> needs_quotes s = false.
Proof.
  unfold needs_quotes. induction s as [|c s IH]; simpl; intros H.
  - reflexivity.
  - rewrite digits_only_cons in H. apply andb_prop in H. destruct H as [Hc Hs].
    apply digit_facts in Hc. destruct Hc as [_ [_ [_ [-> _]]]]. now apply IH.
Qed.

Lemma parse_int_str_of_int (z : Z) : parse_int (str_of_int z) = Some z.
Proof.
  destruct (str_of_int_shape z) as [digits [Hne [Hd [Hv ->]]]].
  destruct digits as [|c ds]; [contradiction|].
  pose proof Hd as Hd'. rewrite digits_only_cons in Hd'.
  apply andb_prop in Hd'. destruct Hd' as [Hc _].
  destruct (digit_facts c Hc) as [Hsp [Hsg _]].
  unfold parse_int. destruct (z <? 0) eqn:Hz.
  - cbn [lstrip is_space]. change (is_space "-") with false. cbn iota.
    cbn [drop_sign]. change (is_sign "-") with true. cbn iota.
    rewrite (span_digits_all _ Hd). rewrite Ascii.eqb_refl.
    change (all_space "") with true. cbn iota. rewrite Hv.
    apply Z.ltb_lt in Hz. f_equal. lia.
  - cbn [lstrip]. rewrite Hsp. cbn [drop_sign]. rewrite Hsg.
    rewrite (span_digits_all _ Hd).
    change (all_space "") with true. cbn iota. rewrite Hv.
    assert (Hm : Ascii.eqb c "-" = false).
    { unfold is_sign in Hsg. now apply orb_false_elim in Hsg. }
    rewrite Hm. apply Z.ltb_ge in Hz. f_equal. lia.
Qed.

Lemma reads_as_int64_str_of_int (z : Z) :
  in_int64 z -> parse_int64 (str_of_int z) = Some z.
Proof.
  intros [Hlo Hhi]. unfold parse_int64. rewrite parse_int_str_of_int.
  apply Z.leb_le in Hlo. apply Z.leb_le in Hhi. now rewrite Hlo, Hhi.
Qed.

Lemma int_chars_str_of_int (z : Z) : int_chars (str_of_int z) = true.
Proof.
  destruct (str_of_int_shape z) as [digits [_ [Hd [_ ->]]]].
  assert (H : int_chars digits = true).
  { unfold int_chars, digits_only in *. apply negb_true_iff in Hd.
    apply negb_true_iff. clear -Hd. induction digits as [|c s IH]; simpl in *.
    - reflexivity.
    - apply orb_false_elim in Hd. destruct Hd as [Hc Hs].
      apply negb_false_iff in Hc. rewrite Hc. simpl. now apply IH. }
  destruct (z <? 0); [|exact H].
  unfold int_chars in *. simpl. exact H.
Qed.

Lemma is_na_int_text (s : string) :
  s <> EmptyString -> int_chars s = true -> is_na s = false.
Proof.
  intros Hne Hc. destruct (is_na s) eqn:E; [|reflexivity].
  unfold is_na in E. apply existsb_exists in E. destruct E as [tk [Hin Heq]].
  apply String.eqb_eq in Heq. subst tk. simpl in Hin.
  repeat (destruct Hin as [<-|Hin]; [try (now contradiction Hne); discriminate Hc|]).
  contradiction.
Qed.

Lemma str_of_int_nonempty (z : Z) : str_of_int z <> EmptyString.
Proof.
  destruct (str_of_int_shape z) as [digits [Hne [_ [_ ->]]]].
  destruct (z <? 0); [discriminate | exact Hne].
Qed.

Lemma is_na_str_of_int (z : Z) : is_na (str_of_int z) = false.
Proof.
  apply is_na_int_text; [apply str_of_int_nonempty | apply int_chars_str_of_int].
Qed.

Lemma starts_record_str_of_int (z : Z) (rest : list string) :
  starts_record (str_of_int z :: rest) = true.
Proof.
  destruct (str_of_int_shape z) as [digits [Hne [Hd [_ ->]]]].
  destruct (z <? 0); [reflexivity|].
  destruct digits as [|c ds]; [contradiction|].
  rewrite digits_only_cons in Hd. apply andb_prop in Hd. destruct Hd as [Hc _].
  destruct (digit_facts c Hc) as [_ [_ [Hb [Hk Hr]]]]. simpl. now rewrite Hb, Hk, Hr.
Qed.

(** ** Columns that come back as they were *)

Lemma forallb_false_witness {A : Type} (p : A -> bool) (l : list A) (x : A) :
  In x l -> p x = false -> forallb p l = false.
Proof.
  intros Hin Hp. destruct (forallb p l) eqn:E; [|reflexivity].
  rewrite forallb_forall in E. rewrite (E x Hin) in Hp. discriminate.
Qed.

Lemma infer_dtype_serials (df : DataFrame) :
  df <> [] -> int64_frame df ->
  infer_dtype (map (fun r => str_of_int (Sr_No r)) df) = Int64.
Proof.
  intros Hne Hdf. unfold infer_dtype.
  destruct (map (fun r => str_of_int (Sr_No r)) df) as [|x l] eqn:E.
  - destruct df; [contradiction | discriminate].
  - rewrite <- E.
    assert (H : forallb (fun s => negb (is_na s) && reads_as_int64 s)
                  (map (fun r => str_of_int (Sr_No r)) df) = true).
    { apply forallb_forall. intros s Hs. apply in_map_iff in Hs.
      destruct Hs as [r [<- Hr]]. rewrite is_na_str_of_int. simpl.
      unfold reads_as_int64. rewrite reads_as_int64_str_of_int; [reflexivity|].
      unfold int64_frame in Hdf. rewrite Forall_forall in Hdf. now apply Hdf. }
    now rewrite H.
Qed.

Lemma first_int_error_In (col : list string) (s : string) :
  first_int_error col = Some s -> In s col /\ is_na s = false.
Proof.
  induction col as [|x col IH]; simpl; [discriminate|].
  destruct (is_na x) eqn:Ex; simpl.
  - intros H. destruct (IH H). auto.
  - destruct (reads_as_int64 x).
    + intros H. destruct (IH H). auto.
    + intros H. injection H as <-. auto.
Qed.

Lemma int_pass_no_overflow (col : list cell) :
  (forall s, In (Str s) col -> overflows s = false) ->
  int_pass_overflows (map csv_cell col) = false.
Proof.
  intros H. unfold int_pass_overflows.
  destruct (first_int_error (map csv_cell col)) as [s|] eqn:E; [|reflexivity].
  apply first_int_error_In in E. destruct E as [Hin Hna].
  apply in_map_iff in Hin. destruct Hin as [c [Hc Hin]].
  destruct c as [t|]; simpl in Hc; subst s; [now apply H | discriminate Hna].
Qed.

Lemma infer_dtype_text (col : list cell) (s : string) :
  keeps_text col -> In (Str s) col -> infer_dtype (map csv_cell col) = Object.
Proof.
  intros [Hna [Hclean [Hnone|[[s1 [H1 N1]] [s2 [H2 N2]]]]]] Hin.
  - exfalso. now apply (Hnone s).
  - unfold infer_dtype. destruct (map csv_cell col) as [|x l] eqn:E.
    + reflexivity.
    + rewrite <- E. apply orb_false_elim in N1. destruct N1 as [N1i N1f].
      rewrite (int_pass_no_overflow col) by (intros t Ht; now apply Hclean).
      rewrite (forallb_false_witness _ _ s1).
      * rewrite (forallb_false_witness _ _ s1).
        -- rewrite (forallb_false_witness _ _ s2); [reflexivity| |].
           ++ change s2 with (csv_cell (Str s2)). now apply in_map.
           ++ destruct (Hna s2 H2) as [-> _]. now rewrite N2.
        -- change s1 with (csv_cell (Str s1)). now apply in_map.
        -- destruct (Hna s1 H1) as [-> _]. now rewrite N1f.
      * change s1 with (csv_cell (Str s1)). now apply in_map.
      * now rewrite N1i, andb_false_r.
Qed.

Lemma convert_text (col : list cell) (c : cell) :
  keeps_text col -> In c col ->
  convert (infer_dtype (map csv_cell col)) (csv_cell c) = value_of_cell c.
Proof.
  intros Hk Hin. destruct c as [s|]; simpl.
  - rewrite (infer_dtype_text col s Hk Hin). unfold convert.
    destruct Hk as [Hna _]. destruct (Hna s Hin) as [-> _]. reflexivity.
  - reflexivity.
Qed.

Lemma convert_serial (df : DataFrame) (r : Row) :
  int64_frame df -> In r df ->
  convert (infer_dtype (map (fun x => str_of_int (Sr_No x)) df)) (str_of_int (Sr_No r))
  = VInt (Sr_No r).
Proof.
  intros Hdf Hin. rewrite infer_dtype_serials; [|intros ->; contradiction|exact Hdf].
  unfold convert. rewrite is_na_str_of_int, reads_as_int64_str_of_int; [reflexivity|].
  unfold int64_frame in Hdf. rewrite Forall_forall in Hdf. now apply Hdf.
Qed.

Lemma has_cr_str_of_int (z : Z) : has_cr (str_of_int z) = false.
Proof.
  pose proof (int_chars_str_of_int z) as H. unfold int_chars in H.
  apply negb_true_iff in H. unfold has_cr.
  induction (str_of_int z) as [|c s IH]; simpl in *.
  - reflexivity.
  - apply orb_false_elim in H. destruct H as [Hc Hs]. apply negb_false_iff in Hc.
    rewrite (IH Hs), orb_false_r. apply orb_prop in Hc. destruct Hc as [Hc|Hc].
    + now apply digit_facts in Hc.
    + apply Ascii.eqb_eq in Hc. now subst c.
Qed.

Lemma has_cr_csv_cell (col : list cell) (c : cell) :
  keeps_text col -> In c col -> has_cr (csv_cell c) = false.
Proof.
  intros [Hna _] Hin. destruct c as [s|]; [|reflexivity]. now apply Hna.
Qed.

Lemma tokenize_to_csv (df : DataFrame) :
  round_trips df -> tokenize (to_csv df) = Some (header :: map row_fields df).
Proof.
  intros [_ [_ [K1 [K2 [K3 [K4 [K5 K6]]]]]]].
  unfold to_csv. apply tokenize_file. constructor; [split; reflexivity|].
  apply Forall_forall. intros fs Hfs. apply in_map_iff in Hfs.
  destruct Hfs as [r [<- Hr]]. split; [apply starts_record_str_of_int|].
  unfold cr_free, row_fields. cbn [forallb].
  rewrite has_cr_str_of_int.
  rewrite (has_cr_csv_cell _ _ K1 (in_map Site_Name df r Hr)).
  rewrite (has_cr_csv_cell _ _ K2 (in_map Validation_Report df r Hr)).
  rewrite (has_cr_csv_cell _ _ K3 (in_map Issue_Sensors df r Hr)).
  rewrite (has_cr_csv_cell _ _ K4 (in_map WMS_Type df r Hr)).
  rewrite (has_cr_csv_cell _ _ K5 (in_map Issue_Description df r Hr)).
  rewrite (has_cr_csv_cell _ _ K6 (in_map Date_Logged df r Hr)).
  reflexivity.
Qed.

Lemma convert_rows_to_csv (df : DataFrame) :
  round_trips df -> convert_rows (map row_fields df) = map row_values df.
Proof.
  intros [Hint [_ [K1 [K2 [K3 [K4 [K5 K6]]]]]]].
  unfold convert_rows, column. rewrite map_map. cbn [seq List.length header map nth].
  rewrite !map_map. cbn [row_fields nth].
  apply map_ext_in. intros r Hr. unfold row_values.
  rewrite (convert_serial df r Hint Hr).
  rewrite <- (map_map Site_Name csv_cell), <- (map_map Validation_Report csv_cell),
    <- (map_map Issue_Sensors csv_cell), <- (map_map WMS_Type csv_cell),
    <- (map_map Issue_Description csv_cell), <- (map_map Date_Logged csv_cell).
  rewrite (convert_text _ _ K1 (in_map Site_Name df r Hr)).
  rewrite (convert_text _ _ K2 (in_map Validation_Report df r Hr)).
  rewrite (convert_text _ _ K3 (in_map Issue_Sensors df r Hr)).
  rewrite (convert_text _ _ K4 (in_map WMS_Type df r Hr)).
  rewrite (convert_text _ _ K5 (in_map Issue_Description df r Hr)).
  rewrite (convert_text _ _ K6 (in_map Date_Logged df r Hr)).
  reflexivity.
Qed.

(** X5: saving a frame and loading it again gives the same records, field for
    field, when the serial numbers are [int64] values, the frame is small
    enough for the reader to type its columns in one piece, and every text
    column keeps its text: no text is one of the reader's markers of a
    missing value, holds a carriage return or a NUL or starts with an
    integer beyond [int64], and the column does not read as numbers or
    booleans throughout. *)
Theorem save_then_load (df : DataFrame) :
  round_trips df -> read_csv (save_data df) = Loaded (map row_values df).
Proof.
  intros Hrt. unfold read_csv, save_data. rewrite (tokenize_to_csv df Hrt).
  change (list_eqb header header) with true. cbn [negb].
  destruct df as [|r df'] eqn:E.
  - reflexivity.
  - rewrite <- E in *. replace (map row_fields df) with (row_fields r :: map row_fields df')
      by (rewrite E; reflexivity).
    change (List.length header <? List.length (row_fields r))%nat with false. cbn iota.
    replace (row_fields r :: map row_fields df') with (map row_fields df)
      by (rewrite E; reflexivity).
    assert (Hlen : forallb (fun fs => (List.length fs <=? List.length header)%nat)
                     (map row_fields df) = true).
    { apply forallb_forall. intros fs Hfs. apply in_map_iff in Hfs.
      destruct Hfs as [x [<- _]]. reflexivity. }
    rewrite Hlen. now rewrite convert_rows_to_csv.
Qed.

Lemma save_then_load_witness :
  read_csv (save_data (issue_df seed)) = Loaded (map row_values (issue_df seed)).
Proof.
  apply (save_then_load (issue_df seed)).
  assert (K : forall g : Row -> cell,
             (forall s, In (Str s) (map g (issue_df seed)) ->
                        is_na s = false /\ has_cr s = false) ->
             (forall s, In (Str s) (map g (issue_df seed)) ->
                        has_nul s = false /\ overflows s = false) ->
             (exists s, In (Str s) (map g (issue_df seed)) /\ reads_as_number s = false) ->
             (exists s, In (Str s) (map g (issue_df seed)) /\ bool_like s = false) ->
             keeps_text (map g (issue_df seed))).
  { intros g H1 H2 H3 H4. split; [exact H1 | split; [exact H2 | right; split; assumption]]. }
  unfold round_trips. split; [|split].
  - repeat constructor; vm_compute; intuition discriminate.
  - unfold one_piece. simpl. lia.
  - repeat (match goal with |- _ /\ _ => split end);
      apply K;
      try (intros s Hs; simpl in Hs;
           repeat (destruct Hs as [Hs|Hs]; [injection Hs as <-; split; reflexivity|]);
           contradiction);
      eexists; (split; [left; reflexivity | reflexivity]).
Defined.

(** ** The search in general, and a run of the page *)

(** X6: for a term that compiles, on ASCII text, the rows shown are the rows
    with a field of which some piece is matched by the pattern, in the order
    of the frame. *)
Theorem search_by_pattern (df : DataFrame) (term : string) (r : regex) :
  df <> [] -> term <> EmptyString -> re_compile term = Pattern r ->
  ascii_text term = true -> ascii_frame df = true ->
  exists rows,
    search df term = Shown rows
    /\ (forall x, In x rows
                  <-> In x df
                      /\ exists field before mid after,
                           In field (row_text x)
                           /\ field = (before ++ mid ++ after)%string
                           /\ matches r mid)
    /\ subsequence rows df.
Proof.
  intros Hdf Hne Hc _ _.
  exists (filter (fun row => existsb (re_search r) (row_text row)) df).
  split; [|split].
  - unfold search. apply truthy_true in Hne. rewrite Hne, Hc.
    destruct df; [contradiction | reflexivity].
  - intros x. rewrite filter_In, existsb_exists. split.
    + intros [Hin [field [Hf Hs]]]. split; [exact Hin|].
      apply re_search_spec in Hs. destruct Hs as [b [m [a [E Hm]]]].
      exists field, b, m, a. auto.
    + intros [Hin [field [b [m [a [Hf [E Hm]]]]]]]. split; [exact Hin|].
      exists field. split; [exact Hf|]. apply re_search_spec. exists b, m, a. auto.
  - apply filter_subsequence.
Qed.

Lemma search_by_pattern_witness :
  exists rows,
    search seed "wms-(1|x)" = Shown rows
    /\ (forall x, In x rows
                  <-> In x seed
                      /\ exists field before mid after,
                           In field (row_text x)
                           /\ field = (before ++ mid ++ after)%string
                           /\ matches
                                (Cat (Chr "w") (Cat (Chr "m") (Cat (Chr "s") (Cat (Chr "-")
                                   (Cat (Alt (Cat (Chr "1") Eps) (Cat (Chr "x") Eps)) Eps)))))
                                mid)
    /\ subsequence rows seed.
Proof.
  apply (search_by_pattern seed "wms-(1|x)");
    [discriminate | discriminate | reflexivity | reflexivity | reflexivity].
Defined.

(** A run of the page in which the form is submitted without a site name
    and the delete button is not pressed writes nothing and leaves [df] as
    it was, whatever the search shows. *)
Lemma page_run_rejects_empty_site (today : date) (df : DataFrame) (inp : page_inputs)
    (filtered : DataFrame) :
  search df (search_term inp) = Shown filtered ->
  submitted (form inp) = true -> new_site (form inp) = EmptyString ->
  delete_clicked inp = false ->
  site_validation_page today df inp
  = PageDone filtered df [StError "Site Name is required."].
Proof.
  intros Hs Hsub Hsite Hclick. unfold site_validation_page, add_record_form.
  rewrite Hs, Hsub, Hsite. simpl. unfold delete_selected_site. now rewrite Hclick.
Qed.

(** ** The cards and the charts of the dashboard *)

Lemma occurrences_sensor (c : cell) (rows : DataFrame) :
  occurrences cell_eqb c (map Issue_Sensors rows)
  = List.length (filter (fun r => cell_eqb (Issue_Sensors r) c) rows).
Proof.
  induction rows as [|r rows IH]; simpl.
  - reflexivity.
  - rewrite IH. unfold cell_eqb.
    destruct (cell_eq_dec c (Issue_Sensors r)) as [E|E];
      destruct (cell_eq_dec (Issue_Sensors r) c) as [E'|E']; try congruence; reflexivity.
Qed.

Lemma tally_nil {K : Type} (eqb : K -> K -> bool) (xs : list K) :
  tally eqb xs = [] <-> xs = [].
Proof.
  split.
  - intros H. destruct xs as [|x xs]; [reflexivity|]. exfalso.
    assert (Hpos : forall acc, acc <> [] ->
              fold_left (fun a k => bump eqb k a) xs acc <> []).
    { clear H. induction xs as [|y ys IH]; simpl; intros acc Hacc; [exact Hacc|].
      apply IH. destruct acc as [|[k n] rest]; simpl; [discriminate|].
      destruct (eqb y k); discriminate. }
    apply (Hpos (bump eqb x [])); [discriminate | exact H].
  - intros ->. reflexivity.
Qed.

(** X7: the pie chart has one sector for each sensor label of the issue
    subset, with the number of its rows; no sector is labelled ["None"], and
    there is no sector exactly when the issue subset is empty (the case in
    which the script shows its message instead of the chart). *)
Theorem issue_sensor_distribution_sectors (df : DataFrame) :
  NoDup (map fst (issue_sensor_distribution df))
  /\ (forall c n, In (c, n) (issue_sensor_distribution df)
        <-> n = count_where (fun r => has_issueb r && cell_eqb (Issue_Sensors r) c) df
            /\ (0 < n)%nat)
  /\ ~ In (Str "None") (map fst (issue_sensor_distribution df))
  /\ (issue_sensor_distribution df = [] <-> issue_df df = []).
Proof.
  assert (Hin : forall c n, In (c, n) (issue_sensor_distribution df)
            <-> n = count_where (fun r => has_issueb r && cell_eqb (Issue_Sensors r) c) df
                /\ (0 < n)%nat).
  { intros c n. unfold issue_sensor_distribution.
    rewrite (In_tally cell_eqb cell_eqb_eq), occurrences_sensor.
    unfold count_where. now rewrite issue_df_filter, filter_filter. }
  split; [apply (NoDup_keys_tally cell_eqb cell_eqb_eq)|].
  split; [exact Hin|]. split.
  - intros H. apply in_map_iff in H. destruct H as [[c n] [Hc Hcn]].
    simpl in Hc. subst c. apply Hin in Hcn. destruct Hcn as [Hn Hpos].
    assert (Hz : count_where
                   (fun r => has_issueb r && cell_eqb (Issue_Sensors r) (Str "None")) df
                 = 0%nat).
    { unfold count_where. clear. induction df as [|r df IH]; simpl; [reflexivity|].
      unfold has_issueb, cell_eqb.
      destruct (cell_eq_dec (Issue_Sensors r) (Str "None")); simpl; exact IH. }
    lia.
  - unfold issue_sensor_distribution. rewrite tally_nil. split.
    + intros H. now apply map_eq_nil in H.
    + intros ->. reflexivity.
Qed.

Lemma filter_length_le {A : Type} (p : A -> bool) (l : list A) :
  (List.length (filter p l) <= List.length l)%nat.
Proof. induction l as [|x l IH]; simpl; [lia|]. destruct (p x); simpl; lia. Qed.

(** X8: the cards: every row is counted on the card of ["WMS-1"], on the
    card of ["WMS-2"] or on neither, so the two cards add up to the total
    exactly when every row has one of the two types; the card of the failed
    sites never exceeds the total. *)
Theorem kpi_cards_partition (df : DataFrame) :
  (wms1_issues df + wms2_issues df + count_where other_wms df = total_sites df)%nat
  /\ (sites_with_issue df <= total_sites df)%nat
  /\ ((wms1_issues df + wms2_issues df = total_sites df)%nat
      <-> forall r, In r df -> WMS_Type r = Str "WMS-1" \/ WMS_Type r = Str "WMS-2").
Proof.
  assert (Hsum : (wms1_issues df + wms2_issues df + count_where other_wms df
                  = total_sites df)%nat).
  { unfold wms1_issues, wms2_issues, count_where, total_sites, other_wms.
    induction df as [|r df IH]; simpl; [reflexivity|].
    destruct (WMS_Type r) as [t|]; simpl.
    - destruct (String.eqb t "WMS-1") eqn:E1; destruct (String.eqb t "WMS-2") eqn:E2;
        simpl; try lia.
      apply String.eqb_eq in E1, E2. congruence.
    - lia. }
  split; [exact Hsum|]. split; [apply filter_length_le|].
  assert (Hother : count_where other_wms df = 0%nat
                   <-> forall r, In r df ->
                         WMS_Type r = Str "WMS-1" \/ WMS_Type r = Str "WMS-2").
  { unfold count_where. clear. induction df as [|r df IH]; simpl.
    - split; [intros _ r [] | reflexivity].
    - destruct (other_wms r) eqn:E; simpl.
      + split; [discriminate|]. intros H. exfalso.
        unfold other_wms in E. apply andb_prop in E. destruct E as [E1 E2].
        apply negb_true_iff in E1, E2.
        destruct (H r (or_introl eq_refl)) as [Hw|Hw]; rewrite Hw in *; discriminate.
      + rewrite IH. split.
        * intros H x [<-|Hx]; [|now apply H].
          unfold other_wms in E. apply andb_false_iff in E.
          destruct E as [E|E]; apply negb_false_iff, eq_str_true in E; auto.
        * intros H x Hx. apply H. now right. }
  rewrite <- Hother. lia.
Qed.

Lemma sum_counts_perm {K : Type} (a b : list (K * nat)) :
  Permutation a b -> sum_counts a = sum_counts b.
Proof.
  unfold sum_counts. induction 1; simpl; lia.
Qed.

Lemma length_le_sum_counts {K : Type} (t : list (K * nat)) :
  Forall (fun p => (0 < snd p)%nat) t -> (List.length t <= sum_counts t)%nat.
Proof.
  unfold sum_counts. induction 1 as [|p t Hp _ IH]; simpl; lia.
Qed.

Lemma length_dropna (rows : DataFrame) :
  List.length (dropna (map Issue_Description rows)) = List.length (filter described rows).
Proof.
  induction rows as [|r rows IH]; simpl; [reflexivity|].
  unfold described. destruct (Issue_Description r); simpl; now rewrite IH.
Qed.

Lemma stable_top_issues_is_top (df : DataFrame) : top_issues df (stable_top_issues df).
Proof. split; [apply stable_sort_desc_perm | apply stable_sort_desc_sorted]. Qed.

(** X9: the counts of the top-issue chart add up to the number of rows of
    the issue subset that have a description; the chart has at most that
    many bars, and never more rows are counted than the issue subset has. *)
Theorem top_issues_total (df : DataFrame) (out : list (string * nat)) :
  top_issues df out ->
  sum_counts out = count_where (fun r => has_issueb r && described r) df
  /\ (List.length out <= sum_counts out)%nat
  /\ (sum_counts out <= List.length (issue_df df))%nat.
Proof.
  intros [Hperm _].
  assert (Hsum : sum_counts out = List.length (filter described (issue_df df))).
  { rewrite <- (sum_counts_perm _ _ Hperm). unfold description_counts.
    now rewrite sum_counts_tally, length_dropna. }
  split; [|split].
  - rewrite Hsum. unfold count_where. now rewrite issue_df_filter, filter_filter.
  - apply length_le_sum_counts.
    eapply Permutation_Forall; [exact Hperm|].
    apply (positive_tally String.eqb String.eqb_eq).
  - rewrite Hsum. apply filter_length_le.
Qed.

Lemma top_issues_total_witness :
  top_issues seed (stable_top_issues seed)
  /\ sum_counts (stable_top_issues seed)
     = count_where (fun r => has_issueb r && described r) seed
  /\ (List.length (stable_top_issues seed) <= sum_counts (stable_top_issues seed))%nat
  /\ (sum_counts (stable_top_issues seed) <= List.length (issue_df seed))%nat.
Proof.
  split; [apply stable_top_issues_is_top|].
  apply (top_issues_total seed (stable_top_issues seed)).
  apply stable_top_issues_is_top.
Defined.

(** ** Deleting, again and after adding *)

Lemma filter_comm {A : Type} (p q : A -> bool) (l : list A) :
  filter p (filter q l) = filter q (filter p l).
Proof.
  rewrite !filter_filter. apply filter_ext. intros x. apply andb_comm.
Qed.

Lemma filter_idem {A : Type} (p : A -> bool) (l : list A) :
  filter p (filter p l) = filter p l.
Proof.
  rewrite filter_filter. apply filter_ext. intros x. now destruct (p x).
Qed.

Lemma filter_length_split {A : Type} (p : A -> bool) (l : list A) :
  (List.length (filter p l) + List.length (filter (fun x => negb (p x)) l)
   = List.length l)%nat.
Proof.
  induction l as [|x l IH]; simpl; [reflexivity|]. destruct (p x); simpl; lia.
Qed.

(** X10: deleting composes: deleting a name a second time changes nothing,
    two deletions give the same frame in either order, and a deletion
    shortens the frame by the number of rows that have the name. *)
Theorem delete_site_composes (df : DataFrame) (v w : cell) (name : string) :
  delete_site (delete_site df v) v = delete_site df v
  /\ delete_site (delete_site df v) w = delete_site (delete_site df w) v
  /\ (total_sites (delete_site df (Str name))
      + count_where (fun r => eq_str (Site_Name r) name) df = total_sites df)%nat.
Proof.
  unfold delete_site. split; [apply filter_idem|]. split; [apply filter_comm|].
  unfold total_sites, count_where. simpl.
  rewrite <- (filter_length_split (fun r => ne_str (Site_Name r) name) df).
  f_equal. f_equal. apply filter_ext. intros r. rewrite ne_str_eq_str.
  now rewrite negb_involutive.
Qed.

(** X12: a row whose site name is missing survives every deletion, and
    choosing the option [nan] of the select box deletes nothing: the frame
    is written back as it is. *)
Theorem missing_site_name_survives_delete (df : DataFrame) (v : cell) (r : Row) :
  Site_Name r = NaN ->
  count_occ Row_eq_dec (delete_site df v) r = count_occ Row_eq_dec df r
  /\ (In r df -> In r (delete_site df v))
  /\ delete_selected_site df NaN true
     = Completed df [SaveData df; StWarning "Deleted nan"; StRerun].
Proof.
  intros Hnan.
  assert (Hkeep : ne_cell (Site_Name r) v = true).
  { rewrite Hnan. destruct v; reflexivity. }
  split; [|split].
  - unfold delete_site.
    now apply (count_occ_filter_true Row_eq_dec (fun x => ne_cell (Site_Name x) v)).
  - intros Hin. unfold delete_site. apply filter_In. now split.
  - unfold delete_selected_site. now rewrite delete_site_nan.
Qed.

Lemma missing_site_name_survives_delete_witness :
  count_occ Row_eq_dec
    (delete_site [mkRow 1 NaN (Str "Failed") (Str "Temp Sensor") (Str "WMS-1") NaN
                    (Str "2023-01-15")] (Str "Site-A"))
    (mkRow 1 NaN (Str "Failed") (Str "Temp Sensor") (Str "WMS-1") NaN (Str "2023-01-15"))
  = count_occ Row_eq_dec
      [mkRow 1 NaN (Str "Failed") (Str "Temp Sensor") (Str "WMS-1") NaN (Str "2023-01-15")]
      (mkRow 1 NaN (Str "Failed") (Str "Temp Sensor") (Str "WMS-1") NaN (Str "2023-01-15"))
  /\ (In (mkRow 1 NaN (Str "Failed") (Str "Temp Sensor") (Str "WMS-1") NaN
            (Str "2023-01-15"))
        [mkRow 1 NaN (Str "Failed") (Str "Temp Sensor") (Str "WMS-1") NaN
           (Str "2023-01-15")] ->
      In (mkRow 1 NaN (Str "Failed") (Str "Temp Sensor") (Str "WMS-1") NaN
            (Str "2023-01-15"))
        (delete_site [mkRow 1 NaN (Str "Failed") (Str "Temp Sensor") (Str "WMS-1") NaN
                        (Str "2023-01-15")] (Str "Site-A")))
  /\ delete_selected_site
       [mkRow 1 NaN (Str "Failed") (Str "Temp Sensor") (Str "WMS-1") NaN (Str "2023-01-15")]
       NaN true
     = Completed
         [mkRow 1 NaN (Str "Failed") (Str "Temp Sensor") (Str "WMS-1") NaN
            (Str "2023-01-15")]
         [SaveData [mkRow 1 NaN (Str "Failed") (Str "Temp Sensor") (Str "WMS-1") NaN
                      (Str "2023-01-15")];
          StWarning "Deleted nan"; StRerun].
Proof.
  apply (missing_site_name_survives_delete
           [mkRow 1 NaN (Str "Failed") (Str "Temp Sensor") (Str "WMS-1") NaN
              (Str "2023-01-15")]
           (Str "Site-A")
           (mkRow 1 NaN (Str "Failed") (Str "Temp Sensor") (Str "WMS-1") NaN
              (Str "2023-01-15"))).
  reflexivity.
Defined.

(** *** The options of the select box *)

Lemma seen_spec (seen : list cell) (c : cell) :
  existsb (fun x => if cell_eq_dec c x then true else false) seen = true <-> In c seen.
Proof.
  rewrite existsb_exists. split.
  - intros [x [Hx E]]. destruct (cell_eq_dec c x); [now subst | discriminate].
  - intros H. exists c. split; [exact H|]. destruct (cell_eq_dec c c); congruence.
Qed.

Lemma unique_from_In (v : cell) (cs seen : list cell) :
  In v (unique_from seen cs) <-> In v cs /\ ~ In v seen.
Proof.
  revert seen. induction cs as [|c rest IH]; intros seen; simpl.
  - tauto.
  - destruct (existsb _ seen) eqn:E.
    + apply seen_spec in E. rewrite IH. split.
      * tauto.
      * intros [[->|H] Hn]; [contradiction | tauto].
    + assert (Hc : ~ In c seen).
      { intros H. apply seen_spec in H. congruence. }
      simpl. rewrite IH. simpl. split.
      * intros [->|[H Hn]]; [tauto|]. split; [tauto|]. intros Hv. apply Hn. now right.
      * intros [[->|H] Hn]; [now left|].
        destruct (cell_eq_dec c v) as [->|Hne]; [now left|].
        right. split; [exact H|]. intros [Heq|Hv]; [congruence | contradiction].
Qed.

Lemma unique_from_NoDup (cs seen : list cell) : NoDup (unique_from seen cs).
Proof.
  revert seen. induction cs as [|c rest IH]; intros seen; simpl.
  - constructor.
  - destruct (existsb _ seen); [apply IH|]. constructor; [|apply IH].
    rewrite unique_from_In. simpl. tauto.
Qed.

Lemma unique_from_seen_ext (cs seen1 seen2 : list cell) :
  (forall x, In x cs -> (In x seen1 <-> In x seen2)) ->
  unique_from seen1 cs = unique_from seen2 cs.
Proof.
  revert seen1 seen2. induction cs as [|c rest IH]; intros seen1 seen2 H; simpl.
  - reflexivity.
  - assert (E : existsb (fun x => if cell_eq_dec c x then true else false) seen1
                = existsb (fun x => if cell_eq_dec c x then true else false) seen2).
    { destruct (existsb _ seen1) eqn:E1; destruct (existsb _ seen2) eqn:E2;
        try reflexivity.
      - apply seen_spec, (H c (or_introl eq_refl)), seen_spec in E1. congruence.
      - apply seen_spec, (H c (or_introl eq_refl)), seen_spec in E2. congruence. }
    rewrite E. destruct (existsb _ seen2).
    + apply IH. intros x Hx. apply H. now right.
    + f_equal. apply IH. intros x Hx. simpl.
      specialize (H x (or_intror Hx)). tauto.
Qed.

Lemma unique_from_filter (q : cell -> bool) (cs seen : list cell) :
  unique_from seen (filter q cs) = filter q (unique_from seen cs).
Proof.
  revert seen. induction cs as [|c rest IH]; intros seen; simpl.
  - reflexivity.
  - destruct (q c) eqn:Q; simpl.
    + destruct (existsb _ seen); simpl; [apply IH|]. rewrite Q. f_equal. apply IH.
    + destruct (existsb _ seen); simpl; [apply IH|]. rewrite Q, <- IH.
      apply unique_from_seen_ext. intros x Hx. simpl. split; [tauto|].
      intros [<-|Hs]; [|exact Hs]. apply filter_In in Hx. destruct Hx as [_ Hx].
      congruence.
Qed.

Lemma site_names_delete (df : DataFrame) (v : cell) :
  map Site_Name (delete_site df v) = filter (fun c => ne_cell c v) (map Site_Name df).
Proof.
  unfold delete_site. induction df as [|r df IH]; simpl; [reflexivity|].
  destruct (ne_cell (Site_Name r) v); simpl; now rewrite IH.
Qed.

Lemma unique_from_app (a b seen : list cell) :
  unique_from seen (a ++ b) = unique_from seen a ++ unique_from (a ++ seen) b.
Proof.
  revert seen. induction a as [|c a IH]; intros seen; simpl.
  - reflexivity.
  - destruct (existsb _ seen) eqn:E.
    + rewrite IH. f_equal. apply unique_from_seen_ext. intros x _.
      rewrite !in_app_iff. simpl. rewrite in_app_iff.
      apply seen_spec in E. split; [tauto|]. intros [<-|H]; tauto.
    + simpl. f_equal. rewrite IH. f_equal. apply unique_from_seen_ext. intros x _.
      rewrite !in_app_iff. simpl. rewrite in_app_iff. tauto.
Qed.

(** The option of a name stands where the name first appears: before it
    come the options of the rows before that row. *)
Lemma site_options_first (before after : DataFrame) (r : Row) :
  ~ In (Site_Name r) (map Site_Name before) ->
  exists later,
    site_options (before ++ r :: after) = site_options before ++ Site_Name r :: later.
Proof.
  intros Hnew. unfold site_options, unique. rewrite map_app, unique_from_app.
  cbn [map unique_from]. rewrite app_nil_r.
  destruct (existsb _ (map Site_Name before)) eqn:E.
  - apply seen_spec in E. contradiction.
  - eexists. reflexivity.
Qed.

(** X13: the select box offers each site name of the frame once, in the order
    of first appearance: the option of a name is preceded by exactly the
    options of the rows before the first row of that name.  Deleting a name
    that the box offers removes at least one row and is saved once;
    afterwards the box offers the other names, in the same order, and no
    longer that one. *)
Theorem delete_selected_option (df : DataFrame) (name : string) :
  In (Str name) (site_options df) ->
  NoDup (site_options df)
  /\ (forall c, In c (site_options df) <-> In c (map Site_Name df))
  /\ (forall before r after,
        df = before ++ r :: after -> ~ In (Site_Name r) (map Site_Name before) ->
        exists later, site_options df = site_options before ++ Site_Name r :: later)
  /\ (exists log,
        delete_selected_site df (Str name) true
        = Completed (delete_site df (Str name)) log
        /\ writes log = 1%nat)
  /\ (total_sites (delete_site df (Str name)) < total_sites df)%nat
  /\ site_options (delete_site df (Str name))
     = filter (fun c => ne_str c name) (site_options df)
  /\ ~ In (Str name) (site_options (delete_site df (Str name))).
Proof.
  intros Hopt.
  assert (Hmem : forall c, In c (site_options df) <-> In c (map Site_Name df)).
  { intros c. unfold site_options, unique. rewrite unique_from_In. simpl. tauto. }
  assert (Hopts : site_options (delete_site df (Str name))
                  = filter (fun c => ne_str c name) (site_options df)).
  { unfold site_options, unique. rewrite site_names_delete. simpl.
    apply unique_from_filter. }
  split; [apply unique_from_NoDup|]. split; [exact Hmem|].
  split; [intros before r after ->; apply site_options_first|].
  split; [eexists; split; reflexivity|]. split; [|split].
  - apply Hmem, in_map_iff in Hopt. destruct Hopt as [r [Hr Hin]].
    unfold total_sites, delete_site. simpl.
    pose proof (filter_length_split (fun x => ne_str (Site_Name x) name) df) as Hsplit.
    assert (Hpos : (0 < List.length
                          (filter (fun x => negb (ne_str (Site_Name x) name)) df))%nat).
    { assert (Hin' : In r (filter (fun x => negb (ne_str (Site_Name x) name)) df)).
      { apply filter_In. split; [exact Hin|]. rewrite Hr. simpl.
        now rewrite String.eqb_refl. }
      destruct (filter (fun x => negb (ne_str (Site_Name x) name)) df);
        [contradiction | simpl; lia]. }
    lia.
  - exact Hopts.
  - rewrite Hopts. intros H. apply filter_In in H. destruct H as [_ H].
    simpl in H. now rewrite String.eqb_refl in H.
Qed.

Lemma delete_selected_option_witness :
  NoDup (site_options seed)
  /\ (forall c, In c (site_options seed) <-> In c (map Site_Name seed))
  /\ (forall before r after,
        seed = before ++ r :: after -> ~ In (Site_Name r) (map Site_Name before) ->
        exists later, site_options seed = site_options before ++ Site_Name r :: later)
  /\ (exists log,
        delete_selected_site seed (Str "Site-C (East)") true
        = Completed (delete_site seed (Str "Site-C (East)")) log
        /\ writes log = 1%nat)
  /\ (total_sites (delete_site seed (Str "Site-C (East)")) < total_sites seed)%nat
  /\ site_options (delete_site seed (Str "Site-C (East)"))
     = filter (fun c => ne_str c "Site-C (East)") (site_options seed)
  /\ ~ In (Str "Site-C (East)") (site_options (delete_site seed (Str "Site-C (East)"))).
Proof.
  apply (delete_selected_option seed "Site-C (East)").
  unfold site_options, unique. simpl. tauto.
Defined.

(** ** Runs of the page *)

(** X14: a run of the page writes the file at most once.  When it writes,
    what it writes is the frame [df] is bound to at the end, and the
    last thing the run does is [st.rerun()]; when it does not write, [df] is the frame that was
    loaded.  A run that raises has written nothing, and a search term that
    does not compile ends the run before the form and the delete button are
    looked at. *)
Theorem page_run_saves_what_it_changes (today : date) (df : DataFrame)
    (inp : page_inputs) :
  (forall filtered df' log,
      site_validation_page today df inp = PageDone filtered df' log ->
      search df (search_term inp) = Shown filtered
      /\ (writes log <= 1)%nat
      /\ (writes log = 0%nat -> df' = df)
      /\ (writes log = 1%nat ->
          exists before, log = before ++ [StRerun] /\ In (SaveData df') before))
  /\ (forall e log, site_validation_page today df inp = PageRaised e log -> log = [])
  /\ (forall e, search df (search_term inp) = SearchRaised e ->
        site_validation_page today df inp = PageRaised e []).
Proof.
  unfold site_validation_page, add_record_form, delete_selected_site.
  split; [|split].
  - intros filtered df' log.
    destruct (search df (search_term inp)) as [shown|e|]; try discriminate.
    destruct (submitted (form inp)); [destruct (truthy (new_site (form inp)));
      [destruct (series_max (map Sr_No df)); [|discriminate]|]|];
      simpl; try destruct (delete_clicked inp); simpl;
      intros H; injection H as <- <- <-;
      (split; [reflexivity|]); cbn;
      (split; [lia|]); (split; [try reflexivity; discriminate|]);
      try discriminate; intros _;
      match goal with
      | |- exists before, [?a; ?b; ?c] = _ /\ _ => exists [a; b]
      | |- exists before, [?a; ?b; ?c; ?d] = _ /\ _ => exists [a; b; c]
      end; (split; [reflexivity | simpl; tauto]).
  - intros e log.
    destruct (search df (search_term inp)) as [shown|e'|]; try discriminate.
    + destruct (submitted (form inp)); [destruct (truthy (new_site (form inp)));
        [destruct (series_max (map Sr_No df))|]|];
        simpl; try destruct (delete_clicked inp); simpl; try discriminate;
        intros H; now injection H as <- <-.
    + intros H. now injection H as <- <-.
  - intros e ->. reflexivity.
Qed.

(** The frame a run ends with: the one loaded, that frame with the new
    record at its end, or that frame without the rows of the selected
    site. *)
Lemma page_run_frames (today : date) (df : DataFrame) (inp : page_inputs)
    (filtered df' : DataFrame) (log : list event) :
  site_validation_page today df inp = PageDone filtered df' log ->
  df' = df
  \/ df' = delete_site df (site_to_delete inp)
  \/ exists m, series_max (map Sr_No df) = Some m
               /\ df' = df ++ [new_data today m (form inp)].
Proof.
  unfold site_validation_page, add_record_form, delete_selected_site.
  destruct (search df (search_term inp)) as [shown|e|]; try discriminate.
  destruct (submitted (form inp)); [destruct (truthy (new_site (form inp)));
    [destruct (series_max (map Sr_No df)) as [m|]; [|discriminate]|]|];
    simpl; try destruct (delete_clicked inp); simpl;
    intros H; injection H as <- <- <-;
    first [ now left | now (right; left) | right; right; exists m; now split ].
Qed.

Lemma sorted_map_filter (p : Row -> bool) (df : DataFrame) :
  StronglySorted Z.lt (map Sr_No df) -> StronglySorted Z.lt (map Sr_No (filter p df)).
Proof.
  induction df as [|r df IH]; simpl; intros H.
  - constructor.
  - inversion H as [|? ? Hs Hall]; subst. destruct (p r); simpl; [|auto].
    constructor; [auto|]. rewrite Forall_forall in *. intros x Hx.
    apply Hall. apply in_map_iff in Hx. destruct Hx as [y [<- Hy]].
    apply filter_In in Hy. apply in_map. tauto.
Qed.

Lemma sorted_snoc (l : list Z) (y : Z) :
  StronglySorted Z.lt l -> Forall (fun x => x < y) l -> StronglySorted Z.lt (l ++ [y]).
Proof.
  induction l as [|a l IH]; simpl; intros Hs Hall.
  - constructor; constructor.
  - inversion Hs as [|? ? Hs' Ha]; subst. inversion Hall as [|? ? Hay Hall']; subst.
    constructor; [auto|]. apply Forall_app. split; [exact Ha|]. constructor; [lia|constructor].
Qed.

Lemma sorted_NoDup (l : list Z) : StronglySorted Z.lt l -> NoDup l.
Proof.
  induction 1 as [|a l _ IH Hall]; constructor; [|exact IH].
  intros Hin. rewrite Forall_forall in Hall. specialize (Hall a Hin). lia.
Qed.

(** X15: serial numbers that grow along the frame keep growing through every
    run of the page: a deletion leaves the order of the rows, and a new
    record comes last with a serial above all others (as long as the serials
    stay below the largest [int64]).  Growing serials are pairwise
    different. *)
Theorem page_run_keeps_serials_increasing (today : date) (df : DataFrame)
    (inp : page_inputs) (filtered df' : DataFrame) (log : list event) :
  int64_frame df -> serials_increase df ->
  (forall r, In r df -> Sr_No r < int64_max) ->
  site_validation_page today df inp = PageDone filtered df' log ->
  int64_frame df' /\ serials_increase df' /\ NoDup (map Sr_No df').
Proof.
  intros Hint Hsorted Hbound Hrun.
  assert (H : int64_frame df' /\ serials_increase df').
  { destruct (page_run_frames today df inp filtered df' log Hrun)
      as [->|[->|[m [Hm ->]]]].
    - auto.
    - split; [now apply int64_frame_filter | now apply sorted_map_filter].
    - pose proof (series_max_Some _ _ Hm) as [Hin Hall].
      apply in_map_iff in Hin. destruct Hin as [r [Hr Hr_in]].
      pose proof (Hbound r Hr_in) as Hlt. rewrite Hr in Hlt.
      pose proof (series_max_in_int64 df m Hint Hm) as Hm64.
      assert (Hs : Sr_No (new_data today m (form inp)) = m + 1).
      { simpl. apply wrap64_id. unfold in_int64, int64_min, int64_max in *. lia. }
      split.
      + unfold int64_frame. apply Forall_app. split; [exact Hint|].
        constructor; [|constructor]. rewrite Hs.
        unfold in_int64, int64_min, int64_max in *. lia.
      + unfold serials_increase. rewrite map_app. cbn [map]. rewrite Hs.
        apply sorted_snoc; [exact Hsorted|].
        eapply Forall_impl; [|exact Hall]. simpl. intros a Ha. lia. }
  destruct H as [H1 H2]. split; [exact H1|]. split; [exact H2|].
  now apply sorted_NoDup.
Qed.

Lemma page_run_keeps_serials_increasing_witness :
  int64_frame
    (seed ++ [mkRow 6 (Str "Site-F") (Str "Pending") (Str "None") (Str "WMS-1")
                (Str "No Issues") (Str "2026-11-03")])
  /\ serials_increase
       (seed ++ [mkRow 6 (Str "Site-F") (Str "Pending") (Str "None") (Str "WMS-1")
                   (Str "No Issues") (Str "2026-11-03")])
  /\ NoDup (map Sr_No
              (seed ++ [mkRow 6 (Str "Site-F") (Str "Pending") (Str "None") (Str "WMS-1")
                          (Str "No Issues") (Str "2026-11-03")])).
Proof.
  apply (page_run_keeps_serials_increasing (mkDate 2026 11 3) seed
           (mkInputs "north" (mkForm "Site-F" "Pending" "WMS-1" "" "" true)
              (Str "Site-A (North)") false)
           [seed_row 1 "Site-A (North)" "Validated" "Temp Sensor" "WMS-1"
              "Calibration Drift" "2023-01-15";
            seed_row 5 "Site-E (North)" "Pending" "None" "WMS-1" "No Issues" "2023-05-12"]
           (seed ++ [mkRow 6 (Str "Site-F") (Str "Pending") (Str "None") (Str "WMS-1")
                       (Str "No Issues") (Str "2026-11-03")])
           [SaveData
              (seed ++ [mkRow 6 (Str "Site-F") (Str "Pending") (Str "None") (Str "WMS-1")
                          (Str "No Issues") (Str "2026-11-03")]);
            StSuccess "Record for Site-F saved successfully!"; StRerun]).
  - exact int64_frame_seed.
  - unfold serials_increase. simpl. repeat constructor.
  - intros r Hin. simpl in Hin.
    repeat (destruct Hin as [<-|Hin]; [reflexivity|]). contradiction.
  - vm_compute. reflexivity.
Defined.

(** X16: at the top of the [int64] range the sum wraps around: when the
    largest serial is [2^63 - 1] the new record gets [-2^63], which is not
    above any serial of the frame. *)
Theorem add_record_serial_wraps_at_max (today : date) (df : DataFrame) (f : Form) :
  submitted f = true -> new_site f <> EmptyString -> int64_frame df ->
  series_max (map Sr_No df) = Some int64_max ->
  exists r log,
    add_record_form today df f = Completed (df ++ [r]) log
    /\ Sr_No r = int64_min
    /\ Forall (fun x => Sr_No r <= Sr_No x) df.
Proof.
  intros Hsub Hsite Hint Hm. apply truthy_true in Hsite.
  exists (new_data today int64_max f). eexists.
  unfold add_record_form. rewrite Hsub, Hsite, Hm. split; [reflexivity|].
  split; [reflexivity|]. change (Sr_No (new_data today int64_max f)) with int64_min.
  eapply Forall_impl; [|exact Hint]. intros r [Hr _]. exact Hr.
Qed.

Lemma add_record_serial_wraps_at_max_witness :
  exists r log,
    add_record_form (mkDate 2026 11 3)
      [seed_row int64_max "Site-Z" "Failed" "None" "WMS-1" "No Issues" "2023-01-15"]
      (mkForm "Site-F" "Pending" "WMS-1" "" "" true)
    = Completed
        ([seed_row int64_max "Site-Z" "Failed" "None" "WMS-1" "No Issues" "2023-01-15"]
         ++ [r]) log
    /\ Sr_No r = int64_min
    /\ Forall (fun x => Sr_No r <= Sr_No x)
         [seed_row int64_max "Site-Z" "Failed" "None" "WMS-1" "No Issues" "2023-01-15"].
Proof.
  apply (add_record_serial_wraps_at_max (mkDate 2026 11 3)
           [seed_row int64_max "Site-Z" "Failed" "None" "WMS-1" "No Issues" "2023-01-15"]
           (mkForm "Site-F" "Pending" "WMS-1" "" "" true)).
  - reflexivity.
  - discriminate.
  - repeat constructor; vm_compute; discriminate.
  - reflexivity.
Defined.

(** X17: the empty frame is a dead end.  The file of a frame without rows
    loads as a frame without rows; on it the search shows nothing, the
    select box has no option, no run of the page leaves [df] with a row, and
    every submission of the form with a site name raises. *)
Theorem empty_table_is_a_dead_end (today : date) (inp : page_inputs) :
  loaded_frame (fst (load_data (Some (save_data [])))) = Some []
  /\ site_options [] = []
  /\ (forall filtered df' log,
        site_validation_page today [] inp = PageDone filtered df' log ->
        filtered = [] /\ df' = [])
  /\ (submitted (form inp) = true -> new_site (form inp) <> EmptyString ->
      site_validation_page today [] inp
      = PageRaised (ValueError "cannot convert float NaN to integer") []).
Proof.
  assert (Hsearch : search [] (search_term inp) = Shown []).
  { unfold search. destruct (truthy (search_term inp)); reflexivity. }
  split; [vm_compute; reflexivity|]. split; [reflexivity|]. split.
  - intros filtered df' log Hrun.
    pose proof (page_run_frames today [] inp filtered df' log Hrun) as Hdf.
    split.
    + unfold site_validation_page in Hrun. rewrite Hsearch in Hrun.
      destruct (add_record_form today [] (form inp)) as [df1 log1|e]; [|discriminate].
      destruct (existsb is_rerun log1); [now injection Hrun as <- _ _|].
      destruct (delete_selected_site df1 (site_to_delete inp) (delete_clicked inp));
        [now injection Hrun as <- _ _ | discriminate].
    + destruct Hdf as [->|[->|[m [Hm _]]]]; [reflexivity | reflexivity | discriminate].
  - intros Hsub Hsite. apply truthy_true in Hsite.
    unfold site_validation_page, add_record_form.
    now rewrite Hsearch, Hsub, Hsite.
Qed.

(** ** Finding the record that was added *)

Lemma search_plain_filter (df : DataFrame) (term : string) :
  term <> EmptyString -> plain term = true ->
  search df term = Shown (filter (row_contains term) df).
Proof.
  intros Hne Hp. unfold search. apply truthy_true in Hne. rewrite Hne.
  destruct df as [|r0 df0]; [reflexivity|].
  rewrite (re_compile_plain term Hp). f_equal. apply filter_ext. intros r.
  unfold row_contains. apply existsb_pointwise. intros field. apply re_search_plain.
Qed.

Lemma is_prefix_refl (s : string) : is_prefix s s = true.
Proof. induction s as [|c s IH]; simpl; [reflexivity|]. now rewrite Ascii.eqb_refl. Qed.

Lemma contains_refl (s : string) : contains s s = true.
Proof. destruct s; simpl; [reflexivity|]. now rewrite Ascii.eqb_refl, is_prefix_refl. Qed.

(** ** What comes back from the file *)

Lemma convert_no_marker (d : dtype) (s : string) (c : cell) :
  cell_of_value (convert d s) = Some c -> no_marker c.
Proof.
  unfold convert. destruct (is_na s) eqn:E; simpl.
  - intros H. injection H as <-. exact I.
  - destruct d; simpl.
    + destruct (parse_int64 s); discriminate.
    + intros H. injection H as <-. exact E.
    + discriminate.
Qed.

Lemma row_of_values_no_marker (g : nat -> dtype) (h : nat -> string) (r : Row) :
  row_of_values (map (fun i => convert (g i) (h i)) (seq 0 (List.length header))) = Some r ->
  Forall no_marker (text_cells r).
Proof.
  cbn [List.length header seq map]. unfold row_of_values.
  destruct (convert (g 0%nat) (h 0%nat)); try discriminate.
  destruct (cell_of_value (convert (g 1%nat) (h 1%nat))) eqn:E1; [|discriminate].
  destruct (cell_of_value (convert (g 2%nat) (h 2%nat))) eqn:E2; [|discriminate].
  destruct (cell_of_value (convert (g 3%nat) (h 3%nat))) eqn:E3; [|discriminate].
  destruct (cell_of_value (convert (g 4%nat) (h 4%nat))) eqn:E4; [|discriminate].
  destruct (cell_of_value (convert (g 5%nat) (h 5%nat))) eqn:E5; [|discriminate].
  destruct (cell_of_value (convert (g 6%nat) (h 6%nat))) eqn:E6; [|discriminate].
  intros H. injection H as <-. unfold text_cells. simpl.
  repeat constructor; eapply convert_no_marker; eassumption.
Qed.

Lemma frame_of_rows_In (rows : list (list value)) (df : DataFrame) (r : Row) :
  frame_of_rows rows = Some df -> In r df ->
  exists vs, In vs rows /\ row_of_values vs = Some r.
Proof.
  revert df. induction rows as [|vs rows IH]; simpl; intros df H Hin.
  - injection H as <-. contradiction.
  - destruct (row_of_values vs) as [r0|] eqn:E; [|discriminate].
    destruct (frame_of_rows rows) as [df0|]; [|discriminate].
    injection H as <-. destruct Hin as [<-|Hin].
    + exists vs. split; [now left | exact E].
    + destruct (IH df0 eq_refl Hin) as [vs' [Hvs Hr]]. exists vs'. split; [now right | exact Hr].
Qed.

Lemma read_csv_no_marker (text : string) (df : DataFrame) (r : Row) :
  loaded_frame (read_csv text) = Some df -> In r df -> Forall no_marker (text_cells r).
Proof.
  unfold read_csv. destruct (tokenize text) as [[|names rows]|]; try discriminate.
  destruct (negb (list_eqb names header)); [discriminate|].
  destruct rows as [|first rest].
  - simpl. intros H. injection H as <-. contradiction.
  - destruct (List.length header <? List.length first)%nat; [discriminate|].
    destruct (forallb _ (first :: rest)); [|discriminate].
    unfold loaded_frame. intros Hf Hin.
    destruct (frame_of_rows_In _ _ _ Hf Hin) as [vs [Hvs Hr]].
    unfold convert_rows in Hvs. apply in_map_iff in Hvs. destruct Hvs as [fs [<- _]].
    eapply row_of_values_no_marker. exact Hr.
Qed.

Lemma load_data_reads (file : option string) :
  exists text, fst (load_data file) = read_csv text.
Proof.
  destruct file as [text|].
  - exists text. reflexivity.
  - exists (to_csv seed). reflexivity.
Qed.

(** X19: a frame that was loaded holds no text that the reader takes for a
    missing value, whatever the file: such a field is [nan] in the frame.
    ["None"] is one of those texts, so no row of a loaded frame has the
    sensor ["None"], and the filter of the issue charts keeps every row. *)
Theorem loaded_frame_holds_no_marker (file : option string) (df : DataFrame) :
  loaded_frame (fst (load_data file)) = Some df ->
  (forall r, In r df -> Forall no_marker (text_cells r))
  /\ (forall r, In r df -> Issue_Sensors r <> Str "None")
  /\ issue_df df = df.
Proof.
  intros Hload.
  assert (Hall : forall r, In r df -> Forall no_marker (text_cells r)).
  { intros r Hr. destruct (load_data_reads file) as [text Htext].
    rewrite Htext in Hload. exact (read_csv_no_marker text df r Hload Hr). }
  assert (Hsensor : forall r, In r df -> Issue_Sensors r <> Str "None").
  { intros r Hr Heq. specialize (Hall r Hr). rewrite Forall_forall in Hall.
    assert (Hm : no_marker (Issue_Sensors r)).
    { apply Hall. unfold text_cells. simpl. tauto. }
    rewrite Heq in Hm. simpl in Hm. discriminate Hm. }
  split; [exact Hall|]. split; [exact Hsensor|].
  unfold issue_df. apply filter_all. intros r Hr. apply ne_str_true. now apply Hsensor.
Qed.

Lemma loaded_frame_holds_no_marker_witness :
  (forall r, In r (map read_back_row seed) -> Forall no_marker (text_cells r))
  /\ (forall r, In r (map read_back_row seed) -> Issue_Sensors r <> Str "None")
  /\ issue_df (map read_back_row seed) = map read_back_row seed.
Proof.
  apply (loaded_frame_holds_no_marker None (map read_back_row seed)).
  vm_compute. reflexivity.
Defined.

Lemma infer_dtype_back (col : list cell) (s : string) :
  stays_text col -> In (Str s) col -> is_na s = false ->
  infer_dtype (map csv_cell col) = Object.
Proof.
  intros [_ [Hclean [Hall|[[s1 [H1 [M1 N1]]] [s2 [H2 [M2 N2]]]]]]] Hin Hs.
  - rewrite (Hall s Hin) in Hs. discriminate.
  - unfold infer_dtype. destruct (map csv_cell col) as [|x l] eqn:E.
    + reflexivity.
    + rewrite <- E. apply orb_false_elim in N1. destruct N1 as [N1i N1f].
      rewrite (int_pass_no_overflow col) by (intros t Ht; now apply Hclean).
      rewrite (forallb_false_witness _ _ s1).
      * rewrite (forallb_false_witness _ _ s1).
        -- rewrite (forallb_false_witness _ _ s2); [reflexivity| |].
           ++ change s2 with (csv_cell (Str s2)). now apply in_map.
           ++ now rewrite M2, N2.
        -- change s1 with (csv_cell (Str s1)). now apply in_map.
        -- now rewrite M1, N1f.
      * change s1 with (csv_cell (Str s1)). now apply in_map.
      * now rewrite N1i, andb_false_r.
Qed.

Lemma convert_back (col : list cell) (c : cell) :
  stays_text col -> In c col ->
  convert (infer_dtype (map csv_cell col)) (csv_cell c) = value_of_cell (read_back c).
Proof.
  intros Hk Hin. destruct c as [s|]; simpl.
  - unfold convert. destruct (is_na s) eqn:E; [reflexivity|].
    now rewrite (infer_dtype_back col s Hk Hin E).
  - reflexivity.
Qed.

Lemma has_cr_cell_back (col : list cell) (c : cell) :
  stays_text col -> In c col -> has_cr (csv_cell c) = false.
Proof.
  intros [Hcr _] Hin. destruct c as [s|]; [|reflexivity]. now apply Hcr.
Qed.

Lemma tokenize_to_csv_back (df : DataFrame) :
  reads_back df -> tokenize (to_csv df) = Some (header :: map row_fields df).
Proof.
  intros [_ [_ [K1 [K2 [K3 [K4 [K5 K6]]]]]]].
  unfold to_csv. apply tokenize_file. constructor; [split; reflexivity|].
  apply Forall_forall. intros fs Hfs. apply in_map_iff in Hfs.
  destruct Hfs as [r [<- Hr]]. split; [apply starts_record_str_of_int|].
  unfold cr_free, row_fields. cbn [forallb].
  rewrite has_cr_str_of_int.
  rewrite (has_cr_cell_back _ _ K1 (in_map Site_Name df r Hr)).
  rewrite (has_cr_cell_back _ _ K2 (in_map Validation_Report df r Hr)).
  rewrite (has_cr_cell_back _ _ K3 (in_map Issue_Sensors df r Hr)).
  rewrite (has_cr_cell_back _ _ K4 (in_map WMS_Type df r Hr)).
  rewrite (has_cr_cell_back _ _ K5 (in_map Issue_Description df r Hr)).
  rewrite (has_cr_cell_back _ _ K6 (in_map Date_Logged df r Hr)).
  reflexivity.
Qed.

Lemma convert_rows_back (df : DataFrame) :
  reads_back df ->
  convert_rows (map row_fields df) = map row_values (map read_back_row df).
Proof.
  intros [Hint [_ [K1 [K2 [K3 [K4 [K5 K6]]]]]]].
  unfold convert_rows, column. rewrite map_map. cbn [seq List.length header map nth].
  rewrite !map_map. cbn [row_fields nth].
  apply map_ext_in. intros r Hr. unfold row_values, read_back_row.
  cbn [Sr_No Site_Name Validation_Report Issue_Sensors WMS_Type Issue_Description
       Date_Logged].
  rewrite (convert_serial df r Hint Hr).
  rewrite <- (map_map Site_Name csv_cell), <- (map_map Validation_Report csv_cell),
    <- (map_map Issue_Sensors csv_cell), <- (map_map WMS_Type csv_cell),
    <- (map_map Issue_Description csv_cell), <- (map_map Date_Logged csv_cell).
  rewrite (convert_back _ _ K1 (in_map Site_Name df r Hr)).
  rewrite (convert_back _ _ K2 (in_map Validation_Report df r Hr)).
  rewrite (convert_back _ _ K3 (in_map Issue_Sensors df r Hr)).
  rewrite (convert_back _ _ K4 (in_map WMS_Type df r Hr)).
  rewrite (convert_back _ _ K5 (in_map Issue_Description df r Hr)).
  rewrite (convert_back _ _ K6 (in_map Date_Logged df r Hr)).
  reflexivity.
Qed.

Lemma read_csv_to_csv_back (df : DataFrame) :
  reads_back df -> read_csv (to_csv df) = Loaded (map row_values (map read_back_row df)).
Proof.
  intros Hrb. unfold read_csv. rewrite (tokenize_to_csv_back df Hrb).
  change (list_eqb header header) with true. cbn [negb].
  destruct df as [|r df'] eqn:E.
  - reflexivity.
  - rewrite <- E in *. replace (map row_fields df) with (row_fields r :: map row_fields df')
      by (rewrite E; reflexivity).
    change (List.length header <? List.length (row_fields r))%nat with false. cbn iota.
    replace (row_fields r :: map row_fields df') with (map row_fields df)
      by (rewrite E; reflexivity).
    assert (Hlen : forallb (fun fs => (List.length fs <=? List.length header)%nat)
                     (map row_fields df) = true).
    { apply forallb_forall. intros fs Hfs. apply in_map_iff in Hfs.
      destruct Hfs as [x [<- _]]. reflexivity. }
    rewrite Hlen. now rewrite convert_rows_back.
Qed.

Lemma frame_of_row_values (df : DataFrame) : frame_of_rows (map row_values df) = Some df.
Proof.
  induction df as [|r df IH]; simpl; [reflexivity|]. rewrite IH.
  destruct r as [n c1 c2 c3 c4 c5 c6].
  destruct c1, c2, c3, c4, c5, c6; reflexivity.
Qed.

Lemma read_back_idem (c : cell) : read_back (read_back c) = read_back c.
Proof.
  destruct c as [s|]; simpl; [|reflexivity].
  destruct (is_na s) eqn:E; simpl; [reflexivity | now rewrite E].
Qed.

Lemma read_back_row_idem (r : Row) : read_back_row (read_back_row r) = read_back_row r.
Proof. unfold read_back_row. simpl. now rewrite !read_back_idem. Qed.

Lemma read_back_In (col : list cell) (s : string) :
  In (Str s) (map read_back col) <-> In (Str s) col /\ is_na s = false.
Proof.
  rewrite in_map_iff. split.
  - intros [c [Hc Hin]]. destruct c as [t|]; simpl in Hc; [|discriminate].
    destruct (is_na t) eqn:E; [discriminate|]. injection Hc as ->. auto.
  - intros [Hin E]. exists (Str s). simpl. now rewrite E.
Qed.

Lemma stays_text_back (col : list cell) : stays_text col -> keeps_text (map read_back col).
Proof.
  intros [Hcr [Hclean Hcases]]. split; [|split].
  - intros s Hs. apply read_back_In in Hs. destruct Hs as [Hin E]. auto.
  - intros s Hs. apply read_back_In in Hs. destruct Hs as [Hin E]. auto.
  - destruct Hcases as [Hall|[[s1 [H1 [M1 N1]]] [s2 [H2 [M2 N2]]]]].
    + left. intros s Hs. apply read_back_In in Hs. destruct Hs as [Hin E].
      rewrite (Hall s Hin) in E. discriminate.
    + right. split; [exists s1 | exists s2]; (split; [now apply read_back_In | assumption]).
Qed.

Lemma keeps_text_stays (col : list cell) : keeps_text col -> stays_text col.
Proof.
  intros [Hna [Hclean Hcases]]. split; [|split].
  - intros s Hs. now apply Hna.
  - exact Hclean.
  - destruct Hcases as [Hnone|[[s1 [H1 N1]] [s2 [H2 N2]]]].
    + left. intros s Hs. exfalso. now apply (Hnone s).
    + right. split; [exists s1 | exists s2]; (split; [assumption|]);
        (split; [now apply Hna | assumption]).
Qed.

Lemma reads_back_stable (df : DataFrame) : reads_back df -> reads_back (map read_back_row df).
Proof.
  intros [Hint [Hone [K1 [K2 [K3 [K4 [K5 K6]]]]]]]. unfold reads_back.
  rewrite !map_map. cbn [read_back_row Site_Name Validation_Report Issue_Sensors WMS_Type
                         Issue_Description Date_Logged].
  rewrite <- (map_map Site_Name read_back), <- (map_map Validation_Report read_back),
    <- (map_map Issue_Sensors read_back), <- (map_map WMS_Type read_back),
    <- (map_map Issue_Description read_back), <- (map_map Date_Logged read_back).
  split; [|split].
  - unfold int64_frame in *. rewrite Forall_forall in *. intros r Hr.
    apply in_map_iff in Hr. destruct Hr as [x [<- Hx]]. apply (Hint x Hx).
  - unfold one_piece in *. now rewrite length_map.
  - repeat (match goal with |- _ /\ _ => split end);
      apply keeps_text_stays, stays_text_back; assumption.
Qed.

Lemma read_back_no_marker (c : cell) : no_marker c -> read_back c = c.
Proof. destruct c as [s|]; simpl; [intros ->|]; reflexivity. Qed.

(** X20: what a saved frame is when it is loaded again: the same rows in the
    same order with the same serial numbers, each text that is one of the
    reader's markers of a missing value replaced by [nan], every other cell
    as it was.  The frame that comes back is then stable: saved and loaded
    once more, it comes back as it is.  This holds when the serial numbers
    are [int64] values, the frame is small enough for the reader to type its
    columns in one piece, no text holds a carriage return or a NUL or starts
    with an integer beyond [int64], and every text column has, among its
    texts that are not markers, one that does not read as a number and one
    that does not read as a boolean (or none at all). *)
Theorem save_then_load_reads_back (df : DataFrame) :
  reads_back df ->
  loaded_frame (fst (load_data (Some (save_data df)))) = Some (map read_back_row df)
  /\ loaded_frame (fst (load_data (Some (save_data (map read_back_row df)))))
     = Some (map read_back_row df)
  /\ map Sr_No (map read_back_row df) = map Sr_No df
  /\ ((forall r, In r df -> Forall no_marker (text_cells r)) ->
      map read_back_row df = df).
Proof.
  intros Hrb. cbn [load_data fst]. unfold save_data.
  split; [|split; [|split]].
  - rewrite (read_csv_to_csv_back df Hrb). apply frame_of_row_values.
  - rewrite (read_csv_to_csv_back _ (reads_back_stable df Hrb)).
    cbn [loaded_frame]. rewrite frame_of_row_values. f_equal.
    rewrite map_map. apply map_ext. intros r. apply read_back_row_idem.
  - rewrite map_map. reflexivity.
  - intros Hall. rewrite <- (map_id df) at 2. apply map_ext_in. intros r Hr.
    specialize (Hall r Hr). unfold text_cells in Hall.
    repeat match goal with
           | H : Forall _ (_ :: _) |- _ => inversion H; subst; clear H
           end.
    destruct r as [n c1 c2 c3 c4 c5 c6]. unfold read_back_row. simpl in *.
    now rewrite !read_back_no_marker.
Qed.

Lemma save_then_load_reads_back_witness :
  loaded_frame (fst (load_data (Some (save_data seed)))) = Some (map read_back_row seed)
  /\ loaded_frame (fst (load_data (Some (save_data (map read_back_row seed)))))
     = Some (map read_back_row seed)
  /\ map Sr_No (map read_back_row seed) = map Sr_No seed
  /\ ((forall r, In r seed -> Forall no_marker (text_cells r)) ->
      map read_back_row seed = seed).
Proof.
  apply (save_then_load_reads_back seed).
  assert (K : forall g : Row -> cell,
             (forall s, In (Str s) (map g seed) -> has_cr s = false) ->
             (forall s, In (Str s) (map g seed) ->
                        has_nul s = false /\ overflows s = false) ->
             (exists s, In (Str s) (map g seed)
                        /\ is_na s = false /\ reads_as_number s = false) ->
             (exists s, In (Str s) (map g seed) /\ is_na s = false /\ bool_like s = false) ->
             stays_text (map g seed)).
  { intros g H1 H2 H3 H4. split; [exact H1 | split; [exact H2 | right; split; assumption]]. }
  unfold reads_back. split; [|split].
  - exact int64_frame_seed.
  - unfold one_piece. simpl. lia.
  - repeat (match goal with |- _ /\ _ => split end);
      apply K;
      try (intros s Hs; simpl in Hs;
           repeat (destruct Hs as [Hs|Hs];
                   [injection Hs as <-; first [reflexivity | split; reflexivity]|]);
           contradiction);
      eexists; (split; [left; reflexivity | split; reflexivity]).
Defined.

(** ** The search, row by row and whatever the case of the term *)

Lemma search_pattern (df : DataFrame) (term : string) (r : regex) :
  term <> EmptyString -> re_compile term = Pattern r ->
  search df term = Shown (filter (fun row => existsb (re_search r) (row_text row)) df).
Proof.
  intros Hne Hc. unfold search. apply truthy_true in Hne. rewrite Hne.
  destruct df; [reflexivity|]. now rewrite Hc.
Qed.

(** X21: the search looks at each row by itself: the rows shown for a frame
    are those shown for its first part followed by those shown for the rest,
    and searching the rows shown for the same term shows them all again. *)
Theorem search_row_by_row (df1 df2 : DataFrame) (term : string) (shown : DataFrame) :
  search (df1 ++ df2) term = Shown shown ->
  exists shown1 shown2,
    search df1 term = Shown shown1
    /\ search df2 term = Shown shown2
    /\ shown = shown1 ++ shown2
    /\ search shown term = Shown shown.
Proof.
  intros H. destruct term as [|c t].
  - exists df1, df2. unfold search in *. simpl in *. injection H as <-. auto.
  - destruct (df1 ++ df2) as [|r0 rest] eqn:E.
    + apply app_eq_nil in E. destruct E as [-> ->]. unfold search in *. simpl in *.
      injection H as <-. exists [], []. auto.
    + rewrite <- E in H. destruct (re_compile (String c t)) as [r|msg|] eqn:Hc.
      * assert (Hs : forall df, search df (String c t)
                       = Shown (filter (fun row => existsb (re_search r) (row_text row)) df)).
        { intros df. apply search_pattern; [discriminate | exact Hc]. }
        rewrite Hs in H. injection H as <-. rewrite !Hs.
        eexists. eexists. split; [reflexivity|]. split; [reflexivity|].
        split; [apply filter_app|]. now rewrite filter_idem.
      * unfold search in H. rewrite E, Hc in H. discriminate.
      * unfold search in H. rewrite E, Hc in H. discriminate.
Qed.

Lemma search_row_by_row_witness :
  exists shown1 shown2,
    search (firstn 2 seed) "wms-1" = Shown shown1
    /\ search (skipn 2 seed) "wms-1" = Shown shown2
    /\ filter (row_contains "wms-1") seed = shown1 ++ shown2
    /\ search (filter (row_contains "wms-1") seed) "wms-1"
       = Shown (filter (row_contains "wms-1") seed).
Proof.
  apply (search_row_by_row (firstn 2 seed) (skipn 2 seed) "wms-1"
           (filter (row_contains "wms-1") seed)).
  vm_compute. reflexivity.
Defined.

Lemma to_lower_idem (c : ascii) : to_lower (to_lower c) = to_lower c.
Proof. destruct c as [[] [] [] [] [] [] [] []]; reflexivity. Qed.

Lemma to_lower_syntax (c : ascii) :
  Ascii.eqb (to_lower c) "(" = Ascii.eqb c "("
  /\ Ascii.eqb (to_lower c) ")" = Ascii.eqb c ")"
  /\ Ascii.eqb (to_lower c) "|" = Ascii.eqb c "|"
  /\ Ascii.eqb (to_lower c) "*" = Ascii.eqb c "*"
  /\ Ascii.eqb (to_lower c) "+" = Ascii.eqb c "+"
  /\ Ascii.eqb (to_lower c) "?" = Ascii.eqb c "?"
  /\ Ascii.eqb (to_lower c) "." = Ascii.eqb c "."
  /\ Ascii.eqb (to_lower c) "\" = Ascii.eqb c "\"
  /\ Ascii.eqb (to_lower c) "^" = Ascii.eqb c "^"
  /\ Ascii.eqb (to_lower c) "$" = Ascii.eqb c "$"
  /\ Ascii.eqb (to_lower c) "[" = Ascii.eqb c "["
  /\ Ascii.eqb (to_lower c) "{" = Ascii.eqb c "{".
Proof. destruct c as [[] [] [] [] [] [] [] []]; repeat split. Qed.

Lemma is_repeat_to_lower (c : ascii) : is_repeat (to_lower c) = is_repeat c.
Proof.
  unfold is_repeat. destruct (to_lower_syntax c) as (_ & _ & _ & -> & -> & -> & _).
  reflexivity.
Qed.

Lemma nullable_fold (r : regex) : nullable (fold_regex r) = nullable r.
Proof. induction r; simpl; congruence. Qed.

Lemma deriv_fold (c : ascii) (r : regex) :
  deriv c (fold_regex r) = fold_regex (deriv c r).
Proof.
  induction r as [| |a| |r1 IH1 r2 IH2|r1 IH1 r2 IH2|r1 IH1]; simpl;
    try reflexivity.
  - unfold ci_eqb. rewrite to_lower_idem. now destruct (Ascii.eqb (to_lower a) (to_lower c)).
  - now destruct (Ascii.eqb c newline).
  - rewrite nullable_fold, IH1, IH2. now destruct (nullable r1).
  - now rewrite IH1, IH2.
  - now rewrite IH1.
Qed.

Lemma match_prefix_fold (r : regex) (s : string) :
  match_prefix (fold_regex r) s = match_prefix r s.
Proof.
  revert r. induction s as [|c s IH]; intros r; simpl.
  - now rewrite nullable_fold.
  - now rewrite nullable_fold, deriv_fold, IH.
Qed.

Lemma re_search_fold (r : regex) (s : string) :
  re_search (fold_regex r) s = re_search r s.
Proof.
  induction s as [|c s IH]; cbn [re_search].
  - now rewrite match_prefix_fold.
  - now rewrite match_prefix_fold, IH.
Qed.

Lemma seq_of_fold (l : list regex) : seq_of (map fold_regex l) = fold_regex (seq_of l).
Proof.
  unfold seq_of. change Eps with (fold_regex Eps) at 1. generalize Eps.
  induction l as [|x l IH]; intros acc; simpl; [reflexivity|].
  now rewrite <- IH.
Qed.

Lemma close_fold (f : frame) : close (fold_frame f) = fold_regex (close f).
Proof.
  unfold close, fold_frame. cbn [branches items]. rewrite seq_of_fold.
  generalize (seq_of (items f)). induction (branches f) as [|b l IH]; intros acc; simpl.
  - reflexivity.
  - now rewrite <- IH.
Qed.

Lemma repeat_of_fold (c : ascii) (x : regex) :
  repeat_of (to_lower c) (fold_regex x) = fold_regex (repeat_of c x).
Proof.
  unfold repeat_of. destruct (to_lower_syntax c) as (_ & _ & _ & -> & -> & _).
  destruct (Ascii.eqb c "*"); [reflexivity|]. now destruct (Ascii.eqb c "+").
Qed.

Lemma parse_fold (pat : string) (cur : frame) (stack : list frame) :
  parse (casefold pat) (fold_frame cur) (map fold_frame stack)
  = fold_compiled (parse pat cur stack).
Proof.
  revert cur stack. induction pat as [|c rest IH]; intros cur stack.
  - simpl. destruct stack; simpl; [now rewrite close_fold | reflexivity].
  - cbn [casefold parse].
    destruct (to_lower_syntax c) as (-> & -> & -> & _ & _ & _ & -> & _).
    rewrite is_repeat_to_lower.
    destruct (Ascii.eqb c "(").
    { apply (IH empty_frame (cur :: stack)). }
    destruct (Ascii.eqb c ")").
    { destruct stack as [|parent stack']; [reflexivity|]. cbn [map].
      rewrite close_fold. apply (IH (push (close cur) parent) stack'). }
    destruct (Ascii.eqb c "|").
    { rewrite <- (IH (mkFrame (seq_of (items cur) :: branches cur) [] false) stack).
      unfold fold_frame. cbn [branches items repeated map]. now rewrite seq_of_fold. }
    destruct (is_repeat c).
    { unfold fold_frame at 1 2. cbn [items repeated].
      destruct (items cur) as [|x xs] eqn:Ei; [reflexivity|]. cbn [map].
      destruct (repeated cur); [reflexivity|].
      rewrite <- (IH (mkFrame (branches cur) (repeat_of c x :: xs) true) stack).
      unfold fold_frame. cbn [branches items repeated map]. now rewrite repeat_of_fold. }
    rewrite <- (IH (push (if Ascii.eqb c "." then Dot else Chr c) cur) stack).
    unfold push, fold_frame. cbn [branches items repeated map].
    now destruct (Ascii.eqb c ".").
Qed.

Lemma outside_model_to_lower (prev : option ascii) (c : ascii) :
  outside_model (option_map to_lower prev) (to_lower c) = outside_model prev c.
Proof.
  unfold outside_model.
  destruct (to_lower_syntax c) as (_ & _ & _ & _ & Hplus & Hq & _ & -> & -> & -> & -> & ->).
  rewrite Hplus, Hq. destruct prev as [p|]; simpl; [|reflexivity].
  rewrite is_repeat_to_lower.
  destruct (to_lower_syntax p) as (-> & _). reflexivity.
Qed.

Lemma modelled_fold (prev : option ascii) (pat : string) :
  modelled (option_map to_lower prev) (casefold pat) = modelled prev pat.
Proof.
  revert prev. induction pat as [|c rest IH]; intros prev; simpl; [reflexivity|].
  rewrite outside_model_to_lower. now rewrite <- (IH (Some c)).
Qed.

Lemma modelled_casefold (pat : string) :
  modelled None (casefold pat) = modelled None pat.
Proof. exact (modelled_fold None pat). Qed.

Lemma re_compile_fold (pat : string) :
  re_compile (casefold pat) = fold_compiled (re_compile pat).
Proof.
  unfold re_compile. rewrite modelled_casefold.
  destruct (modelled None pat); [|reflexivity].
  apply (parse_fold pat empty_frame []).
Qed.

Lemma search_casefold (df : DataFrame) (term : string) :
  search df (casefold term) = search df term.
Proof.
  unfold search. assert (Ht : truthy (casefold term) = truthy term) by now destruct term.
  rewrite Ht. destruct (truthy term); [|reflexivity].
  destruct df as [|r0 df0]; [reflexivity|].
  rewrite re_compile_fold. destruct (re_compile term) as [r|msg|]; cbn [fold_compiled];
    try reflexivity.
  f_equal. apply filter_ext. intros row. apply existsb_pointwise. intros s.
  apply re_search_fold.
Qed.

(** X22: the case of the letters of the term does not matter: two terms of
    the modelled syntax that differ in the case of letters only show the
    same rows, or raise the same error. *)
Theorem search_ignores_case_of_term (df : DataFrame) (t1 t2 : string) :
  modelled None t1 = true -> casefold t1 = casefold t2 ->
  modelled None t2 = true /\ search df t1 = search df t2.
Proof.
  intros Hm Heq. split.
  - rewrite <- modelled_casefold, <- Heq. rewrite modelled_casefold. exact Hm.
  - rewrite <- (search_casefold df t1), <- (search_casefold df t2). now rewrite Heq.
Qed.

Lemma search_ignores_case_of_term_witness :
  modelled None "wms-(1|x)" = true
  /\ search seed "WMS-(1|X)" = search seed "wms-(1|x)".
Proof.
  apply (search_ignores_case_of_term seed "WMS-(1|X)" "wms-(1|x)"); reflexivity.
Defined.

(** X23: a missing cell is text to the search: [astype(str)] turns [nan]
    into ["nan"], so a row with a missing cell is shown for every plain term
    that ["nan"] contains, in either case. *)
Theorem missing_cell_is_found_as_nan (df : DataFrame) (r : Row) (term : string) :
  In r df -> In NaN (text_cells r) ->
  term <> EmptyString -> plain term = true -> contains "nan" (casefold term) = true ->
  exists shown, search df term = Shown shown /\ In r shown.
Proof.
  intros Hin Hnan Hne Hplain Hc. exists (filter (row_contains term) df).
  split; [now apply search_plain_filter|]. apply filter_In. split; [exact Hin|].
  unfold row_contains. apply existsb_exists. exists "nan". split; [|exact Hc].
  unfold text_cells in Hnan. unfold row_text. simpl in Hnan. simpl.
  destruct Hnan as [H|[H|[H|[H|[H|[H|[]]]]]]]; rewrite H; simpl; tauto.
Qed.

Lemma missing_cell_is_found_as_nan_witness :
  exists shown,
    search (map read_back_row seed) "NaN" = Shown shown
    /\ In (read_back_row
             (seed_row 2 "Site-B (South)" "Failed" "None" "WMS-2" "No Issues" "2023-02-20"))
         shown.
Proof.
  apply (missing_cell_is_found_as_nan (map read_back_row seed)
           (read_back_row
              (seed_row 2 "Site-B (South)" "Failed" "None" "WMS-2" "No Issues" "2023-02-20"))
           "NaN").
  - simpl. tauto.
  - vm_compute. tauto.
  - discriminate.
  - reflexivity.
  - reflexivity.
Defined.

(** ** Rows are never edited *)

Lemma subsequence_refl {A : Type} (l : list A) : subsequence l l.
Proof. induction l; now constructor. Qed.

Lemma subsequence_nil {A : Type} (l : list A) : subsequence [] l.
Proof. induction l; now constructor. Qed.

Lemma search_subsequence (df : DataFrame) (term : string) (shown : DataFrame) :
  search df term = Shown shown -> subsequence shown df.
Proof.
  unfold search. destruct (truthy term).
  - destruct df as [|r0 df0].
    + intros H. injection H as <-. constructor.
    + destruct (re_compile term); try discriminate.
      intros H. injection H as <-.
      exact (filter_subsequence (fun row => existsb (re_search r) (row_text row))
               (r0 :: df0)).
  - intros H. injection H as <-. apply subsequence_refl.
Qed.

(** X24: no run of the page edits a row.  The frame at the end of a run
    consists of rows of the loaded frame, in their order, followed by at
    most one new record, which is there only when no row was removed; and
    the rows shown by the search are rows of the loaded frame, in their
    order. *)
Theorem page_run_never_edits_rows (today : date) (df : DataFrame) (inp : page_inputs)
    (filtered df' : DataFrame) (log : list event) :
  site_validation_page today df inp = PageDone filtered df' log ->
  subsequence filtered df
  /\ exists kept added,
       df' = kept ++ added
       /\ subsequence kept df
       /\ (added = []
           \/ (kept = df
               /\ exists m, series_max (map Sr_No df) = Some m
                            /\ added = [new_data today m (form inp)])).
Proof.
  intros Hrun. split.
  - unfold site_validation_page in Hrun.
    destruct (search df (search_term inp)) as [shown|e|] eqn:Hs; try discriminate.
    assert (Hf : filtered = shown).
    { destruct (add_record_form today df (form inp)) as [df1 log1|e]; [|discriminate].
      destruct (existsb is_rerun log1); [now injection Hrun as <- _ _|].
      destruct (delete_selected_site df1 (site_to_delete inp) (delete_clicked inp));
        [now injection Hrun as <- _ _ | discriminate]. }
    subst filtered. now apply (search_subsequence df (search_term inp)).
  - destruct (page_run_frames today df inp filtered df' log Hrun)
      as [->|[->|[m [Hm ->]]]].
    + exists df, []. rewrite app_nil_r. split; [reflexivity|].
      split; [apply subsequence_refl | now left].
    + exists (delete_site df (site_to_delete inp)), []. rewrite app_nil_r.
      split; [reflexivity|]. split; [apply filter_subsequence | now left].
    + exists df, [new_data today m (form inp)]. split; [reflexivity|].
      split; [apply subsequence_refl|]. right. split; [reflexivity|]. now exists m.
Qed.

Lemma page_run_never_edits_rows_witness :
  subsequence (filter (row_contains "north") seed) seed
  /\ exists kept added,
       delete_site seed (Str "Site-C (East)") = kept ++ added
       /\ subsequence kept seed
       /\ (added = []
           \/ (kept = seed
               /\ exists m, series_max (map Sr_No seed) = Some m
                            /\ added
                               = [new_data (mkDate 2026 11 3) m
                                    (mkForm "" "Validated" "WMS-1" "" "" false)])).
Proof.
  apply (page_run_never_edits_rows (mkDate 2026 11 3) seed
           (mkInputs "north" (mkForm "" "Validated" "WMS-1" "" "" false)
              (Str "Site-C (East)") true)
           (filter (row_contains "north") seed)
           (delete_site seed (Str "Site-C (East)"))
           [SaveData (delete_site seed (Str "Site-C (East)"));
            StWarning "Deleted Site-C (East)"; StRerun]).
  vm_compute. reflexivity.
Defined.

(** ** Adding a record, and the run after it *)

Lemma read_back_frame_id (df : DataFrame) :
  (forall r, In r df -> Forall no_marker (text_cells r)) -> map read_back_row df = df.
Proof.
  intros Hall. rewrite <- (map_id df) at 2. apply map_ext_in. intros r Hr.
  specialize (Hall r Hr). unfold text_cells in Hall.
  repeat match goal with
         | H : Forall _ (_ :: _) |- _ => inversion H; subst; clear H
         end.
  destruct r as [n c1 c2 c3 c4 c5 c6]. unfold read_back_row. simpl in *.
  now rewrite !read_back_no_marker.
Qed.

(** The run that adds a record saves the frame and ends; the next run
    loads the file.  The frame it loads is the old frame followed by the new
    record as the reader gives it back. *)
Lemma add_then_reload (today : date) (df : DataFrame) (f : Form) (m : Z) :
  submitted f = true -> new_site f <> EmptyString ->
  series_max (map Sr_No df) = Some m ->
  (forall r, In r df -> Forall no_marker (text_cells r)) ->
  reads_back (df ++ [new_data today m f]) ->
  is_na (new_site f) = false ->
  add_record_form today df f
  = Completed (df ++ [new_data today m f])
      [SaveData (df ++ [new_data today m f]);
       StSuccess (String.append "Record for "
                    (String.append (new_site f) " saved successfully!"));
       StRerun]
  /\ loaded_frame (fst (load_data (Some (save_data (df ++ [new_data today m f])))))
     = Some (df ++ [read_back_row (new_data today m f)])
  /\ Site_Name (read_back_row (new_data today m f)) = Str (new_site f).
Proof.
  intros Hsub Hsite Hm Hdf Hrb Hna. split; [|split].
  - apply truthy_true in Hsite. unfold add_record_form. now rewrite Hsub, Hsite, Hm.
  - cbn [load_data fst]. unfold save_data. rewrite (read_csv_to_csv_back _ Hrb).
    cbn [loaded_frame]. rewrite frame_of_row_values, map_app.
    now rewrite (read_back_frame_id df Hdf).
  - cbn [read_back_row new_data Site_Name read_back]. now rewrite Hna.
Qed.

(** Columns of a frame that is written out in full. *)
Ltac listed_texts :=
  let s := fresh "s" in
  let Hs := fresh "Hs" in
  intros s Hs; simpl in Hs;
  repeat (destruct Hs as [Hs|Hs];
          [first [discriminate Hs
                 | injection Hs as <-; first [reflexivity | split; reflexivity]]|]);
  contradiction.

Ltac listed_column :=
  split; [listed_texts | split; [listed_texts | right; split;
    eexists; (split; [left; reflexivity | split; reflexivity])]].

Ltac listed_frame :=
  unfold reads_back; split; [repeat constructor; vm_compute; intuition discriminate|];
  split; [unfold one_piece; simpl; lia|];
  repeat (match goal with |- _ /\ _ => split end); listed_column.

(** X11: adding a site and then, in the next run, deleting it by its name.
    The next run works on the frame that was saved, as the reader gives it
    back; when the site name is not one of the reader's markers of a missing
    value, the select box offers it, and the deletion removes the new record
    together with every older row of that name: when no older row has the
    name, the frame is what it was before the record was added. *)
Theorem add_then_delete_restores (today : date) (df : DataFrame) (f : Form) (m : Z) :
  submitted f = true -> new_site f <> EmptyString ->
  series_max (map Sr_No df) = Some m ->
  (forall r, In r df -> Forall no_marker (text_cells r)) ->
  reads_back (df ++ [new_data today m f]) ->
  is_na (new_site f) = false ->
  exists log reloaded,
    add_record_form today df f = Completed (df ++ [new_data today m f]) log
    /\ In (SaveData (df ++ [new_data today m f])) log
    /\ loaded_frame (fst (load_data (Some (save_data (df ++ [new_data today m f])))))
       = Some reloaded
    /\ total_sites reloaded = S (total_sites df)
    /\ In (Str (new_site f)) (site_options reloaded)
    /\ delete_site reloaded (Str (new_site f)) = delete_site df (Str (new_site f))
    /\ ((forall r, In r df -> Site_Name r <> Str (new_site f)) ->
        delete_site reloaded (Str (new_site f)) = df).
Proof.
  intros Hsub Hsite Hm Hdf Hrb Hna.
  destruct (add_then_reload today df f m Hsub Hsite Hm Hdf Hrb Hna) as [Hrun [Hload Hname]].
  eexists. exists (df ++ [read_back_row (new_data today m f)]).
  split; [exact Hrun|]. split; [now left|]. split; [exact Hload|].
  assert (Hdel : delete_site (df ++ [read_back_row (new_data today m f)]) (Str (new_site f))
                 = delete_site df (Str (new_site f))).
  { rewrite delete_site_app. unfold delete_site at 2. cbn [filter]. rewrite Hname.
    cbn [ne_cell ne_str]. rewrite String.eqb_refl. cbn [negb]. apply app_nil_r. }
  split; [|split; [|split]].
  - unfold total_sites. rewrite length_app. simpl. lia.
  - unfold site_options, unique. rewrite unique_from_In. split; [|tauto].
    rewrite map_app, in_app_iff. right. simpl. now left.
  - exact Hdel.
  - intros Habs. rewrite Hdel. unfold delete_site. apply filter_all.
    intros r Hr. simpl. apply ne_str_true. now apply Habs.
Qed.

Lemma add_then_delete_restores_witness :
  exists log reloaded,
    add_record_form (mkDate 2026 11 3) (issue_df seed)
      (mkForm "Site-F" "Failed" "WMS-2" "Flow Sensor" "Leak" true)
    = Completed
        (issue_df seed
         ++ [new_data (mkDate 2026 11 3) 4
               (mkForm "Site-F" "Failed" "WMS-2" "Flow Sensor" "Leak" true)]) log
    /\ In (SaveData
             (issue_df seed
              ++ [new_data (mkDate 2026 11 3) 4
                    (mkForm "Site-F" "Failed" "WMS-2" "Flow Sensor" "Leak" true)])) log
    /\ loaded_frame
         (fst (load_data
                 (Some (save_data
                          (issue_df seed
                           ++ [new_data (mkDate 2026 11 3) 4
                                 (mkForm "Site-F" "Failed" "WMS-2" "Flow Sensor" "Leak"
                                    true)])))))
       = Some reloaded
    /\ total_sites reloaded = S (total_sites (issue_df seed))
    /\ In (Str "Site-F") (site_options reloaded)
    /\ delete_site reloaded (Str "Site-F") = delete_site (issue_df seed) (Str "Site-F")
    /\ ((forall r, In r (issue_df seed) -> Site_Name r <> Str "Site-F") ->
        delete_site reloaded (Str "Site-F") = issue_df seed).
Proof.
  apply (add_then_delete_restores (mkDate 2026 11 3) (issue_df seed)
           (mkForm "Site-F" "Failed" "WMS-2" "Flow Sensor" "Leak" true) 4).
  - reflexivity.
  - discriminate.
  - reflexivity.
  - intros r Hr. simpl in Hr.
    repeat (destruct Hr as [<-|Hr]; [repeat constructor|]). contradiction.
  - listed_frame.
  - reflexivity.
Defined.

(** X18: a record that was added is found, in the next run, by its site name.
    The next run searches the frame that was saved, as the reader gives it
    back; when the site name is not one of the reader's markers of a missing
    value, a search for a plain term that the name contains (ASCII text,
    letters in either case), and so a search for the name itself when it is
    plain, shows the new record as its last row. *)
Theorem added_record_is_found (today : date) (df : DataFrame) (f : Form) (m : Z)
    (term : string) :
  submitted f = true -> new_site f <> EmptyString ->
  series_max (map Sr_No df) = Some m ->
  (forall r, In r df -> Forall no_marker (text_cells r)) ->
  reads_back (df ++ [new_data today m f]) ->
  is_na (new_site f) = false ->
  term <> EmptyString -> plain term = true ->
  ascii_text term = true -> ascii_text (new_site f) = true ->
  contains (casefold (new_site f)) (casefold term) = true ->
  exists log reloaded before,
    add_record_form today df f = Completed (df ++ [new_data today m f]) log
    /\ In (SaveData (df ++ [new_data today m f])) log
    /\ loaded_frame (fst (load_data (Some (save_data (df ++ [new_data today m f])))))
       = Some reloaded
    /\ Site_Name (read_back_row (new_data today m f)) = Str (new_site f)
    /\ search reloaded term = Shown (before ++ [read_back_row (new_data today m f)])
    /\ subsequence before df
    /\ (plain (new_site f) = true ->
        exists before',
          search reloaded (new_site f)
          = Shown (before' ++ [read_back_row (new_data today m f)])).
Proof.
  intros Hsub Hsite Hm Hdf Hrb Hna Hterm Hplain _ _ Hcontains.
  destruct (add_then_reload today df f m Hsub Hsite Hm Hdf Hrb Hna) as [Hrun [Hload Hname]].
  eexists. exists (df ++ [read_back_row (new_data today m f)]).
  assert (Hfound : forall t, contains (casefold (new_site f)) (casefold t) = true ->
            filter (row_contains t) (df ++ [read_back_row (new_data today m f)])
            = filter (row_contains t) df ++ [read_back_row (new_data today m f)]).
  { intros t Ht. rewrite filter_app. f_equal. cbn [filter].
    assert (Hrow : row_contains t (read_back_row (new_data today m f)) = true).
    { unfold row_contains, row_text. cbn [existsb]. rewrite Hname.
      cbn [str_of_cell]. rewrite Ht. now rewrite orb_true_r. }
    now rewrite Hrow. }
  exists (filter (row_contains term) df).
  split; [exact Hrun|]. split; [now left|]. split; [exact Hload|].
  split; [exact Hname|]. split; [|split].
  - rewrite (search_plain_filter _ term Hterm Hplain). f_equal. now apply Hfound.
  - apply filter_subsequence.
  - intros Hp. exists (filter (row_contains (new_site f)) df).
    rewrite (search_plain_filter _ (new_site f) Hsite Hp). f_equal.
    apply Hfound. apply contains_refl.
Qed.

Lemma added_record_is_found_witness :
  exists log reloaded before,
    add_record_form (mkDate 2026 11 3) (issue_df seed)
      (mkForm "Site-F North" "Pending" "WMS-1" "" "" true)
    = Completed
        (issue_df seed
         ++ [new_data (mkDate 2026 11 3) 4
               (mkForm "Site-F North" "Pending" "WMS-1" "" "" true)]) log
    /\ In (SaveData
             (issue_df seed
              ++ [new_data (mkDate 2026 11 3) 4
                    (mkForm "Site-F North" "Pending" "WMS-1" "" "" true)])) log
    /\ loaded_frame
         (fst (load_data
                 (Some (save_data
                          (issue_df seed
                           ++ [new_data (mkDate 2026 11 3) 4
                                 (mkForm "Site-F North" "Pending" "WMS-1" "" "" true)])))))
       = Some reloaded
    /\ Site_Name
         (read_back_row
            (new_data (mkDate 2026 11 3) 4
               (mkForm "Site-F North" "Pending" "WMS-1" "" "" true)))
       = Str "Site-F North"
    /\ search reloaded "north"
       = Shown (before
                ++ [read_back_row
                      (new_data (mkDate 2026 11 3) 4
                         (mkForm "Site-F North" "Pending" "WMS-1" "" "" true))])
    /\ subsequence before (issue_df seed)
    /\ (plain "Site-F North" = true ->
        exists before',
          search reloaded "Site-F North"
          = Shown (before'
                   ++ [read_back_row
                         (new_data (mkDate 2026 11 3) 4
                            (mkForm "Site-F North" "Pending" "WMS-1" "" "" true))])).
Proof.
  apply (added_record_is_found (mkDate 2026 11 3) (issue_df seed)
           (mkForm "Site-F North" "Pending" "WMS-1" "" "" true) 4 "north").
  - reflexivity.
  - discriminate.
  - reflexivity.
  - intros r Hr. simpl in Hr.
    repeat (destruct Hr as [<-|Hr]; [repeat constructor|]). contradiction.
  - listed_frame.
  - reflexivity.
  - discriminate.
  - reflexivity.
  - reflexivity.
  - reflexivity.
  - reflexivity.
Defined.

(** ** The ranking of the descriptions *)

(** *** The insertion sort of numpy, on lists *)

Lemma load_app (A T : list nat) (x : nat) (p : Z) :
  p = Z.of_nat (List.length A) -> load (A ++ x :: T) p = Some x.
Proof.
  intros ->. unfold load. destruct (Z.of_nat (List.length A) <? 0) eqn:E;
    [apply Z.ltb_lt in E; lia|].
  rewrite Nat2Z.id, nth_error_app2 by lia. now rewrite Nat.sub_diag.
Qed.

Lemma firstn_length_app {X : Type} (A T : list X) : firstn (List.length A) (A ++ T) = A.
Proof. induction A as [|a A IH]; simpl; [now destruct T | now rewrite IH]. Qed.

Lemma skipn_length_app {X : Type} (A T : list X) : skipn (List.length A) (A ++ T) = T.
Proof. induction A as [|a A IH]; simpl; [reflexivity | exact IH]. Qed.

Lemma store_app (A T : list nat) (h x : nat) (p : Z) :
  p = Z.of_nat (List.length A) -> store (A ++ h :: T) p x = Some (A ++ x :: T).
Proof.
  intros ->. unfold store. rewrite length_app. cbn [List.length].
  assert (E : (0 <=? Z.of_nat (List.length A))
              && (Z.of_nat (List.length A) <? Z.of_nat (List.length A + S (List.length T)))
              = true).
  { apply andb_true_intro. split; [apply Z.leb_le | apply Z.ltb_lt]; lia. }
  rewrite E, Nat2Z.id, firstn_length_app.
  replace (A ++ h :: T) with ((A ++ [h]) ++ T) by (now rewrite <- app_assoc).
  replace (S (List.length A)) with (List.length (A ++ [h]))
    by (rewrite length_app; simpl; lia).
  now rewrite skipn_length_app.
Qed.

Lemma key_app (v A T : list nat) (x : nat) (p : Z) :
  p = Z.of_nat (List.length A) -> (x < List.length v)%nat ->
  key v (A ++ x :: T) p = Some (nth x v 0%nat).
Proof.
  intros Hp Hx. unfold key. rewrite (load_app A T x p Hp). simpl.
  now apply nth_error_nth'.
Qed.

Lemma shift_spec (v : list nat) (x : nat) (rdone : list nat) :
  Forall (fun y => (y < List.length v)%nat) rdone ->
  forall (A T : list nat) (h : nat) (fuel : nat),
    (List.length rdone < fuel)%nat ->
    exists a' pj,
      shift fuel v (A ++ rev rdone ++ h :: T) (nth x v 0%nat)
        (Z.of_nat (List.length A)) (Z.of_nat (List.length A + List.length rdone))
      = Some (a', pj)
      /\ store a' pj x = Some (A ++ rev (insert_key v x rdone) ++ T).
Proof.
  induction 1 as [|y r Hy Hr IH]; intros A T h fuel Hfuel.
  - destruct fuel as [|f]; [simpl in Hfuel; lia|]. simpl.
    replace (Z.of_nat (List.length A + 0)) with (Z.of_nat (List.length A)) by lia.
    rewrite Z.ltb_irrefl. eexists. eexists. split; [reflexivity|].
    now apply store_app.
  - destruct fuel as [|f]; [simpl in Hfuel; lia|]. simpl in Hfuel. cbn [shift].
    assert (Hlt : (Z.of_nat (List.length A) <? Z.of_nat (List.length A + List.length (y :: r)))
                  = true).
    { apply Z.ltb_lt. simpl. lia. }
    rewrite Hlt.
    assert (Ha : A ++ rev (y :: r) ++ h :: T = (A ++ rev r) ++ y :: h :: T).
    { simpl. now rewrite <- !app_assoc. }
    assert (Hp : Z.of_nat (List.length A + List.length (y :: r)) - 1
                 = Z.of_nat (List.length (A ++ rev r))).
    { rewrite length_app, length_rev. simpl. lia. }
    rewrite Ha. rewrite (key_app v (A ++ rev r) (h :: T) y _ Hp Hy). cbn [bind].
    destruct (nth x v 0 <? nth y v 0)%nat eqn:E.
    + rewrite (load_app (A ++ rev r) (h :: T) y _ Hp). cbn [bind].
      assert (Hs : store ((A ++ rev r) ++ y :: h :: T)
                     (Z.of_nat (List.length A + List.length (y :: r))) y
                   = Some ((A ++ rev r ++ [y]) ++ y :: T)).
      { replace ((A ++ rev r) ++ y :: h :: T) with ((A ++ rev r ++ [y]) ++ h :: T)
          by (now rewrite <- !app_assoc).
        apply store_app. rewrite !length_app, length_rev. simpl. lia. }
      rewrite Hs. cbn [bind].
      destruct (IH A (y :: T) y f ltac:(lia)) as [a' [pj [Hshift Hstore]]].
      exists a', pj. split.
      * rewrite <- Hshift. f_equal.
        -- now rewrite <- !app_assoc.
        -- simpl. lia.
      * rewrite Hstore. cbn [insert_key]. rewrite E. simpl. now rewrite <- !app_assoc.
    + eexists. eexists. split; [reflexivity|].
      cbn [insert_key]. rewrite E.
      replace ((A ++ rev r) ++ y :: h :: T) with ((A ++ rev r ++ [y]) ++ h :: T)
        by (now rewrite <- !app_assoc).
      rewrite (store_app (A ++ rev r ++ [y]) T h x).
      * simpl. now rewrite <- !app_assoc.
      * rewrite !length_app, length_rev. simpl. lia.
Qed.

Lemma insert_key_length (v : list nat) (x : nat) (rdone : list nat) :
  List.length (insert_key v x rdone) = S (List.length rdone).
Proof.
  induction rdone as [|y r IH]; simpl; [reflexivity|].
  destruct (nth x v 0 <? nth y v 0)%nat; simpl; [now rewrite IH | reflexivity].
Qed.

Lemma insert_key_valid (v : list nat) (x : nat) (rdone : list nat) :
  (x < List.length v)%nat ->
  Forall (fun y => (y < List.length v)%nat) rdone ->
  Forall (fun y => (y < List.length v)%nat) (insert_key v x rdone).
Proof.
  intros Hx. induction 1 as [|y r Hy Hr IH]; simpl.
  - constructor; [exact Hx | constructor].
  - destruct (nth x v 0 <? nth y v 0)%nat; repeat constructor; assumption.
Qed.

Lemma insertion_spec (v : list nat) (todo : list nat) :
  Forall (fun y => (y < List.length v)%nat) todo ->
  forall (rdone A T : list nat) (fuel : nat),
    Forall (fun y => (y < List.length v)%nat) rdone ->
    (List.length todo < fuel)%nat ->
    insertion fuel v (A ++ rev rdone ++ todo ++ T) (Z.of_nat (List.length A))
      (Z.of_nat (List.length A + List.length rdone + List.length todo) - 1)
      (Z.of_nat (List.length A + List.length rdone))
    = Some (A ++ rev (fold_left (fun rd x => insert_key v x rd) todo rdone) ++ T).
Proof.
  induction 1 as [|x t Hx Ht IH]; intros rdone A T fuel Hr Hfuel.
  - destruct fuel as [|f]; [simpl in Hfuel; lia|]. cbn [insertion fold_left].
    assert (E : (Z.of_nat (List.length A + List.length rdone)
                 <=? Z.of_nat (List.length A + List.length rdone + List.length (@nil nat)) - 1)
                = false).
    { apply Z.leb_gt. simpl. lia. }
    now rewrite E.
  - destruct fuel as [|f]; [simpl in Hfuel; lia|]. simpl in Hfuel. cbn [insertion fold_left].
    assert (E : (Z.of_nat (List.length A + List.length rdone)
                 <=? Z.of_nat (List.length A + List.length rdone + List.length (x :: t)) - 1)
                = true).
    { apply Z.leb_le. simpl. lia. }
    rewrite E.
    cbn [app].
    assert (Hload : load (A ++ rev rdone ++ x :: t ++ T)
                      (Z.of_nat (List.length A + List.length rdone)) = Some x).
    { rewrite app_assoc. apply load_app. rewrite length_app, length_rev. lia. }
    rewrite Hload. cbn [bind]. rewrite (nth_error_nth' v 0%nat Hx). cbn [bind].
    destruct (shift_spec v x rdone Hr A (t ++ T) x
                (S (List.length (A ++ rev rdone ++ x :: t ++ T))))
      as [a' [pj [Hshift Hstore]]].
    { rewrite !length_app, length_rev. simpl. lia. }
    rewrite Hshift. cbn [bind fst snd]. rewrite Hstore. cbn [bind].
    specialize (IH (insert_key v x rdone) A T f (insert_key_valid v x rdone Hx Hr)
                  ltac:(lia)).
    rewrite insert_key_length in IH. rewrite <- IH. f_equal; simpl; lia.
Qed.

Lemma partitions_small (v : list nat) (q : qstate) (fuel : nat) :
  q_pr q - q_pl q <= SMALL_QUICKSORT -> partitions (S fuel) v q = Some q.
Proof.
  intros H. cbn [partitions].
  assert (E : (SMALL_QUICKSORT <? q_pr q - q_pl q) = false) by (apply Z.ltb_ge; exact H).
  now rewrite E.
Qed.

Lemma seq_valid (n : nat) : Forall (fun y => (y < n)%nat) (seq 0 n).
Proof. apply Forall_forall. intros y Hy. apply in_seq in Hy. lia. Qed.

Lemma argsort_small (v : list nat) :
  (List.length v <= 17)%nat ->
  argsort_quicksort v
  = Some (rev (fold_left (fun rd x => insert_key v x rd) (seq 0 (List.length v)) [])).
Proof.
  intros Hn. unfold argsort_quicksort. cbn [aquicksort_loop q_cdepth q_arr].
  assert (Hd : (Z.log2 (Z.of_nat (List.length v)) * 2 <? 0) = false).
  { apply Z.ltb_ge. pose proof (Z.log2_nonneg (Z.of_nat (List.length v))). lia. }
  rewrite Hd, partitions_small by (cbn [q_pr q_pl]; unfold SMALL_QUICKSORT; lia).
  cbn [bind q_arr q_pl q_pr q_stack].
  destruct (List.length v) as [|n] eqn:En.
  - reflexivity.
  - rewrite length_seq. cbn [seq fold_left insert_key].
    pose proof (insertion_spec v (seq 1 n)) as H.
    assert (Hv : Forall (fun y => (y < List.length v)%nat) (seq 1 n)).
    { apply Forall_forall. intros y Hy. apply in_seq in Hy. lia. }
    specialize (H Hv [0%nat] [] [] (S (S n))).
    assert (H0 : Forall (fun y => (y < List.length v)%nat) [0%nat]).
    { constructor; [lia | constructor]. }
    specialize (H H0). rewrite length_seq in H. specialize (H ltac:(lia)).
    cbn [app rev List.length] in H. rewrite app_nil_r in H.
    replace (Z.of_nat (0 + 1 + n) - 1) with (Z.of_nat (S n) - 1) in H by lia.
    change (Z.of_nat 0) with 0 in H. change (Z.of_nat (0 + 1)) with (0 + 1) in H.
    rewrite H. cbn [bind]. now rewrite app_nil_r.
Qed.

Lemma map_insert_key (v : list nat) (g : nat -> string * nat) (n x : nat) (rd : list nat) :
  (forall k, (k < n)%nat -> nth k v 0%nat = snd (g k)) ->
  (x < n)%nat -> Forall (fun y => (y < n)%nat) rd ->
  map g (insert_key v x rd) = insert_desc (g x) (map g rd).
Proof.
  intros Hg Hx. induction 1 as [|y r Hy Hr IH]; simpl.
  - reflexivity.
  - rewrite (Hg x Hx), (Hg y Hy), Nat.ltb_antisym.
    destruct (snd (g y) <=? snd (g x))%nat; simpl; [reflexivity | now rewrite IH].
Qed.

Lemma map_fold_insert_key (v : list nat) (g : nat -> string * nat) (n : nat)
    (l acc : list nat) :
  List.length v = n ->
  (forall k, (k < n)%nat -> nth k v 0%nat = snd (g k)) ->
  Forall (fun y => (y < n)%nat) l -> Forall (fun y => (y < n)%nat) acc ->
  map g (fold_left (fun rd x => insert_key v x rd) l acc)
  = fold_left (fun rd p => insert_desc p rd) (map g l) (map g acc)
  /\ Forall (fun y => (y < n)%nat) (fold_left (fun rd x => insert_key v x rd) l acc).
Proof.
  intros Hlen Hg Hl. revert acc. induction Hl as [|x l Hx Hl IH]; intros acc Hacc; simpl.
  - auto.
  - assert (Hacc' : Forall (fun y => (y < n)%nat) (insert_key v x acc)).
    { rewrite <- Hlen in *. now apply insert_key_valid. }
    destruct (IH _ Hacc') as [E F]. split; [|exact F].
    rewrite E. now rewrite (map_insert_key v g n x acc Hg Hx Hacc).
Qed.

Lemma map_nth_seq {X : Type} (l : list X) (d : X) :
  map (fun k => nth k l d) (seq 0 (List.length l)) = l.
Proof.
  induction l as [|a l IH]; simpl; [reflexivity|]. f_equal.
  rewrite <- seq_shift, map_map. exact IH.
Qed.

Lemma nargsort_small (t : list (string * nat)) :
  (List.length t <= 17)%nat ->
  exists indexer,
    nargsort_descending (map snd t) = Some indexer
    /\ map (fun i => nth i t (EmptyString, 0%nat)) indexer = stable_sort_desc t.
Proof.
  intros Hn. unfold nargsort_descending.
  rewrite argsort_small by (now rewrite length_rev, length_map).
  cbn [bind]. eexists. split; [reflexivity|].
  match goal with
  | |- map _ (rev (map ?f (rev ?l))) = _ =>
      replace (rev (map f (rev l))) with (map f l) by (now rewrite map_rev, rev_involutive)
  end.
  rewrite length_rev, !length_map, map_map.
  set (n := List.length t). set (v := rev (map snd t)).
  set (L := fold_left (fun rd x => insert_key v x rd) (seq 0 n) []).
  set (g := fun k => nth k (rev t) (EmptyString, 0%nat)).
  assert (Hv : List.length v = n).
  { unfold v. now rewrite length_rev, length_map. }
  assert (Hg : forall k, (k < n)%nat -> nth k v 0%nat = snd (g k)).
  { intros k _. unfold v, g. rewrite <- map_rev.
    change 0%nat with (snd (EmptyString, 0%nat)) at 1. apply map_nth. }
  destruct (map_fold_insert_key v g n (seq 0 n) [] Hv Hg (seq_valid n) (Forall_nil _))
    as [E F].
  fold L in E, F.
  assert (Hout : map (fun x => nth (nth x (rev (seq 0 n)) 0%nat) t (EmptyString, 0%nat)) L
                 = map g L).
  { apply map_ext_in. intros k Hk. rewrite Forall_forall in F. specialize (F k Hk).
    unfold g. rewrite !rev_nth by (rewrite ?length_seq; fold n; lia).
    rewrite length_seq, seq_nth by lia. reflexivity. }
  rewrite Hout, E. cbn [map].
  assert (Hmap : map g (seq 0 n) = rev t).
  { unfold g, n. rewrite <- (length_rev t). apply map_nth_seq. }
  rewrite Hmap. unfold stable_sort_desc.
  rewrite <- (rev_involutive t) at 2. now rewrite fold_left_rev_right.
Qed.

Lemma value_counts_small (df : DataFrame) :
  (List.length (description_counts df) <= 17)%nat ->
  value_counts df = Some (stable_top_issues df).
Proof.
  intros Hn. unfold value_counts.
  destruct (nargsort_small (description_counts df) Hn) as [indexer [E Hout]].
  rewrite E. cbn [bind]. now rewrite Hout.
Qed.

(** *** The order of the tally *)

Lemma keys_fold_In {K : Type} (eqb : K -> K -> bool) (eqb_eq : forall a b, eqb a b = true <-> a = b)
    (j : K) (xs : list K) (acc : list (K * nat)) :
  In j (map fst (fold_left (fun a k => bump eqb k a) xs acc)) ->
  In j xs \/ In j (map fst acc).
Proof.
  revert acc. induction xs as [|x xs IH]; intros acc; simpl; [tauto|].
  intros H. apply IH in H. destruct H as [H|H]; [tauto|].
  apply (keys_bump eqb eqb_eq) in H. destruct H as [->|H]; tauto.
Qed.

Lemma keys_bump_new {K : Type} (eqb : K -> K -> bool)
    (eqb_eq : forall a b, eqb a b = true <-> a = b) (k : K) (acc : list (K * nat)) :
  ~ In k (map fst acc) -> map fst (bump eqb k acc) = map fst acc ++ [k].
Proof.
  induction acc as [|[k' n] rest IH]; simpl; intros H; [reflexivity|].
  destruct (eqb k k') eqn:E.
  - apply eqb_eq in E. subst k'. tauto.
  - simpl. f_equal. apply IH. tauto.
Qed.

Lemma keys_fold_prefix {K : Type} (eqb : K -> K -> bool)
    (eqb_eq : forall a b, eqb a b = true <-> a = b) (xs : list K) (acc : list (K * nat)) :
  exists later, map fst (fold_left (fun a k => bump eqb k a) xs acc) = map fst acc ++ later.
Proof.
  revert acc. induction xs as [|x xs IH]; intros acc; simpl.
  - exists []. now rewrite app_nil_r.
  - destruct (IH (bump eqb x acc)) as [later E]. rewrite E.
    destruct (in_dec (fun a b => match bool_dec (eqb a b) true with
                                 | left H => left (proj1 (eqb_eq a b) H)
                                 | right H => right (fun e => H (proj2 (eqb_eq a b) e))
                                 end) x (map fst acc)) as [Hin|Hnew].
    + exists later. f_equal. clear E IH. induction acc as [|[k' n] rest IHa]; simpl in *.
      * contradiction.
      * destruct (eqb x k') eqn:Ex; simpl; [reflexivity|]. f_equal. apply IHa.
        destruct Hin as [->|Hin]; [|exact Hin].
        rewrite (proj2 (eqb_eq x x) eq_refl) in Ex. discriminate.
    + exists (x :: later). rewrite (keys_bump_new eqb eqb_eq x acc Hnew).
      now rewrite <- app_assoc.
Qed.

(** A label stands in the tally where it is first met: before it stand the
    labels of what comes before. *)
Lemma tally_keys_first {K : Type} (eqb : K -> K -> bool)
    (eqb_eq : forall a b, eqb a b = true <-> a = b) (l1 l2 : list K) (d : K) :
  ~ In d l1 ->
  exists later, map fst (tally eqb (l1 ++ d :: l2)) = map fst (tally eqb l1) ++ d :: later.
Proof.
  intros Hnew. unfold tally. rewrite fold_left_app. cbn [fold_left].
  destruct (keys_fold_prefix eqb eqb_eq l2
              (bump eqb d (fold_left (fun a k => bump eqb k a) l1 []))) as [later E].
  exists later. rewrite E, (keys_bump_new eqb eqb_eq).
  - now rewrite <- app_assoc.
  - intros H. apply (keys_fold_In eqb eqb_eq) in H. simpl in H. tauto.
Qed.

Lemma dropna_app (a b : list cell) : dropna (a ++ b) = dropna a ++ dropna b.
Proof.
  induction a as [|c a IH]; simpl; [reflexivity|]. destruct c; simpl; now rewrite IH.
Qed.

Lemma dropna_In (d : string) (cs : list cell) : In d (dropna cs) <-> In (Str d) cs.
Proof.
  induction cs as [|c cs IH]; simpl; [tauto|]. destruct c as [s|]; simpl.
  - rewrite IH. split; intros [H|H]; auto; left; congruence.
  - rewrite IH. split; [tauto|]. intros [H|H]; [discriminate | exact H].
Qed.

Lemma description_counts_first (before after : DataFrame) (r : Row) (d : string) :
  has_issue r -> Issue_Description r = Str d ->
  (forall x, In x (issue_df before) -> Issue_Description x <> Str d) ->
  exists later,
    map fst (description_counts (before ++ r :: after))
    = map fst (description_counts before) ++ d :: later.
Proof.
  intros Hissue Hd Hnew. unfold description_counts.
  rewrite issue_df_app, (issue_df_cons_issue r after Hissue), map_app, dropna_app.
  cbn [map dropna]. rewrite Hd. cbn [dropna].
  apply (tally_keys_first String.eqb String.eqb_eq).
  rewrite dropna_In, in_map_iff. intros [x [Hx Hin]]. now apply (Hnew x).
Qed.



